(** * Margsathi route client: polyline decoding and the routing page's state

    A shallow embedding of two source files of the frontend:

    - [components/MapComponent.jsx]: the function [decodePolyline], and the
      [MapComponent] component with its refs, its route effect and zoom
      effect, their timers and the layers they put on the map;
    - [pages/Routing.jsx], the [Routing] component: its state variables,
      [handleSubmit], its five effects with their timers, and the delta
      badges and the notification it renders.

    JavaScript numbers are IEEE doubles and are modelled by primitive floats;
    the 32-bit integer operators ([|], [&], [<<], [>>], [~]) are modelled on
    [Z] with the wrap-around to 32 bits written out. *)

From Stdlib Require Import ZArith List String Ascii Bool Lia Floats Uint63.
Import ListNotations.

#[local] Set Warnings "-inexact-float".

(* ================================================================== *)
(** ** JavaScript integer operators *)
(* ================================================================== *)

Module JS.

Open Scope Z_scope.

(** [ToInt32]: reduce modulo 2^32 into the signed range. *)
Definition toInt32 (z : Z) : Z :=
  (z + 2 ^ 31) mod 2 ^ 32 - 2 ^ 31.

(** A JavaScript number that may be [NaN]; [None] stands for [NaN].  The
    decoders only ever subtract a constant from such a value, mask it or
    compare it, so the integer case is the only other one. *)
Definition num := option Z.

(** [x - k] on numbers: [NaN - k] is [NaN]. *)
Definition sub (x : num) (k : Z) : num := option_map (fun v => v - k) x.

(** [x & m]: [ToInt32 NaN] is 0. *)
Definition and (x : num) (m : Z) : Z :=
  match x with
  | None => Z.land 0 m
  | Some v => Z.land (toInt32 v) m
  end.

(** [a << s]: the shift count is taken modulo 32, the result wraps. *)
Definition shl (a s : Z) : Z := toInt32 (Z.shiftl (toInt32 a) (s mod 32)).

(** [a | b] on 32-bit integers. *)
Definition or (a b : Z) : Z := Z.lor (toInt32 a) (toInt32 b).

(** [a >> 1], sign-propagating. *)
Definition sar1 (a : Z) : Z := Z.shiftr (toInt32 a) 1.

(** [~a]. *)
Definition not (a : Z) : Z := Z.lnot (toInt32 a).

(** [x >= k]: false on [NaN]. *)
Definition ge (x : num) (k : Z) : bool :=
  match x with
  | None => false
  | Some v => k <=? v
  end.

(** The double holding the integer [z] (exact for |z| < 2^53). *)
Definition float_of_Z (z : Z) : float :=
  if z <? 0 then PrimFloat.opp (PrimFloat.of_uint63 (Uint63.of_Z (- z)))
  else PrimFloat.of_uint63 (Uint63.of_Z z).

(** [a !== b] on doubles: IEEE inequality ([NaN !== NaN] holds). *)
Definition float_neq (a b : float) : bool := negb (PrimFloat.eqb a b).

End JS.

(* ================================================================== *)
(** ** MapComponent.jsx: decodePolyline *)
(* ================================================================== *)

Module Polyline.

Open Scope Z_scope.

(** A JavaScript string is a sequence of 16-bit code units. *)
Definition jsstring := list Z.

Definition code_of_ascii (a : ascii) : Z := Z.of_nat (nat_of_ascii a).

Fixpoint codes (s : string) : jsstring :=
  match s with
  | EmptyString => []
  | String a s' => code_of_ascii a :: codes s'
  end.

(** [encoded.charCodeAt(index)]: [NaN] past the end of the string. *)
Definition charCodeAt (encoded : jsstring) (index : nat) : JS.num :=
  nth_error encoded index.

(** One [do { ... } while (b >= 0x20)] loop.  Each round reads one code unit
    at [index], which it then increments.  The answer is the index after the
    loop and the accumulated [result]. *)
Fixpoint read_group (fuel : nat) (encoded : jsstring)
    (index : nat) (shift result : Z) : option (nat * Z) :=
  match fuel with
  | O => None
  | S fuel' =>
      let b := JS.sub (charCodeAt encoded index) 63 in
      let index := S index in
      let result := JS.or result (JS.shl (JS.and b 31) shift) in
      let shift := shift + 5 in
      if JS.ge b 32 then read_group fuel' encoded index shift result
      else Some (index, result)
  end.

(** [(result & 1) ? ~(result >> 1) : (result >> 1)] *)
Definition unzigzag (result : Z) : Z :=
  if Z.land (JS.toInt32 result) 1 =? 0 then JS.sar1 result
  else JS.not (JS.sar1 result).

Definition point := (float * float)%type.

(** The [while (index < len)] loop. [lat] and [lng] are doubles. *)
Fixpoint decode_loop (fuel : nat) (encoded : jsstring) (factor : float)
    (index : nat) (lat lng : float) (points : list point)
    : option (list point) :=
  match fuel with
  | O => None
  | S fuel' =>
      let len := List.length encoded in
      if (index <? len)%nat then
        match read_group (S len) encoded index 0 0 with
        | None => None
        | Some (index, result) =>
            let dlat := unzigzag result in
            let lat := PrimFloat.add lat (JS.float_of_Z dlat) in
            match read_group (S len) encoded index 0 0 with
            | None => None
            | Some (index, result) =>
                let dlng := unzigzag result in
                let lng := PrimFloat.add lng (JS.float_of_Z dlng) in
                decode_loop fuel' encoded factor index lat lng
                  (points ++ [(PrimFloat.div lat factor,
                               PrimFloat.div lng factor)])
            end
        end
      else Some points
  end.

(** [Math.pow(10, precision)] for a natural [precision]; the power of ten is
    a double without rounding up to [precision = 18]. *)
Definition pow10 (precision : nat) : float :=
  JS.float_of_Z (10 ^ Z.of_nat precision).

(** [decodePolyline(encoded, precision)].  [None] would mean that the loops
    did not finish within their bound; [decodePolyline_total] shows that this
    never happens.  The empty string is the falsy case of [!encoded]. *)
Definition decodePolyline (encoded : jsstring) (precision : nat)
    : option (list point) :=
  match encoded with
  | [] => Some []
  | _ =>
      decode_loop (S (List.length encoded)) encoded (pow10 precision)
        0%nat 0%float 0%float []
  end.

(** [precision = 6] is the default argument. *)
Definition decodePolyline_default (encoded : jsstring) :=
  decodePolyline encoded 6.

Definition sample : jsstring := codes "_p~iF~ps|U_ulLnnqC_mqNvxq`@".

(** *** The same loops, read on the part of the string not yet consumed

    [group_sfx] and [decode_sfx] follow the two loops on [skipn index encoded]
    in place of [index]; reading past the end finds the empty suffix.  They
    are shown equal to the loops above and carry the structural proofs. *)

Fixpoint group_sfx (cs : jsstring) (shift result : Z) : Z * jsstring :=
  match cs with
  | [] => (JS.or result (JS.shl (JS.and None 31) shift), [])
  | c :: cs' =>
      let b := JS.sub (Some c) 63 in
      let result := JS.or result (JS.shl (JS.and b 31) shift) in
      if JS.ge b 32 then group_sfx cs' (shift + 5) result
      else (result, cs')
  end.

(** One round of the outer loop on a suffix: the decoded point, the new
    running latitude and longitude, and what is left of the string. *)
Definition point_sfx (cs : jsstring) (factor lat lng : float)
    : point * (float * float) * jsstring :=
  let '(r1, cs1) := group_sfx cs 0 0 in
  let lat := PrimFloat.add lat (JS.float_of_Z (unzigzag r1)) in
  let '(r2, cs2) := group_sfx cs1 0 0 in
  let lng := PrimFloat.add lng (JS.float_of_Z (unzigzag r2)) in
  ((PrimFloat.div lat factor, PrimFloat.div lng factor), (lat, lng), cs2).

Fixpoint decode_sfx (fuel : nat) (cs : jsstring) (factor lat lng : float)
    : list point :=
  match fuel with
  | O => []
  | S fuel' =>
      match cs with
      | [] => []
      | _ =>
          let '(pt, (lat, lng), rest) := point_sfx cs factor lat lng in
          pt :: decode_sfx fuel' rest factor lat lng
      end
  end.

(** *** Where a string stops being well formed

    A group is a run of code units with the continuation bit set, closed by
    one without it.  [split_group] cuts the first group off a string, and
    [split_points] cuts off whole points (two groups each) as long as it
    can: what it returns is the longest prefix made of whole points, and the
    tail that holds fewer than two closed groups. *)

Definition continues (c : Z) : bool := JS.ge (JS.sub (Some c) 63) 32.

Fixpoint split_group (cs : jsstring) : option (jsstring * jsstring) :=
  match cs with
  | [] => None
  | c :: cs' =>
      if continues c then
        match split_group cs' with
        | Some (g, r) => Some (c :: g, r)
        | None => None
        end
      else Some ([c], cs')
  end.

Fixpoint split_points (fuel : nat) (cs : jsstring) : jsstring * jsstring :=
  match fuel with
  | O => ([], cs)
  | S fuel' =>
      match split_group cs with
      | None => ([], cs)
      | Some (glat, r) =>
          match split_group r with
          | None => ([], cs)
          | Some (glng, r') =>
              let (w, t) := split_points fuel' r' in
              (glat ++ glng ++ w, t)
          end
      end
  end.

(** The coordinates' part of [s]: its longest prefix of whole points. *)
Definition resolved (s : jsstring) : jsstring :=
  fst (split_points (List.length s) s).

(** The truncated tail of [s], empty when [s] is well formed. *)
Definition dangling (s : jsstring) : jsstring :=
  snd (split_points (List.length s) s).

(** The values of the groups of a string, in order: what the inner loop
    leaves in [result] each time the outer loop runs it. *)
Fixpoint group_values (fuel : nat) (encoded : jsstring) (index : nat)
    : list Z :=
  match fuel with
  | O => []
  | S fuel' =>
      if (index <? List.length encoded)%nat then
        match read_group (S (List.length encoded)) encoded index 0 0 with
        | Some (index', result) =>
            result :: group_values fuel' encoded index'
        | None => []
        end
      else []
  end.

(** The number a group spells: five bits per code unit, lowest first. *)
Fixpoint chunks_value (g : jsstring) : Z :=
  match g with
  | [] => 0
  | c :: g' => (c - 63) mod 32 + 32 * chunks_value g'
  end.

Definition truncated_sample : jsstring := codes "_p~iF~ps|U_ulLnnqC_mqNvxq`".

(** [|x - y| < 0.001] and the same for the second component, on doubles. *)
Definition within_1e3 (p q : point) : Prop :=
  PrimFloat.ltb (PrimFloat.abs (PrimFloat.sub (fst p) (fst q))) 0.001 = true
  /\ PrimFloat.ltb (PrimFloat.abs (PrimFloat.sub (snd p) (snd q))) 0.001
     = true.

End Polyline.

(* ================================================================== *)
(** ** Routing.jsx: the data of the page *)
(* ================================================================== *)

Module Routing.

Open Scope string_scope.
Open Scope list_scope.
Open Scope Z_scope.

(** An object on the heap: [addr] is its identity, [val] what it holds.
    React compares the dependencies of an effect with [Object.is], which on
    objects is identity; every response and every mock event is a new
    object. *)
Record obj (A : Type) : Type := Obj { addr : nat; val : A }.
Arguments Obj {A} _ _.
Arguments addr {A} _.
Arguments val {A} _.

(** [Object.is a b] on two references that may be [null]. *)
Definition same_ref {A : Type} (a b : option (obj A)) : bool :=
  match a, b with
  | None, None => true
  | Some x, Some y => Nat.eqb (addr x) (addr y)
  | _, _ => false
  end.

(** What a field that should hold a string can hold. *)
Inductive strfield : Type :=
  | Undefined
  | Null
  | Str (s : string).

(** [a !== b] on such values. *)
Definition strict_neq (a b : strfield) : bool :=
  match a, b with
  | Undefined, Undefined => false
  | Null, Null => false
  | Str s, Str t => negb (String.eqb s t)
  | _, _ => true
  end.

Module Place.
Record t : Type := mk { display : option string; lat : float; lon : float }.
End Place.

Record Step : Type := mkStep {
  instruction : string;
  distance : float;
  duration : float
}.

(** [response.data] of [/api/routing/suggest].  An entry of
    [detailed_geometry] is [Some (lat, lon)] when it is an array and [None]
    when it is anything else. *)
Record RouteResult : Type := mkRouteResult {
  recommended_route : string;
  distance_km : float;
  duration_minutes : float;
  estimated_co2_kg : float;
  start_point : option Place.t;
  end_point : option Place.t;
  geometry : strfield;
  detailed_geometry : option (list (option (float * float)));
  steps : list Step;
  _provider_used : option string
}.

(** The mock event the simulation builds.  Its [event_id] is the text
    [evt_] followed by [Date.now()]; the number is what is kept here. *)
Module MockEvent.
Record t : Type := mk {
  event_id : Z;
  event_name : string;
  severity : string;
  lat : float;
  lon : float;
  affected_radius : Z
}.
End MockEvent.

(** The state variables of the component, in the order of their
    [useState] calls.  [lastCalculated] is a time of day as text; the clock
    of the model at that time stands for it. *)
Record State : Type := mkState {
  source : string;
  destination : string;
  event : string;
  loading : bool;
  result : option (obj RouteResult);
  error : option string;
  isSidebarOpen : bool;
  activeStepIndex : option nat;
  isLiveEnabled : bool;
  lastCalculated : option Z;
  simulatedEvent : option (obj MockEvent.t);
  showNotification : bool;
  previousResult : option (obj RouteResult);
  isRerouting : bool;
  etaChanged : bool;
  distanceChanged : bool;
  hasSimulatedThisSession : bool
}.

(** The state setters of [useState], one per variable: [set_x v s] is [s]
    with [x] replaced by [v]. *)

Definition set_source (v : string) (s : State) : State :=
  mkState v (destination s) (event s) (loading s)
    (result s) (error s) (isSidebarOpen s) (activeStepIndex s)
    (isLiveEnabled s) (lastCalculated s) (simulatedEvent s) (showNotification s)
    (previousResult s) (isRerouting s) (etaChanged s) (distanceChanged s)
    (hasSimulatedThisSession s).

Definition set_destination (v : string) (s : State) : State :=
  mkState (source s) v (event s) (loading s)
    (result s) (error s) (isSidebarOpen s) (activeStepIndex s)
    (isLiveEnabled s) (lastCalculated s) (simulatedEvent s) (showNotification s)
    (previousResult s) (isRerouting s) (etaChanged s) (distanceChanged s)
    (hasSimulatedThisSession s).

Definition set_event (v : string) (s : State) : State :=
  mkState (source s) (destination s) v (loading s)
    (result s) (error s) (isSidebarOpen s) (activeStepIndex s)
    (isLiveEnabled s) (lastCalculated s) (simulatedEvent s) (showNotification s)
    (previousResult s) (isRerouting s) (etaChanged s) (distanceChanged s)
    (hasSimulatedThisSession s).

Definition set_loading (v : bool) (s : State) : State :=
  mkState (source s) (destination s) (event s) v
    (result s) (error s) (isSidebarOpen s) (activeStepIndex s)
    (isLiveEnabled s) (lastCalculated s) (simulatedEvent s) (showNotification s)
    (previousResult s) (isRerouting s) (etaChanged s) (distanceChanged s)
    (hasSimulatedThisSession s).

Definition set_result (v : option (obj RouteResult)) (s : State) : State :=
  mkState (source s) (destination s) (event s) (loading s)
    v (error s) (isSidebarOpen s) (activeStepIndex s)
    (isLiveEnabled s) (lastCalculated s) (simulatedEvent s) (showNotification s)
    (previousResult s) (isRerouting s) (etaChanged s) (distanceChanged s)
    (hasSimulatedThisSession s).

Definition set_error (v : option string) (s : State) : State :=
  mkState (source s) (destination s) (event s) (loading s)
    (result s) v (isSidebarOpen s) (activeStepIndex s)
    (isLiveEnabled s) (lastCalculated s) (simulatedEvent s) (showNotification s)
    (previousResult s) (isRerouting s) (etaChanged s) (distanceChanged s)
    (hasSimulatedThisSession s).

Definition set_isSidebarOpen (v : bool) (s : State) : State :=
  mkState (source s) (destination s) (event s) (loading s)
    (result s) (error s) v (activeStepIndex s)
    (isLiveEnabled s) (lastCalculated s) (simulatedEvent s) (showNotification s)
    (previousResult s) (isRerouting s) (etaChanged s) (distanceChanged s)
    (hasSimulatedThisSession s).

Definition set_activeStepIndex (v : option nat) (s : State) : State :=
  mkState (source s) (destination s) (event s) (loading s)
    (result s) (error s) (isSidebarOpen s) v
    (isLiveEnabled s) (lastCalculated s) (simulatedEvent s) (showNotification s)
    (previousResult s) (isRerouting s) (etaChanged s) (distanceChanged s)
    (hasSimulatedThisSession s).

Definition set_isLiveEnabled (v : bool) (s : State) : State :=
  mkState (source s) (destination s) (event s) (loading s)
    (result s) (error s) (isSidebarOpen s) (activeStepIndex s)
    v (lastCalculated s) (simulatedEvent s) (showNotification s)
    (previousResult s) (isRerouting s) (etaChanged s) (distanceChanged s)
    (hasSimulatedThisSession s).

Definition set_lastCalculated (v : option Z) (s : State) : State :=
  mkState (source s) (destination s) (event s) (loading s)
    (result s) (error s) (isSidebarOpen s) (activeStepIndex s)
    (isLiveEnabled s) v (simulatedEvent s) (showNotification s)
    (previousResult s) (isRerouting s) (etaChanged s) (distanceChanged s)
    (hasSimulatedThisSession s).

Definition set_simulatedEvent (v : option (obj MockEvent.t)) (s : State) : State :=
  mkState (source s) (destination s) (event s) (loading s)
    (result s) (error s) (isSidebarOpen s) (activeStepIndex s)
    (isLiveEnabled s) (lastCalculated s) v (showNotification s)
    (previousResult s) (isRerouting s) (etaChanged s) (distanceChanged s)
    (hasSimulatedThisSession s).

Definition set_showNotification (v : bool) (s : State) : State :=
  mkState (source s) (destination s) (event s) (loading s)
    (result s) (error s) (isSidebarOpen s) (activeStepIndex s)
    (isLiveEnabled s) (lastCalculated s) (simulatedEvent s) v
    (previousResult s) (isRerouting s) (etaChanged s) (distanceChanged s)
    (hasSimulatedThisSession s).

Definition set_previousResult (v : option (obj RouteResult)) (s : State) : State :=
  mkState (source s) (destination s) (event s) (loading s)
    (result s) (error s) (isSidebarOpen s) (activeStepIndex s)
    (isLiveEnabled s) (lastCalculated s) (simulatedEvent s) (showNotification s)
    v (isRerouting s) (etaChanged s) (distanceChanged s)
    (hasSimulatedThisSession s).

Definition set_isRerouting (v : bool) (s : State) : State :=
  mkState (source s) (destination s) (event s) (loading s)
    (result s) (error s) (isSidebarOpen s) (activeStepIndex s)
    (isLiveEnabled s) (lastCalculated s) (simulatedEvent s) (showNotification s)
    (previousResult s) v (etaChanged s) (distanceChanged s)
    (hasSimulatedThisSession s).

Definition set_etaChanged (v : bool) (s : State) : State :=
  mkState (source s) (destination s) (event s) (loading s)
    (result s) (error s) (isSidebarOpen s) (activeStepIndex s)
    (isLiveEnabled s) (lastCalculated s) (simulatedEvent s) (showNotification s)
    (previousResult s) (isRerouting s) v (distanceChanged s)
    (hasSimulatedThisSession s).

Definition set_distanceChanged (v : bool) (s : State) : State :=
  mkState (source s) (destination s) (event s) (loading s)
    (result s) (error s) (isSidebarOpen s) (activeStepIndex s)
    (isLiveEnabled s) (lastCalculated s) (simulatedEvent s) (showNotification s)
    (previousResult s) (isRerouting s) (etaChanged s) v
    (hasSimulatedThisSession s).

Definition set_hasSimulatedThisSession (v : bool) (s : State) : State :=
  mkState (source s) (destination s) (event s) (loading s)
    (result s) (error s) (isSidebarOpen s) (activeStepIndex s)
    (isLiveEnabled s) (lastCalculated s) (simulatedEvent s) (showNotification s)
    (previousResult s) (isRerouting s) (etaChanged s) (distanceChanged s)
    v.

(** The state of the first render. *)
Definition initial_state : State :=
  mkState EmptyString EmptyString EmptyString false None None true None false None None false
    None false false false false.

(** The body of the request [handleSubmit] posts. *)
Record Payload : Type := mkPayload {
  p_source : string;
  p_destination : string;
  p_event : string;
  p_mode : string;
  p_provider : option string;
  p_event_severity : string;
  p_event_location : option (float * float)
}.

(** A call of [handleSubmit] that awaits its response: the render whose
    [handleSubmit] was called ([closure]: the constants of that render are
    what the function reads), and its second argument. *)
Record Request : Type := mkRequest {
  closure : State;
  eventLocation : option (obj MockEvent.t)
}.

(** [a || b] on strings: the empty string is falsy. *)
Definition str_or (a b : string) : string :=
  if String.eqb a EmptyString then b else a.

Definition payload_of (req : Request) : Payload :=
  let c := closure req in
  (* const effectiveEvent = eventLocation || simulatedEvent *)
  let effectiveEvent :=
    match eventLocation req with
    | Some e => Some e
    | None => simulatedEvent c
    end in
  mkPayload
    (source c)
    (destination c)
    match effectiveEvent with
    | Some e => str_or (MockEvent.event_name (val e)) "Accident"
    | None => event c
    end
    "car"
    match result c with
    | Some r =>
        match _provider_used (val r) with
        | Some p => if String.eqb p EmptyString then None else Some p
        | None => None
        end
    | None => None
    end
    match effectiveEvent with
    | Some e => MockEvent.severity (val e)
    | None => "LOW"
    end
    match effectiveEvent with
    | Some e => Some (MockEvent.lat (val e), MockEvent.lon (val e))
    | None => None
    end.

(** How the awaited [axios.post] ends: with [response.data], or with an
    error whose [err.response?.data?.detail] may be missing. *)
Inductive Response : Type :=
  | Success (data : RouteResult)
  | Failure (detail : option string).

(** The three flags that a [setTimeout] of 3000 ms sets back to false. *)
Inductive Flag : Type := EtaFlag | DistanceFlag | ReroutingFlag.

(** The component with what is pending around it: the state, the requests
    in flight (oldest first), the timer of each effect with the render it
    closes over, the timers that reset the flags (which nothing ever clears),
    the clock in milliseconds, and the next free address. *)
Record World : Type := mkWorld {
  st : State;
  inflight : list Request;
  debounce : option (Z * State);
  poll : option Z;
  sim : option (Z * State);
  resets : list (Z * Flag);
  now : Z;
  next_addr : nat
}.

Definition with_st (v : State) (w : World) : World :=
  mkWorld v (inflight w) (debounce w) (poll w) (sim w) (resets w) (now w)
    (next_addr w).
Definition with_inflight (v : list Request) (w : World) : World :=
  mkWorld (st w) v (debounce w) (poll w) (sim w) (resets w) (now w)
    (next_addr w).
Definition with_debounce (v : option (Z * State)) (w : World) : World :=
  mkWorld (st w) (inflight w) v (poll w) (sim w) (resets w) (now w)
    (next_addr w).
Definition with_poll (v : option Z) (w : World) : World :=
  mkWorld (st w) (inflight w) (debounce w) v (sim w) (resets w) (now w)
    (next_addr w).
Definition with_sim (v : option (Z * State)) (w : World) : World :=
  mkWorld (st w) (inflight w) (debounce w) (poll w) v (resets w) (now w)
    (next_addr w).
Definition with_resets (v : list (Z * Flag)) (w : World) : World :=
  mkWorld (st w) (inflight w) (debounce w) (poll w) (sim w) v (now w)
    (next_addr w).
Definition with_now (v : Z) (w : World) : World :=
  mkWorld (st w) (inflight w) (debounce w) (poll w) (sim w) (resets w) v
    (next_addr w).
Definition with_next_addr (v : nat) (w : World) : World :=
  mkWorld (st w) (inflight w) (debounce w) (poll w) (sim w) (resets w)
    (now w) v.

(** The component after its first render: its effects have run and have
    armed nothing, since there is no input and no result yet. *)
Definition initial : World :=
  mkWorld initial_state [] None None None [] 0 0%nat.

(** Statements run one after the other: [w |> f |> g]. *)
Notation "w |> f" := (f w) (at level 45, left associativity, only parsing).

(** A state setter, as a statement. *)
Definition set {V : Type} (setter : V -> State -> State) (v : V)
    (w : World) : World :=
  with_st (setter v (st w)) w.

(** [setTimeout(() => setFlag(false), ms)]; the timer's id is dropped. *)
Definition setTimeout_reset (f : Flag) (ms : Z) (w : World) : World :=
  with_resets (resets w ++ [(now w + ms, f)]) w.

Definition when (b : bool) (body : World -> World) (w : World) : World :=
  if b then body w else w.

(** A new object. *)
Definition alloc {A : Type} (v : A) (w : World) : obj A * World :=
  (Obj (next_addr w) v, with_next_addr (S (next_addr w)) w).

(* ================================================================== *)
(** ** Routing.jsx: handleSubmit *)
(* ================================================================== *)

(** [handleSubmit(e, eventLocation)] up to its [await]: three setters, then
    the request is posted.  [c] is the render the called function belongs
    to; the setters act on the live state. *)
Definition handleSubmit (c : State) (eventLocation : option (obj MockEvent.t))
    (w : World) : World :=
  w |> set set_loading true
    |> set set_error None
    |> set set_activeStepIndex None
    |> (fun w => with_inflight (inflight w ++ [mkRequest c eventLocation]) w).

Definition fallback_error : string := "Failed to get route suggestion".

(** [err.response?.data?.detail || 'Failed to get route suggestion'] *)
Definition error_text (detail : option string) : string :=
  match detail with
  | Some d => str_or d fallback_error
  | None => fallback_error
  end.

(** [previousResult && previousResult.geometry !== response.data.geometry] *)
Definition reroute_detected (previousResult : option (obj RouteResult))
    (data : RouteResult) : bool :=
  match previousResult with
  | Some prev => strict_neq (geometry (val prev)) (geometry data)
  | None => false
  end.

(** The block under [// Detect rerouting]. *)
Definition detect_rerouting (previousResult : option (obj RouteResult))
    (data : RouteResult) (w : World) : World :=
  match previousResult with
  | Some prev =>
      if strict_neq (geometry (val prev)) (geometry data) then
        w |> set set_isRerouting true
          |> when (JS.float_neq (duration_minutes (val prev))
                                (duration_minutes data))
               (fun w => w |> set set_etaChanged true
                           |> setTimeout_reset EtaFlag 3000)
          |> when (JS.float_neq (distance_km (val prev)) (distance_km data))
               (fun w => w |> set set_distanceChanged true
                           |> setTimeout_reset DistanceFlag 3000)
          |> setTimeout_reset ReroutingFlag 3000
      else w
  | None => w
  end.

(** [handleSubmit] from its [await] on, when the request [req] ends with
    [resp]: the rest of the [try] block, or the [catch] block, and then the
    [finally] block.  [previousResult] is read from the render of the call,
    as every constant of the function is. *)
Definition handleSubmit_resumed (req : Request) (resp : Response)
    (w : World) : World :=
  match resp with
  | Success data =>
      let (r, w) := alloc data w in
      w |> set set_result (Some r)
        |> set set_lastCalculated (Some (now w))
        |> set set_isSidebarOpen true
        |> detect_rerouting (previousResult (closure req)) data
        |> set set_previousResult (Some r)
        |> set set_loading false
  | Failure detail =>
      w |> set set_error (Some (error_text detail))
        |> set set_loading false
  end.

(* ================================================================== *)
(** ** Routing.jsx: the five effects *)
(* ================================================================== *)

(** A string in a condition: the empty string is falsy. *)
Definition truthy (s : string) : bool := negb (String.eqb s EmptyString).

Definition has_result (s : State) : bool :=
  match result s with Some _ => true | None => false end.

Definition has_simulatedEvent (s : State) : bool :=
  match simulatedEvent s with Some _ => true | None => false end.

(** The dependencies [source, destination] differ between two renders. *)
Definition endpoints_changed (old new : State) : bool :=
  negb (String.eqb (source old) (source new)
        && String.eqb (destination old) (destination new)).

(** Auto-recalculate on source/destination change (debounced).  The timer
    of the last run is cleared; a new one is set unless an input is empty. *)
Definition effect_debounce (old new : State) (w : World) : World :=
  if endpoints_changed old new then
    let w := with_debounce None w in
    if truthy (source new) && truthy (destination new) then
      w |> set set_simulatedEvent None
        |> set set_event EmptyString
        |> set set_showNotification false
        |> (fun w => with_debounce (Some (now w + 2500, new)) w)
    else w
  else w.

(** Polling simulation, dependencies [isLiveEnabled, !!result]. *)
Definition effect_poll (old new : State) (w : World) : World :=
  if negb (Bool.eqb (isLiveEnabled old) (isLiveEnabled new)
           && Bool.eqb (has_result old) (has_result new)) then
    let w := with_poll None w in
    if isLiveEnabled new && has_result new
    then with_poll (Some (now w + 12000)) w
    else w
  else w.

(** Reset simulation flag when source/destination changes. *)
Definition effect_reset_flag (old new : State) (w : World) : World :=
  if endpoints_changed old new
  then w |> set set_hasSimulatedThisSession false
  else w.

(** The dependencies of the event simulation effect differ:
    [result, event, simulatedEvent, loading, hasSimulatedThisSession]. *)
Definition simulation_deps_changed (old new : State) : bool :=
  negb (same_ref (result old) (result new)
        && String.eqb (event old) (event new)
        && same_ref (simulatedEvent old) (simulatedEvent new)
        && Bool.eqb (loading old) (loading new)
        && Bool.eqb (hasSimulatedThisSession old)
                    (hasSimulatedThisSession new)).

(** [result && !event && !simulatedEvent && !loading
     && !hasSimulatedThisSession] *)
Definition simulation_ready (s : State) : bool :=
  has_result s && negb (truthy (event s)) && negb (has_simulatedEvent s)
  && negb (loading s) && negb (hasSimulatedThisSession s).

(** Event simulation logic: the timer of 10 s, set in a render that is
    ready for it and cleared when a dependency changes. *)
Definition effect_simulation (old new : State) (w : World) : World :=
  if simulation_deps_changed old new then
    let w := with_sim None w in
    if simulation_ready new
    then with_sim (Some (now w + 10000, new)) w
    else w
  else w.

(** Recalculate when [event] changes. *)
Definition effect_event (old new : State) (w : World) : World :=
  if negb (String.eqb (event old) (event new)) then
    if truthy (event new) && has_result new && negb (has_simulatedEvent new)
    then handleSubmit new None w
    else w
  else w.

(** The effects of the render [new], which follows the render [old], in
    the order the component declares them. *)
Definition run_effects (old new : State) (w : World) : World :=
  w |> effect_debounce old new
    |> effect_poll old new
    |> effect_reset_flag old new
    |> effect_simulation old new
    |> effect_event old new.

(** After a handler, a timer callback or the continuation of an [await]
    has run, React 18 applies the setters it called together; the component
    renders and runs its effects, and the setters the effects called make it
    render once more.  The second round of effects calls no setter
    ([commit_settled]), so there is no third render. *)
Definition commit (old : State) (w : World) : World :=
  let new := st w in
  let w1 := run_effects old new w in
  run_effects new (st w1) w1.

(* ================================================================== *)
(** ** Routing.jsx: what can happen to the page *)
(* ================================================================== *)

Definition eventTypes : list string :=
  [EmptyString; "Road Closure"; "Political Rally"; "Protest"; "Concert"; "Accident";
   "Construction"].

Definition mockEventTypes : list string :=
  ["Rally"; "Political meeting"; "Road construction"].

(** [Math.floor] of a finite double; the other doubles do not occur where
    it is used. *)
Definition floor (x : float) : Z :=
  match Prim2SF x with
  | S754_finite s m e =>
      let v := if s then Z.neg m else Z.pos m in
      if 0 <=? e then v * 2 ^ e else v / 2 ^ (- e)
  | _ => 0
  end.

(** A value [Math.random] can return. *)
Definition unit_interval (u : float) : bool :=
  PrimFloat.leb 0 u && PrimFloat.ltb u 1.

(** Step 1 of the simulation, [// 1. Pick a location along the route]:
    an entry from the middle of the detailed geometry, or else a point next
    to the end point.  [u] is the value of [Math.random()]. *)
Definition pick_location (r : RouteResult) (u : float)
    : option (float * float) :=
  let on_route :=
    match detailed_geometry r with
    | Some dg =>
        let len := List.length dg in
        if (10 <? len)%nat then
          let flen := JS.float_of_Z (Z.of_nat len) in
          let minIdx := floor (PrimFloat.mul flen 0.3) in
          let maxIdx := floor (PrimFloat.mul flen 0.7) in
          let randomIdx :=
            floor (PrimFloat.mul u (JS.float_of_Z (maxIdx - minIdx + 1)))
            + minIdx in
          if randomIdx <? 0 then None
          else
            match nth_error dg (Z.to_nat randomIdx) with
            | Some (Some point) => Some point
            | _ => None
            end
        else None
    | None => None
    end in
  match on_route with
  | Some point => Some point
  | None =>
      match end_point r with
      | Some p => Some (PrimFloat.sub (Place.lat p) 0.001,
                        PrimFloat.sub (Place.lon p) 0.001)
      | None => None
      end
  end.

(** The callback of the simulation timer, in the render [c] that set it.
    [u1] and [u2] are its two values of [Math.random()]. *)
Definition simulate (c : State) (u1 u2 : float) (w : World) : World :=
  let w := w |> set set_hasSimulatedThisSession true in
  match result c with
  | None => w
  | Some r =>
      match pick_location (val r) u1 with
      | None => w
      | Some (la, lo) =>
          let selectedLabel :=
            nth (Z.to_nat (floor (PrimFloat.mul u2 3))) mockEventTypes EmptyString in
          let (mockEvent, w) :=
            alloc (MockEvent.mk (now w) selectedLabel "HIGH" la lo 500) w in
          w |> set set_simulatedEvent (Some mockEvent)
            |> set set_showNotification true
            |> set set_event selectedLabel
            |> handleSubmit c (Some mockEvent)
      end
  end.

(** The callback of the debounce timer, in the render [c] that set it. *)
Definition debounced (c : State) (w : World) : World :=
  let shown_start :=
    match result c with
    | Some r => match start_point (val r) with
                | Some p => Place.display p
                | None => None
                end
    | None => None
    end in
  let shown_end :=
    match result c with
    | Some r => match end_point (val r) with
                | Some p => Place.display p
                | None => None
                end
    | None => None
    end in
  let differs (s : string) (shown : option string) :=
    match shown with
    | Some d => negb (String.eqb s d)
    | None => true
    end in
  if differs (source c) shown_start || differs (destination c) shown_end
  then handleSubmit c None w
  else w.

(** The callback of the polling interval. *)
Definition polled (u1 u2 : float) (w : World) : World :=
  if PrimFloat.ltb 0.8 u1 then
    let randomEvent :=
      nth (Z.to_nat (floor (PrimFloat.mul u2 3))) mockEventTypes EmptyString in
    w |> set set_event randomEvent
  else w.

Definition clear_flag (f : Flag) (w : World) : World :=
  match f with
  | EtaFlag => w |> set set_etaChanged false
  | DistanceFlag => w |> set set_distanceChanged false
  | ReroutingFlag => w |> set set_isRerouting false
  end.

Fixpoint remove_nth {A : Type} (k : nat) (l : list A) : list A :=
  match l, k with
  | [], _ => []
  | _ :: l', O => l'
  | x :: l', S k' => x :: remove_nth k' l'
  end.

(** The times at which the timers that are set will fire. *)
Definition dues (w : World) : list Z :=
  match debounce w with Some (t, _) => [t] | None => [] end
  ++ match poll w with Some t => [t] | None => [] end
  ++ match sim w with Some (t, _) => [t] | None => [] end
  ++ map fst (resets w).

(** What the user, the network and the clock can do:
    - [EditSource], [EditDestination]: [onChange] of the two text inputs;
    - [SelectEvent]: [onChange] of the event select, with one of its options;
    - [Submit]: [onSubmit] of the form, whose button is disabled while
      [loading] and whose inputs are [required];
    - [ToggleLive], [ToggleSidebar], [ClickStep], [ResetView],
      [DismissNotification]: the other controls ([narrow] is
      [window.innerWidth < 768]);
    - [Resolve k resp]: the request at place [k] among those in flight ends
      with [resp];
    - [Elapse ms]: the clock advances, not beyond the next timer;
    - [DebounceFire], [PollTick], [SimFire], [ResetFire k]: a timer that is
      due fires ([k] is its place among the reset timers; [u1] and [u2] are
      the values [Math.random()] returns to the callback). *)
Inductive Event : Type :=
  | EditSource (text : string)
  | EditDestination (text : string)
  | SelectEvent (value : string)
  | Submit
  | ToggleLive
  | ToggleSidebar
  | ClickStep (i : nat) (narrow : bool)
  | ResetView
  | DismissNotification
  | Resolve (k : nat) (resp : Response)
  | Elapse (ms : Z)
  | DebounceFire
  | PollTick (u1 u2 : float)
  | SimFire (u1 u2 : float)
  | ResetFire (k : nat).

(** The handler or callback an event runs; [None] when the event cannot
    happen: a control that is not rendered or is disabled, a form that does
    not validate, a request that is not in flight, a timer that is not set
    or not due, a clock that would run past a timer that is due. *)
Definition handler (w : World) (e : Event) : option World :=
  let s := st w in
  match e with
  | EditSource text => Some (w |> set set_source text)
  | EditDestination text => Some (w |> set set_destination text)
  | SelectEvent value =>
      if existsb (String.eqb value) eventTypes
      then Some (w |> set set_event value)
      else None
  | Submit =>
      if negb (loading s) && truthy (source s) && truthy (destination s)
      then Some (w |> handleSubmit s None)
      else None
  | ToggleLive => Some (w |> set set_isLiveEnabled (negb (isLiveEnabled s)))
  | ToggleSidebar => Some (w |> set set_isSidebarOpen (negb (isSidebarOpen s)))
  | ClickStep i narrow =>
      match result s with
      | Some r =>
          if (i <? List.length (steps (val r)))%nat
          then Some (w |> set set_activeStepIndex (Some i)
                       |> when narrow (set set_isSidebarOpen false))
          else None
      | None => None
      end
  | ResetView =>
      if has_result s then Some (w |> set set_activeStepIndex None) else None
  | DismissNotification =>
      if showNotification s
      then Some (w |> set set_showNotification false)
      else None
  | Resolve k resp =>
      match nth_error (inflight w) k with
      | Some req =>
          Some (w |> with_inflight (remove_nth k (inflight w))
                  |> handleSubmit_resumed req resp)
      | None => None
      end
  | Elapse ms =>
      if (0 <? ms) && forallb (fun t => now w + ms <=? t) (dues w)
      then Some (w |> with_now (now w + ms))
      else None
  | DebounceFire =>
      match debounce w with
      | Some (due, c) =>
          if due <=? now w
          then Some (w |> with_debounce None |> debounced c)
          else None
      | None => None
      end
  | PollTick u1 u2 =>
      match poll w with
      | Some due =>
          if (due <=? now w) && unit_interval u1 && unit_interval u2
          then Some (w |> with_poll (Some (due + 12000)) |> polled u1 u2)
          else None
      | None => None
      end
  | SimFire u1 u2 =>
      match sim w with
      | Some (due, c) =>
          if (due <=? now w) && unit_interval u1 && unit_interval u2
          then Some (w |> with_sim None |> simulate c u1 u2)
          else None
      | None => None
      end
  | ResetFire k =>
      match nth_error (resets w) k with
      | Some (due, f) =>
          if due <=? now w
          then Some (w |> with_resets (remove_nth k (resets w))
                       |> clear_flag f)
          else None
      | None => None
      end
  end.

(** One event: its handler, then the renders and effects that follow. *)
Definition step (w : World) (e : Event) : option World :=
  option_map (commit (st w)) (handler w e).

Fixpoint run (w : World) (trace : list Event) : option World :=
  match trace with
  | [] => Some w
  | e :: trace' =>
      match step w e with
      | Some w' => run w' trace'
      | None => None
      end
  end.


(** What the page displays: the data of [result]. *)
Definition shown (w : World) : option RouteResult :=
  option_map val (result (st w)).

(** *** Definitions the proofs are stated with *)

(** The debounce effect runs and both inputs are filled in: it calls its
    three setters. *)
Definition debounce_resets (old new : State) : bool :=
  endpoints_changed old new && truthy (source new) && truthy (destination new).

(** The effect on [event] runs and calls [handleSubmit]. *)
Definition event_recalculates (old new : State) : bool :=
  negb (String.eqb (event old) (event new))
  && (truthy (event new) && has_result new && negb (has_simulatedEvent new)).

(** The state after the effects of the render [new], which follows the
    render [old], when it is [s] before them ([run_effects_frame]). *)
Definition effects_state (old new s : State) : State :=
  let s :=
    if debounce_resets old new
    then set_showNotification false
           (set_event EmptyString (set_simulatedEvent None s))
    else s in
  let s :=
    if endpoints_changed old new
    then set_hasSimulatedThisSession false s
    else s in
  if event_recalculates old new
  then set_activeStepIndex None (set_error None (set_loading true s))
  else s.

(** [previousResult.duration_minutes !== response.data.duration_minutes] *)
Definition eta_differs (p : option (obj RouteResult)) (d : RouteResult)
    : bool :=
  match p with
  | Some prev =>
      JS.float_neq (duration_minutes (val prev)) (duration_minutes d)
  | None => false
  end.

(** [previousResult.distance_km !== response.data.distance_km] *)
Definition distance_differs (p : option (obj RouteResult)) (d : RouteResult)
    : bool :=
  match p with
  | Some prev => JS.float_neq (distance_km (val prev)) (distance_km d)
  | None => false
  end.

(** The timers the reroute block sets at time [t]. *)
Definition detect_timers (p : option (obj RouteResult)) (d : RouteResult)
    (t : Z) : list (Z * Flag) :=
  if reroute_detected p d then
    (if eta_differs p d then [(t + 3000, EtaFlag)] else [])
    ++ (if distance_differs p d then [(t + 3000, DistanceFlag)] else [])
    ++ [(t + 3000, ReroutingFlag)]
  else [].

(** The simulation timer of [w], fired with [u] as its first random value,
    finds a place for its event. *)
Definition located (w : World) (u : float) : bool :=
  match sim w with
  | Some (_, c) =>
      match result c with
      | Some r =>
          match pick_location (val r) u with
          | Some _ => true
          | None => false
          end
      | None => false
      end
  | None => false
  end.

(** The user types in one of the two inputs. *)
Definition is_edit (e : Event) : bool :=
  match e with
  | EditSource _ | EditDestination _ => true
  | _ => false
  end.

(** The simulation timer fires. *)
Definition is_simfire (e : Event) : bool :=
  match e with
  | SimFire _ _ => true
  | _ => false
  end.

(** While the simulation timer is set, the flag is down. *)
Definition timer_implies_flag_down (w : World) : Prop :=
  sim w = None \/ hasSimulatedThisSession (st w) = false.

(** How many times the simulation timer fires in a trace. *)
Definition count_fires (trace : list Event) : nat :=
  List.length (filter is_simfire trace).

(** A trace in which the user types in neither input. *)
Definition no_edit (trace : list Event) : bool :=
  forallb (fun e => negb (is_edit e)) trace.

(** Every timer that resets a flag is due now or later. *)
Definition resets_ahead (w : World) : Prop :=
  Forall (fun tf => now w <= fst tf) (resets w).

End Routing.

(* ================================================================== *)
(** ** Sessions used as examples *)
(* ================================================================== *)

Module Scenario.

Import Routing.
Open Scope string_scope.
Open Scope list_scope.
Open Scope Z_scope.

Definition placeA : Place.t := Place.mk (Some "A") 12.5 77.5.
Definition placeB : Place.t := Place.mk (Some "B") 13 77.75.
Definition placeC : Place.t := Place.mk (Some "C") 13.25 78.

(** A route from A to B. *)
Definition route_AB : RouteResult :=
  mkRouteResult "Fastest" 10.5 22 1.25 (Some placeA) (Some placeB)
    (Str "abc") None [] (Some "osrm").

(** A route from A to C. *)
Definition route_AC : RouteResult :=
  mkRouteResult "Fastest" 14.5 31 1.75 (Some placeA) (Some placeC)
    (Str "xyz") None [] (Some "osrm").

(** A detour from A to B: another geometry, longer and slower. *)
Definition route_detour : RouteResult :=
  mkRouteResult "Detour" 11.5 25 1.5 (Some placeA) (Some placeB)
    (Str "abd") None [] (Some "osrm").

(** Another detour, as long and as slow as [route_detour]. *)
Definition route_detour2 : RouteResult :=
  mkRouteResult "Detour" 11.5 25 1.5 (Some placeA) (Some placeB)
    (Str "abe") None [] (Some "osrm").




(** The user types A and B and waits; the debounce timer fires and posts
    the first request. *)
Definition first_request : list Event :=
  [EditSource "A"; EditDestination "B"; Elapse 2500; DebounceFire].

(** ... and the request is answered with [route_AB]. *)
Definition first_route : list Event :=
  first_request ++ [Resolve 0 (Success route_AB)].

(** While the first request (A to B) is in flight the user changes the
    destination to C; the debounce timer posts a second request (A to C).
    The second request is answered first. *)
Definition second_answered_first : list Event :=
  first_request
  ++ [EditDestination "C"; Elapse 2500; DebounceFire;
      Resolve 1 (Success route_AC)].

(** The route is shown for ten seconds and the simulation fires. *)
Definition simulation_fired : list Event :=
  first_route ++ [Elapse 10000; SimFire 0.5 0.5].

(** The recalculation the simulation asked for returns the same route. *)
Definition simulation_same_route : list Event :=
  simulation_fired ++ [Resolve 0 (Success route_AB)].

(** The user picks an event, and the recalculation returns a detour one
    second later. *)
Definition first_detour : list Event :=
  first_route
  ++ [SelectEvent "Road Closure"; Elapse 1000;
      Resolve 0 (Success route_detour)].

(** The user picks another event, and one second later the recalculation
    returns another detour of the same length and duration. *)
Definition second_detour : list Event :=
  first_detour
  ++ [SelectEvent "Accident"; Elapse 1000;
      Resolve 0 (Success route_detour2)].


(** A result without end point and without detailed geometry: the
    simulation finds no place for an event on it. *)
Definition route_bare : RouteResult :=
  mkRouteResult "Fastest" 10.5 22 1.25 (Some placeA) None
    (Str "abc") None [] (Some "osrm").

Definition bare_route : list Event :=
  first_request ++ [Resolve 0 (Success route_bare)].

(** The bare route is displayed for ten seconds and the simulation fires,
    without effect but on its flag; the page stays idle for twenty seconds;
    the user asks again and gets the same answer; the page stays idle for
    more than a minute. *)
Definition idle_windows : list Event :=
  [Elapse 10000; SimFire 0.5 0.5; Elapse 10000; Elapse 10000; Submit;
   Resolve 0 (Success route_bare); Elapse 10000; Elapse 60000].

(** The user asks again while [route_AB] is shown, and the request fails. *)
Definition failed_again (detail : option string) : list Event :=
  first_route ++ [Submit; Resolve 0 (Failure detail)].

(** The simulation has fired for A and B and its recalculation has
    returned; the user changes the destination to C and back to B; the
    debounce timer fires (the route shown is still one from A to B, so it
    posts nothing); ten seconds after the change the simulation timer is
    due again. *)
Definition back_to_B : list Event :=
  simulation_same_route
  ++ [EditDestination "C"; EditDestination "B"; Elapse 2500; DebounceFire;
      Elapse 7500].

(** ... and it fires. *)
Definition simulation_fired_again : list Event :=
  back_to_B ++ [SimFire 0.5 0.5].

(** The world a trace leads to from the first render, or the first render
    itself if the trace cannot happen. *)
Definition after (trace : list Event) : World :=
  match run initial trace with
  | Some w => w
  | None => initial
  end.

End Scenario.

(* ================================================================== *)
(** ** Routing.jsx: what is pending, and what is rendered *)
(* ================================================================== *)

Module Page.

Import Routing.
Open Scope string_scope.
Open Scope list_scope.
Open Scope Z_scope.

(** The dependencies [isLiveEnabled, !!result] of the polling effect differ
    between two renders. *)
Definition poll_deps_changed (old new : State) : bool :=
  negb (Bool.eqb (isLiveEnabled old) (isLiveEnabled new)
        && Bool.eqb (has_result old) (has_result new)).

(** [result?.start_point?.display] in the render [c]. *)
Definition shown_start (c : State) : option string :=
  match result c with
  | Some r => match start_point (val r) with
              | Some p => Place.display p
              | None => None
              end
  | None => None
  end.

(** [result?.end_point?.display] in the render [c]. *)
Definition shown_end (c : State) : option string :=
  match result c with
  | Some r => match end_point (val r) with
              | Some p => Place.display p
              | None => None
              end
  | None => None
  end.

(** The test of the debounce callback:
    [source !== result?.start_point?.display
     || destination !== result?.end_point?.display]. *)
Definition inputs_differ (c : State) : bool :=
  let differs (s : string) (shown : option string) :=
    match shown with
    | Some d => negb (String.eqb s d)
    | None => true
    end in
  differs (source c) (shown_start c) || differs (destination c) (shown_end c).

(** [mockEventTypes[Math.floor(Math.random() * mockEventTypes.length)]],
    with [u] the value of [Math.random()]. *)
Definition mock_label (u : float) : string :=
  nth (Z.to_nat (floor (PrimFloat.mul u 3))) mockEventTypes EmptyString.

(** The mock event the simulation timer of [w] builds when it fires with
    the random values [u1] and [u2], if it finds a place for it. *)
Definition mock_event (w : World) (u1 u2 : float)
    : option (obj MockEvent.t) :=
  match sim w with
  | Some (_, c) =>
      match result c with
      | Some r =>
          match pick_location (val r) u1 with
          | Some (la, lo) =>
              Some (Obj (next_addr w)
                      (MockEvent.mk (now w) (mock_label u2) "HIGH" la lo 500))
          | None => None
          end
      | None => None
      end
  | None => None
  end.

(** The render after [onChange] of one of the two text inputs. *)
Definition edited (e : Event) (s : State) : State :=
  match e with
  | EditSource text => set_source text s
  | EditDestination text => set_destination text s
  | _ => s
  end.

(** The render a timer closes over. *)
Definition timer_closure (t : option (Z * State)) : option State :=
  option_map snd t.

(** The time at which a timer fires. *)
Definition timer_due (t : option (Z * State)) : option Z :=
  option_map fst t.

(** In every render that something pending closes over, [previousResult]
    is the object [result] is. *)
Definition closes_over_current (s : State) : Prop :=
  previousResult s = result s.

Definition closures_current (w : World) : Prop :=
  closes_over_current (st w)
  /\ (forall c, timer_closure (debounce w) = Some c -> closes_over_current c)
  /\ (forall c, timer_closure (sim w) = Some c -> closes_over_current c)
  /\ Forall (fun req => closes_over_current (closure req)) (inflight w).

(** The polling interval is set exactly while live monitoring is on and a
    result is displayed, and its next tick is at most 12 s ahead. *)
Definition poll_in_step (w : World) : Prop :=
  match poll w with
  | Some due =>
      isLiveEnabled (st w) = true /\ has_result (st w) = true
      /\ now w <= due <= now w + 12000
  | None => isLiveEnabled (st w) && has_result (st w) = false
  end.

(** The simulation timer is set exactly while the page is ready for a
    simulation; it was set by a render with the dependencies of the current
    one, and fires at most 10 s ahead. *)
Definition sim_in_step (w : World) : Prop :=
  match sim w with
  | Some (due, c) =>
      simulation_ready (st w) = true
      /\ simulation_deps_changed c (st w) = false
      /\ now w <= due <= now w + 10000
  | None => simulation_ready (st w) = false
  end.

(** A pending debounce timer closes over the inputs as they are now, both
    filled in, and fires at most 2.5 s ahead. *)
Definition debounce_in_step (w : World) : Prop :=
  match debounce w with
  | Some (due, c) =>
      source c = source (st w) /\ destination c = destination (st w)
      /\ truthy (source c) = true /\ truthy (destination c) = true
      /\ now w <= due <= now w + 2500
  | None => True
  end.

(** The time of the last calculation is there exactly while a result is,
    and is not in the future. *)
Definition synched (w : World) : Prop :=
  match lastCalculated (st w) with
  | Some t => has_result (st w) = true /\ t <= now w
  | None => has_result (st w) = false
  end.

(** The arrows of the page: [a > b ? down : up]. *)
Inductive Arrow : Type := ArrowDown | ArrowUp.

Definition arrow (previous current : float) : Arrow :=
  if PrimFloat.ltb current previous then ArrowDown else ArrowUp.

(** The line under the distance, inside [{result && ...}]:
    [{distanceChanged && previousResult && (...)}], with the arrow
    [previousResult.distance_km > result.distance_km ? down : up]. *)
Definition distance_badge (s : State) : option Arrow :=
  match result s with
  | Some r =>
      if distanceChanged s then
        match previousResult s with
        | Some p => Some (arrow (distance_km (val p)) (distance_km (val r)))
        | None => None
        end
      else None
  | None => None
  end.

(** The line under the duration: [{etaChanged && previousResult && (...)}]. *)
Definition eta_badge (s : State) : option Arrow :=
  match result s with
  | Some r =>
      if etaChanged s then
        match previousResult s with
        | Some p =>
            Some (arrow (duration_minutes (val p)) (duration_minutes (val r)))
        | None => None
        end
      else None
  | None => None
  end.

(** The two chips of the notification, inside [{showNotification && ...}]
    and [{previousResult && result && ...}]: the chip of a quantity is
    rendered when [previousResult.q !== result.q], and reads faster or
    shorter ([ArrowDown]) when [previousResult.q > result.q], slower or
    longer ([ArrowUp]) otherwise. *)
Definition chip (previous current : float) : option Arrow :=
  if JS.float_neq previous current
  then Some (arrow previous current)
  else None.

Definition notification_chips (s : State)
    : option (option Arrow * option Arrow) :=
  if showNotification s then
    match previousResult s, result s with
    | Some p, Some r =>
        Some (chip (duration_minutes (val p)) (duration_minutes (val r)),
              chip (distance_km (val p)) (distance_km (val r)))
    | _, _ => None
    end
  else None.

(** The text after [Rerouted to avoid]: [simulatedEvent?.event_name]. *)
Definition notification_event (s : State) : option string :=
  if showNotification s
  then option_map (fun e => MockEvent.event_name (val e)) (simulatedEvent s)
  else None.

End Page.

(* ================================================================== *)
(** ** MapComponent.jsx: the component and its effects *)
(* ================================================================== *)

Module MapView.

Open Scope string_scope.
Open Scope list_scope.
Open Scope Z_scope.

(** A number in a condition: [0], [-0] and [NaN] are falsy. *)
Definition num_truthy (x : float) : bool :=
  negb (PrimFloat.eqb x 0) && negb (PrimFloat.is_nan x).

(** An entry of a list of positions given to Leaflet: [Some (lat, lon)]
    when it is an array of two numbers, [None] when it is anything else (an
    entry of [detailedGeometry] is passed on as it comes). *)
Definition LatLng : Type := option (float * float).

(** A step as the zoom effect reads it: [step.location] is [[lat, lon]],
    [step.maneuver.location] is [[lon, lat]]; [None] when the field, or
    [step.maneuver], is missing. *)
Record MapStep : Type := mkMapStep {
  location : option (float * float);
  maneuver_location : option (float * float)
}.

(** The props the component reads ([onStepClick] is never called). *)
Record Props : Type := mkProps {
  startPoint : option Routing.Place.t;
  endPoint : option Routing.Place.t;
  geometry : Routing.strfield;
  detailedGeometry : option (list LatLng);
  steps : option (list MapStep);
  activeStepIndex : option nat;
  simulatedEvent : option Routing.MockEvent.t;
  isCalculating : bool
}.

(** *** Icons *)

(** What [L.divIcon] is given; of the SVG text, the fill colour and the
    size are kept. *)
Record DivIcon : Type := mkDivIcon {
  svg_fill : string;
  svg_size : Z;
  icon_className : string;
  iconSize : Z * Z;
  iconAnchor : Z * Z;
  popupAnchor : option (Z * Z)
}.

Definition createCustomIcon (type : string) : DivIcon :=
  let color :=
    if String.eqb type "start" then "#22c55e"
    else if String.eqb type "end" then "#ef4444"
    else "#3b82f6" in
  let isStep := String.eqb type "step" in
  mkDivIcon color (if isStep then 24 else 32) "custom-marker-icon"
    (if isStep then (24, 24) else (32, 32))
    (if isStep then (12, 24) else (16, 32))
    (Some (0, -32)).

Definition createPulseIcon : DivIcon :=
  mkDivIcon "#3b82f6" 40 "pulse-marker-icon" (40, 40) (20, 20) None.

Definition createEventIcon : DivIcon :=
  mkDivIcon "#dc2626" 40 "event-marker-icon" (40, 40) (20, 20)
    (Some (0, -20)).

(** *** Layers *)

(** The options of a polyline that the component sets. *)
Record PathStyle : Type := mkPathStyle {
  color : string;
  weight : Z;
  opacity : float;
  lineCap : option string;
  className : string
}.

(** The content of a popup: a heading and a label for the start and end
    markers; the name and the severity for the event marker. *)
Inductive Popup : Type :=
  | Labelled (heading label : string)
  | EventDetected (event_name severity : string).

Inductive Layer : Type :=
  | Line (latlngs : list LatLng) (style : PathStyle)
  | Marker (pos : float * float) (icon : DivIcon) (popup : option Popup)
      (zIndexOffset : Z) (popupOpen : bool).

Definition is_line (l : Layer) : bool :=
  match l with Line _ _ => true | Marker _ _ _ _ _ => false end.

Definition is_marker (l : Layer) : bool := negb (is_line l).

(** Where the map looks: [setView], [fitBounds] with the positions whose
    bounds it takes and its [maxZoom] option if given, [flyTo]. *)
Inductive View : Type :=
  | SetView (center : float * float) (zoom : Z)
  | FitBounds (positions : list LatLng) (maxZoom : option Z)
  | FlyTo (center : float * float) (zoom : Z).

(** The callbacks of the three [setTimeout] of the route effect.  The first
    two read the refs when they run; the third also reads [isEventActive] of
    the run of the effect that set it. *)
Inductive Callback : Type :=
  | FadeOld
  | RemoveOld
  | Settle (isEventActive : bool).

(** The mounted component, from the run of its first effect to its
    unmounting: the layers on the map, each with its identity (the tile
    layer and the controls, which never change, are left out); the view; the
    refs; the timers that are set; the clock. *)
Record MapState : Type := mkMapState {
  layers : list (nat * Layer);
  next_id : nat;
  view : View;
  markersRef : list nat;
  polylineRef : option nat;
  polylineGlowRef : option nat;
  stepMarkerRef : option nat;
  eventMarkerRef : option nat;
  previousGeometryRef : option string;
  oldPolylineRef : option nat;
  oldPolylineGlowRef : option nat;
  isReroutingRef : bool;
  timers : list (Z * Callback);
  now : Z
}.

Definition with_layers (v : list (nat * Layer)) (m : MapState) : MapState :=
  mkMapState v (next_id m) (view m) (markersRef m) (polylineRef m)
    (polylineGlowRef m) (stepMarkerRef m) (eventMarkerRef m)
    (previousGeometryRef m) (oldPolylineRef m) (oldPolylineGlowRef m)
    (isReroutingRef m) (timers m) (now m).
Definition with_next_id (v : nat) (m : MapState) : MapState :=
  mkMapState (layers m) v (view m) (markersRef m) (polylineRef m)
    (polylineGlowRef m) (stepMarkerRef m) (eventMarkerRef m)
    (previousGeometryRef m) (oldPolylineRef m) (oldPolylineGlowRef m)
    (isReroutingRef m) (timers m) (now m).
Definition with_view (v : View) (m : MapState) : MapState :=
  mkMapState (layers m) (next_id m) v (markersRef m) (polylineRef m)
    (polylineGlowRef m) (stepMarkerRef m) (eventMarkerRef m)
    (previousGeometryRef m) (oldPolylineRef m) (oldPolylineGlowRef m)
    (isReroutingRef m) (timers m) (now m).
Definition with_markersRef (v : list nat) (m : MapState) : MapState :=
  mkMapState (layers m) (next_id m) (view m) v (polylineRef m)
    (polylineGlowRef m) (stepMarkerRef m) (eventMarkerRef m)
    (previousGeometryRef m) (oldPolylineRef m) (oldPolylineGlowRef m)
    (isReroutingRef m) (timers m) (now m).
Definition with_polylineRef (v : option nat) (m : MapState) : MapState :=
  mkMapState (layers m) (next_id m) (view m) (markersRef m) v
    (polylineGlowRef m) (stepMarkerRef m) (eventMarkerRef m)
    (previousGeometryRef m) (oldPolylineRef m) (oldPolylineGlowRef m)
    (isReroutingRef m) (timers m) (now m).
Definition with_polylineGlowRef (v : option nat) (m : MapState) : MapState :=
  mkMapState (layers m) (next_id m) (view m) (markersRef m) (polylineRef m)
    v (stepMarkerRef m) (eventMarkerRef m)
    (previousGeometryRef m) (oldPolylineRef m) (oldPolylineGlowRef m)
    (isReroutingRef m) (timers m) (now m).
Definition with_stepMarkerRef (v : option nat) (m : MapState) : MapState :=
  mkMapState (layers m) (next_id m) (view m) (markersRef m) (polylineRef m)
    (polylineGlowRef m) v (eventMarkerRef m)
    (previousGeometryRef m) (oldPolylineRef m) (oldPolylineGlowRef m)
    (isReroutingRef m) (timers m) (now m).
Definition with_eventMarkerRef (v : option nat) (m : MapState) : MapState :=
  mkMapState (layers m) (next_id m) (view m) (markersRef m) (polylineRef m)
    (polylineGlowRef m) (stepMarkerRef m) v
    (previousGeometryRef m) (oldPolylineRef m) (oldPolylineGlowRef m)
    (isReroutingRef m) (timers m) (now m).
Definition with_previousGeometryRef (v : option string) (m : MapState)
    : MapState :=
  mkMapState (layers m) (next_id m) (view m) (markersRef m) (polylineRef m)
    (polylineGlowRef m) (stepMarkerRef m) (eventMarkerRef m)
    v (oldPolylineRef m) (oldPolylineGlowRef m)
    (isReroutingRef m) (timers m) (now m).
Definition with_oldPolylineRef (v : option nat) (m : MapState) : MapState :=
  mkMapState (layers m) (next_id m) (view m) (markersRef m) (polylineRef m)
    (polylineGlowRef m) (stepMarkerRef m) (eventMarkerRef m)
    (previousGeometryRef m) v (oldPolylineGlowRef m)
    (isReroutingRef m) (timers m) (now m).
Definition with_oldPolylineGlowRef (v : option nat) (m : MapState)
    : MapState :=
  mkMapState (layers m) (next_id m) (view m) (markersRef m) (polylineRef m)
    (polylineGlowRef m) (stepMarkerRef m) (eventMarkerRef m)
    (previousGeometryRef m) (oldPolylineRef m) v
    (isReroutingRef m) (timers m) (now m).
Definition with_isReroutingRef (v : bool) (m : MapState) : MapState :=
  mkMapState (layers m) (next_id m) (view m) (markersRef m) (polylineRef m)
    (polylineGlowRef m) (stepMarkerRef m) (eventMarkerRef m)
    (previousGeometryRef m) (oldPolylineRef m) (oldPolylineGlowRef m)
    v (timers m) (now m).
Definition with_timers (v : list (Z * Callback)) (m : MapState) : MapState :=
  mkMapState (layers m) (next_id m) (view m) (markersRef m) (polylineRef m)
    (polylineGlowRef m) (stepMarkerRef m) (eventMarkerRef m)
    (previousGeometryRef m) (oldPolylineRef m) (oldPolylineGlowRef m)
    (isReroutingRef m) v (now m).
Definition with_now (v : Z) (m : MapState) : MapState :=
  mkMapState (layers m) (next_id m) (view m) (markersRef m) (polylineRef m)
    (polylineGlowRef m) (stepMarkerRef m) (eventMarkerRef m)
    (previousGeometryRef m) (oldPolylineRef m) (oldPolylineGlowRef m)
    (isReroutingRef m) (timers m) v.

(** The component after the first effect has created the map:
    [setView([12.9716, 77.5946], 13)], and every ref as [useRef] made it. *)
Definition mounted : MapState :=
  mkMapState [] 0%nat (SetView (12.9716, 77.5946)%float 13) [] None None None
    None None None None false [] 0.

Notation "m |> f" := (f m) (at level 45, left associativity, only parsing).

(** [layer.addTo(map)] for a new layer: the layer is on the map, under a
    new identity. *)
Definition addTo (l : Layer) (m : MapState) : nat * MapState :=
  (next_id m,
   m |> with_layers (layers m ++ [(next_id m, l)])
     |> with_next_id (S (next_id m))).

(** [layer.remove()]. *)
Definition remove (id : nat) (m : MapState) : MapState :=
  with_layers (filter (fun il => negb (Nat.eqb (fst il) id)) (layers m)) m.

(** [ref.current.remove()] under [if (ref.current)]. *)
Definition remove_ref (r : option nat) (m : MapState) : MapState :=
  match r with
  | Some id => remove id m
  | None => m
  end.

(** [line.setStyle(options)]: the options given replace the line's. *)
Definition setStyle (id : nat) (update : PathStyle -> PathStyle)
    (m : MapState) : MapState :=
  with_layers
    (map (fun il =>
            match il with
            | (i, Line pts style) =>
                if Nat.eqb i id then (i, Line pts (update style)) else il
            | _ => il
            end)
       (layers m)) m.

Definition setStyle_ref (r : option nat) (update : PathStyle -> PathStyle)
    (m : MapState) : MapState :=
  match r with
  | Some id => setStyle id update m
  | None => m
  end.

Definition set_color (v : string) (s : PathStyle) : PathStyle :=
  mkPathStyle v (weight s) (opacity s) (lineCap s) (className s).
Definition set_weight (v : Z) (s : PathStyle) : PathStyle :=
  mkPathStyle (color s) v (opacity s) (lineCap s) (className s).
Definition set_opacity (v : float) (s : PathStyle) : PathStyle :=
  mkPathStyle (color s) (weight s) v (lineCap s) (className s).

(** [setTimeout(callback, ms)]; the timer's id is dropped. *)
Definition setTimeout (cb : Callback) (ms : Z) (m : MapState) : MapState :=
  with_timers (timers m ++ [(now m + ms, cb)]) m.

Definition when (b : bool) (body : MapState -> MapState) (m : MapState)
    : MapState :=
  if b then body m else m.

(** *** The route effect *)

Section RouteEffect.

(** [JSON.stringify] on the value of [detailedGeometry]; nothing is assumed
    about the text it returns. *)
Variable stringify : list LatLng -> string.

(** [geometry || (detailedGeometry && detailedGeometry.length > 0
     ? JSON.stringify(detailedGeometry) : null)] *)
Definition currentGeometry (p : Props) : option string :=
  let detailed :=
    match detailedGeometry p with
    | Some dg =>
        if (0 <? List.length dg)%nat then Some (stringify dg) else None
    | None => None
    end in
  match geometry p with
  | Routing.Str s => if Routing.truthy s then Some s else detailed
  | _ => detailed
  end.

(** [previousGeometryRef.current && currentGeometry
     && previousGeometryRef.current !== currentGeometry], as a condition. *)
Definition isRerouting (previous current : option string) : bool :=
  match previous, current with
  | Some a, Some b =>
      Routing.truthy a && Routing.truthy b && negb (String.eqb a b)
  | _, _ => false
  end.

(** [// Determine route coordinates] *)
Definition route (p : Props) : list LatLng :=
  let decoded :=
    match geometry p with
    | Routing.Str s =>
        if Routing.truthy s then
          match Polyline.decodePolyline (Polyline.codes s) 6 with
          | Some points => map Some points
          | None => []
          end
        else []
    | _ => []
    end in
  match detailedGeometry p with
  | Some dg => if (0 <? List.length dg)%nat then dg else decoded
  | None => decoded
  end.

(** [point && point.lat && point.lon] for the start and end points. *)
Definition place_pos (pt : option Routing.Place.t) : option (float * float) :=
  match pt with
  | Some a =>
      if num_truthy (Routing.Place.lat a) && num_truthy (Routing.Place.lon a)
      then Some (Routing.Place.lat a, Routing.Place.lon a)
      else None
  | None => None
  end.

(** [place.display || fallback] *)
Definition display_or (a : Routing.Place.t) (fallback : string) : string :=
  match Routing.Place.display a with
  | Some d => Routing.str_or d fallback
  | None => fallback
  end.

(** [// Add start marker] and [// Add end marker]: the marker is added to
    the map, kept in [markersRef], and its position is pushed. *)
Definition add_place_marker (pt : option Routing.Place.t)
    (type heading fallback : string)
    (st : list LatLng * MapState) : list LatLng * MapState :=
  let (positions, m) := st in
  match pt with
  | Some a =>
      match place_pos pt with
      | Some pos =>
          let (id, m) :=
            addTo (Marker pos (createCustomIcon type)
                     (Some (Labelled heading (display_or a fallback)))
                     0 false) m in
          (positions ++ [Some pos],
           with_markersRef (markersRef m ++ [id]) m)
      | None => st
      end
  | None => st
  end.

(** The colours of the new line and of its glow. *)
Definition colours (isReroutingNow isEventActive isCalculating : bool)
    : string * string :=
  if isReroutingNow then ("#10b981", "#059669")
  else if isEventActive && isCalculating then ("#D2691E", "#8B4513")
  else ("#3b82f6", "#1e40af").

(** The block under [// Detect rerouting]: on a reroute the flag is raised
    and the line that is drawn, if there is one, is kept as the old line,
    with a timer to fade it and a timer to remove it; otherwise the line
    and its glow are removed. *)
Definition detect_reroute (rerouting isEventActive : bool) (m : MapState)
    : MapState :=
  if rerouting then
    let m := with_isReroutingRef true m in
    match polylineRef m with
    | Some _ =>
        m |> with_oldPolylineRef (polylineRef m)
          |> with_oldPolylineGlowRef (polylineGlowRef m)
          |> setTimeout FadeOld (if isEventActive then 0 else 100)
          |> setTimeout RemoveOld (if isEventActive then 50 else 1500)
    | None => m
    end
  else
    let m := m |> remove_ref (polylineRef m) |> with_polylineRef None in
    m |> remove_ref (polylineGlowRef m) |> with_polylineGlowRef None.

(** The timers that block sets. *)
Definition reroute_timers (rerouting isEventActive : bool) (m : MapState)
    : list (Z * Callback) :=
  if rerouting then
    match polylineRef m with
    | Some _ =>
        [(now m + (if isEventActive then 0 else 100), FadeOld);
         (now m + (if isEventActive then 50 else 1500), RemoveOld)]
    | None => []
    end
  else [].

(** [// Clear markers and step markers] *)
Definition clear_markers (m : MapState) : MapState :=
  let m := fold_left (fun m id => remove id m) (markersRef m) m in
  let m := with_markersRef [] m in
  let m := m |> remove_ref (stepMarkerRef m) |> with_stepMarkerRef None in
  m |> remove_ref (eventMarkerRef m) |> with_eventMarkerRef None.

(** [// Render premium polyline]: with a route that is not empty, the glow
    and then the line are added, in the colours of the moment; while the
    flag of the reroute is up a timer is set to settle the colours; the
    route is pushed to the positions. *)
Definition draw_route (r : list LatLng) (isEventActive isCalculating : bool)
    (st : list LatLng * MapState) : list LatLng * MapState :=
  let (positions, m) := st in
  let isReroutingNow := isReroutingRef m in
  let (mainColor, glowColor) :=
    colours isReroutingNow isEventActive isCalculating in
  if (0 <? List.length r)%nat then
    (* Add new glow/shadow first *)
    let (glow, m) :=
      addTo (Line r (mkPathStyle glowColor 12
                       (if isReroutingNow then 0.3 else 0.15)%float
                       None EmptyString)) m in
    let m := with_polylineGlowRef (Some glow) m in
    (* Add main polyline *)
    let (main, m) :=
      addTo (Line r (mkPathStyle mainColor (if isReroutingNow then 8 else 6)
                       0.9%float (Some "round")
                       (if isEventActive || isReroutingNow
                        then "polyline-pulse" else EmptyString))) m in
    let m := with_polylineRef (Some main) m in
    (* Transition reroute color back to normal after delay *)
    let m := when isReroutingNow (setTimeout (Settle isEventActive) 2000) m in
    (positions ++ r, m)
  else (positions, m).

(** [// Add Simulated Event Marker], with its popup opened. *)
Definition add_event_marker (ev : option Routing.MockEvent.t) (m : MapState)
    : MapState :=
  match ev with
  | Some ev =>
      if num_truthy (Routing.MockEvent.lat ev)
         && num_truthy (Routing.MockEvent.lon ev)
      then
        let (id, m) :=
          addTo (Marker (Routing.MockEvent.lat ev, Routing.MockEvent.lon ev)
                   createEventIcon
                   (Some (EventDetected (Routing.MockEvent.event_name ev)
                            (Routing.MockEvent.severity ev)))
                   0 true) m in
        with_eventMarkerRef (Some id) m
      else m
  | None => m
  end.

(** The second effect of the component, with [mapInstance.current] set. *)
Definition route_effect (p : Props) (m : MapState) : MapState :=
  let isEventActive :=
    match simulatedEvent p with Some _ => true | None => false end in
  (* Detect rerouting: geometry changed but we have a previous route *)
  let current := currentGeometry p in
  let rerouting := isRerouting (previousGeometryRef m) current in
  let m := detect_reroute rerouting isEventActive m in
  let m := clear_markers m in
  let (positions, m) :=
    ([], m)
    |> add_place_marker (startPoint p) "start" "Start" "Origin"
    |> add_place_marker (endPoint p) "end" "Destination" "Destination"
    |> draw_route (route p) isEventActive (isCalculating p) in
  (* Auto-fit map bounds *)
  let m :=
    when (0 <? List.length positions)%nat
      (with_view (FitBounds positions (Some 16))) m in
  (* Update previous geometry reference *)
  let m := with_previousGeometryRef current m in
  add_event_marker (simulatedEvent p) m.

End RouteEffect.

(** *** The timers of the route effect *)

Definition run_callback (cb : Callback) (m : MapState) : MapState :=
  match cb with
  | FadeOld =>
      m |> setStyle_ref (oldPolylineRef m)
             (fun s => set_color "#9ca3af" (set_opacity 0.3%float s))
        |> setStyle_ref (oldPolylineGlowRef m) (set_opacity 0.1%float)
  | RemoveOld =>
      let m := m |> remove_ref (oldPolylineRef m) |> with_oldPolylineRef None in
      m |> remove_ref (oldPolylineGlowRef m) |> with_oldPolylineGlowRef None
  | Settle isEventActive =>
      let finalColor := if isEventActive then "#D2691E" else "#3b82f6" in
      let finalGlow := if isEventActive then "#8B4513" else "#1e40af" in
      m |> setStyle_ref (polylineRef m)
             (fun s => set_weight 6 (set_color finalColor s))
        |> setStyle_ref (polylineGlowRef m)
             (fun s => set_opacity 0.15%float (set_color finalGlow s))
        |> with_isReroutingRef false
  end.

(** *** The zoom effect *)

(** [// Handle Active Step Zoom] *)
Definition zoom_effect (p : Props) (m : MapState) : MapState :=
  match activeStepIndex p, steps p with
  | Some i, Some ss =>
      match nth_error ss i with
      | Some step =>
          let coords :=
            match location step with
            | Some (lat, lon) => Some (lat, lon)
            | None =>
                match maneuver_location step with
                | Some (lon, lat) => Some (lat, lon)
                | None => None
                end
            end in
          match coords with
          | Some (lat, lon) =>
              if num_truthy lat && num_truthy lon then
                (* Remove previous step marker *)
                let m := remove_ref (stepMarkerRef m) m in
                (* Fly to location *)
                let m := with_view (FlyTo (lat, lon) 17) m in
                (* Add highlight marker *)
                let (id, m) :=
                  addTo (Marker (lat, lon) createPulseIcon None 1000 false)
                    m in
                with_stepMarkerRef (Some id) m
              else m
          | None => m
          end
      | None => m
      end
  | _, _ => m
  end.

(** *** The recenter control *)

(** The line with the identity [id], if it is on the map. *)
Definition line_on_map (id : nat) (m : MapState) : option (list LatLng) :=
  match find (fun il => Nat.eqb (fst il) id) (layers m) with
  | Some (_, Line pts _) => Some pts
  | _ => None
  end.

(** [btn.onclick] of the control the first effect adds:
    [if (polylineRef.current) fitBounds(polylineRef.current.getBounds())]. *)
Definition recenter (m : MapState) : MapState :=
  match polylineRef m with
  | Some id =>
      match line_on_map id m with
      | Some pts => with_view (FitBounds pts None) m
      | None => m
      end
  | None => m
  end.

(** *** What can happen to the mounted component

    - [RouteEffect p], [ZoomEffect p]: React runs the effect after a render
      with the props [p] (it does so when a dependency of the effect has
      changed; here any run is allowed);
    - [Tick ms]: the clock advances, not beyond the next timer;
    - [Fire k]: the timer at place [k], which is due, fires;
    - [Recenter]: the user clicks the recenter control. *)
Inductive MapEvent : Type :=
  | RouteEffect (p : Props)
  | ZoomEffect (p : Props)
  | Tick (ms : Z)
  | Fire (k : nat)
  | Recenter.

Section Steps.

Variable stringify : list LatLng -> string.

Definition map_step (m : MapState) (e : MapEvent) : option MapState :=
  match e with
  | RouteEffect p => Some (route_effect stringify p m)
  | ZoomEffect p => Some (zoom_effect p m)
  | Tick ms =>
      if (0 <? ms) && forallb (fun t => now m + ms <=? fst t) (timers m)
      then Some (with_now (now m + ms) m)
      else None
  | Fire k =>
      match nth_error (timers m) k with
      | Some (due, cb) =>
          if due <=? now m
          then Some (m |> with_timers (Routing.remove_nth k (timers m))
                       |> run_callback cb)
          else None
      | None => None
      end
  | Recenter => Some (recenter m)
  end.

Fixpoint map_run (m : MapState) (trace : list MapEvent) : option MapState :=
  match trace with
  | [] => Some m
  | e :: trace' =>
      match map_step m e with
      | Some m' => map_run m' trace'
      | None => None
      end
  end.

End Steps.

(** *** Definitions the proofs are stated with *)

(** The refs and timers that the reroute animation goes by. *)
Definition refs_of (m : MapState)
    : Z * list (Z * Callback) * bool * option string
      * option nat * option nat * option nat * option nat :=
  (now m, timers m, isReroutingRef m, previousGeometryRef m,
   oldPolylineRef m, oldPolylineGlowRef m, polylineRef m, polylineGlowRef m).

(** A layer is kept when its identity is not in [ids]. *)
Definition kept (ids : list nat) (il : nat * Layer) : bool :=
  negb (existsb (Nat.eqb (fst il)) ids).

(** The layers on the map that are markers, by identity. *)
Definition marker_ids (m : MapState) : list nat :=
  map fst (filter (fun il => is_marker (snd il)) (layers m)).

(** The layers on the map that are lines, by identity. *)
Definition line_ids (m : MapState) : list nat :=
  map fst (filter (fun il => is_line (snd il)) (layers m)).

(** The markers the refs hold. *)
Definition held_markers (m : MapState) : list nat :=
  markersRef m
  ++ match stepMarkerRef m with Some id => [id] | None => [] end
  ++ match eventMarkerRef m with Some id => [id] | None => [] end.

Definition ref_ids (r : option nat) : list nat :=
  match r with Some id => [id] | None => [] end.

(** The lines the refs hold. *)
Definition line_refs (m : MapState) : list nat :=
  ref_ids (polylineRef m) ++ ref_ids (polylineGlowRef m)
  ++ ref_ids (oldPolylineRef m) ++ ref_ids (oldPolylineGlowRef m).

(** The markers on the map are the markers the refs hold, each held once;
    identities are given out in increasing order, and no ref to a line holds
    a marker. *)
Definition accounted (m : MapState) : Prop :=
  (forall id, In id (marker_ids m) <-> In id (held_markers m))
  /\ NoDup (held_markers m)
  /\ (forall id, In id (marker_ids m) -> (id < next_id m)%nat)
  /\ (forall id, In id (line_refs m) ->
        (id < next_id m)%nat /\ ~ In id (marker_ids m)).

(** How many markers the route effect adds for the props [p]. *)
Definition markers_for (p : Props) : nat :=
  (match place_pos (startPoint p) with Some _ => 1 | None => 0 end
   + match place_pos (endPoint p) with Some _ => 1 | None => 0 end
   + match simulatedEvent p with
     | Some ev =>
         if num_truthy (Routing.MockEvent.lat ev)
            && num_truthy (Routing.MockEvent.lon ev)
         then 1 else 0
     | None => 0
     end)%nat.

(** Props used as examples: a route, and another one after a reroute. *)
Definition props_first : Props :=
  mkProps (Some Scenario.placeA) (Some Scenario.placeB)
    (Routing.Str "_p~iF~ps|U_ulLnnqC") None None None None false.

Definition props_second : Props :=
  mkProps (Some Scenario.placeA) (Some Scenario.placeB)
    (Routing.Str "_p~iF~ps|U_mqNvxq`@") None None None None false.

(** A stand-in for [JSON.stringify] in the examples, whose props carry no
    detailed geometry. *)
Definition no_text (dg : list LatLng) : string := EmptyString.

(** The route is displayed for a second, and changes. *)
Definition rerouted : list MapEvent :=
  [RouteEffect props_first; Tick 1000; RouteEffect props_second].

(** The component after a trace of the example, or as mounted if the
    trace cannot happen. *)
Definition after_map (trace : list MapEvent) : MapState :=
  match map_run no_text mounted trace with
  | Some m => m
  | None => mounted
  end.

(** [i] is none of [ids]. *)
Definition notin (ids : list nat) (i : nat) : bool :=
  negb (existsb (Nat.eqb i) ids).

(** After the markers are cleared none is on the map and none is held;
    [tidy m] says so, and is kept while the route effect adds its own. *)
Definition tidy (m : MapState) : Prop :=
  stepMarkerRef m = None /\ eventMarkerRef m = None
  /\ marker_ids m = markersRef m
  /\ NoDup (markersRef m)
  /\ (forall id, In id (marker_ids m) -> (id < next_id m)%nat)
  /\ (forall id, In id (line_refs m) ->
        (id < next_id m)%nat /\ ~ In id (marker_ids m)).

(** A timer with the callback [cb] is set, and fires within [ms]. *)
Definition scheduled (cb : Callback -> bool) (ms : Z) (m : MapState) : Prop :=
  exists due c,
    In (due, c) (timers m) /\ cb c = true /\ now m <= due <= now m + ms.

Definition is_settle (c : Callback) : bool :=
  match c with Settle _ => true | _ => false end.

Definition is_remove_old (c : Callback) : bool :=
  match c with RemoveOld => true | _ => false end.

End MapView.

(* ================================================================== *)
(** ** The polyline format, as decodePolyline reads it *)
(* ================================================================== *)

Module Format.

Import Polyline.
Open Scope Z_scope.

(** A group with at most six code units, closed by the last of them: the
    only code unit without the continuation bit. *)
Definition well_formed_group (g : jsstring) : Prop :=
  split_group g = Some (g, []) /\ (List.length g <= 6)%nat.

(** The signed number a group spells: its value, read as zig-zag. *)
Definition delta_of (g : jsstring) : Z :=
  let v := chunks_value g in
  if Z.even v then v / 2 else - (v / 2) - 1.

(** The points that pairs of groups spell at the scale [factor]: each pair
    adds its two numbers to the running latitude and longitude. *)
Fixpoint points_of (pairs : list (jsstring * jsstring))
    (factor lat lng : float) : list point :=
  match pairs with
  | [] => []
  | (glat, glng) :: pairs' =>
      let lat := PrimFloat.add lat (JS.float_of_Z (delta_of glat)) in
      let lng := PrimFloat.add lng (JS.float_of_Z (delta_of glng)) in
      (PrimFloat.div lat factor, PrimFloat.div lng factor)
      :: points_of pairs' factor lat lng
  end.

(** The string made of the groups, in order. *)
Fixpoint text_of (pairs : list (jsstring * jsstring)) : jsstring :=
  match pairs with
  | [] => []
  | (glat, glng) :: pairs' => glat ++ glng ++ text_of pairs'
  end.

(** The groups of [sample]. *)
Definition sample_pairs : list (jsstring * jsstring) :=
  [(codes "_p~iF", codes "~ps|U"); (codes "_ulL", codes "nnqC");
   (codes "_mqN", codes "vxq`@")].

End Format.

(* ================================================================== *)
(** ** Proofs: decodePolyline *)
(* ================================================================== *)

Module PolylineFacts.

Import Polyline.

Lemma skipn_succ_tl (A : Type) (l : list A) (i : nat) :
  skipn (S i) l = tl (skipn i l).
Proof.
  revert l; induction i as [|i IH]; intros [|x l]; simpl; auto.
  rewrite <- IH. destruct l; reflexivity.
Qed.

Lemma nth_error_skipn_hd (A : Type) (l : list A) (i : nat) :
  nth_error l i = hd_error (skipn i l).
Proof.
  revert l; induction i as [|i IH]; intros [|x l]; simpl; auto.
Qed.

(** The inner loop on the index agrees with its reading on the suffix. *)
Lemma read_group_sfx (fuel : nat) :
  forall (encoded : jsstring) (index : nat) (shift result : Z),
    (List.length encoded - index < fuel)%nat ->
    exists index',
      read_group fuel encoded index shift result
        = Some (index', fst (group_sfx (skipn index encoded) shift result))
      /\ skipn index' encoded
        = snd (group_sfx (skipn index encoded) shift result)
      /\ (index < index')%nat.
Proof.
  induction fuel as [|fuel IH]; intros encoded index shift result Hfuel;
    [lia|].
  cbn [read_group]. unfold charCodeAt.
  rewrite nth_error_skipn_hd.
  pose proof (length_skipn index encoded) as Hlen.
  pose proof (skipn_succ_tl Z encoded index) as Htl.
  destruct (skipn index encoded) as [|c cs'] eqn:E;
    cbn [hd_error group_sfx tl List.length] in *.
  - exists (S index). cbn [JS.sub option_map JS.ge fst snd].
    repeat split; auto.
  - cbn [JS.sub option_map].
    destruct (JS.ge (Some (c - 63)%Z) 32) eqn:Hge.
    + destruct (IH encoded (S index) (shift + 5)%Z
                  (JS.or result (JS.shl (JS.and (Some (c - 63)%Z) 31) shift)))
        as (index' & H1 & H2 & H3); [lia|].
      rewrite Htl in H1, H2.
      exists index'. repeat split; auto. lia.
    + exists (S index). repeat split; auto.
Qed.

(** The inner loop always finishes within the bound the outer loop gives. *)
Lemma read_group_total (encoded : jsstring) (index : nat) (shift result : Z) :
  exists index' r,
    read_group (S (List.length encoded)) encoded index shift result
      = Some (index', r)
    /\ (index < index')%nat.
Proof.
  destruct (read_group_sfx (S (List.length encoded)) encoded index shift result)
    as (index' & H1 & _ & H3); [lia|].
  eauto.
Qed.

Lemma group_sfx_shorter (cs : jsstring) :
  forall shift result,
    (List.length (snd (group_sfx cs shift result)) <= List.length cs - 1)%nat.
Proof.
  induction cs as [|c cs IH]; intros shift result;
    cbn [group_sfx List.length snd]; [lia|].
  destruct (JS.ge (JS.sub (Some c) 63) 32); cbn [snd]; [|lia].
  specialize (IH (shift + 5)%Z
    (JS.or result (JS.shl (JS.and (JS.sub (Some c) 63) 31) shift))). lia.
Qed.

(** The outer loop agrees with its reading on the suffix. *)
Lemma decode_loop_sfx (fuel : nat) :
  forall (encoded : jsstring) (factor : float) (index : nat)
         (lat lng : float) (points : list point),
    (List.length encoded - index < fuel)%nat ->
    decode_loop fuel encoded factor index lat lng points
      = Some (points ++ decode_sfx fuel (skipn index encoded) factor lat lng).
Proof.
  induction fuel as [|fuel IH]; intros encoded factor index lat lng points Hf;
    [lia|].
  cbn [decode_loop].
  pose proof (length_skipn index encoded) as Hlen.
  destruct (Nat.ltb_spec index (List.length encoded)) as [Hlt|Hge].
  - destruct (read_group_sfx (S (List.length encoded)) encoded index 0%Z 0%Z)
      as (i1 & H1 & S1 & L1); [lia|].
    rewrite H1.
    destruct (read_group_sfx (S (List.length encoded)) encoded i1 0%Z 0%Z)
      as (i2 & H2 & S2 & L2); [lia|].
    rewrite H2, IH by lia.
    rewrite <- app_assoc. f_equal. f_equal.
    cbn [decode_sfx].
    destruct (skipn index encoded) as [|c cs] eqn:E;
      [cbn [List.length] in Hlen; lia|].
    unfold point_sfx.
    destruct (group_sfx (c :: cs) 0 0) as [r1 cs1] eqn:G1.
    cbn [fst snd] in *. rewrite S1 in *.
    destruct (group_sfx cs1 0 0) as [r2 cs2] eqn:G2.
    cbn [fst snd] in *. rewrite S2. reflexivity.
  - replace (skipn index encoded) with (@nil Z).
    + cbn [decode_sfx]. now rewrite app_nil_r.
    + symmetry. apply length_zero_iff_nil. lia.
Qed.

(** [decodePolyline] is its suffix reading from the start of the string. *)
Lemma decodePolyline_sfx (s : jsstring) (precision : nat) :
  decodePolyline s precision
    = Some (decode_sfx (S (List.length s)) s (pow10 precision) 0 0).
Proof.
  destruct s as [|c s]; [reflexivity|].
  unfold decodePolyline.
  rewrite decode_loop_sfx by lia. reflexivity.
Qed.

(** The loops finish on every string: the decoder always returns. *)
Lemma decodePolyline_total (s : jsstring) (precision : nat) :
  exists points, decodePolyline s precision = Some points.
Proof. rewrite decodePolyline_sfx. eauto. Qed.

(** *** Groups *)

Lemma split_group_app (cs : jsstring) :
  forall g r, split_group cs = Some (g, r) ->
    cs = g ++ r /\ (1 <= List.length g)%nat.
Proof.
  induction cs as [|c cs IH]; intros g r H; cbn [split_group] in H;
    [discriminate|].
  destruct (continues c).
  - destruct (split_group cs) as [[g' r']|]; [|discriminate].
    injection H as <- <-. destruct (IH g' r' eq_refl) as [-> ?].
    split; [reflexivity | cbn [List.length]; lia].
  - injection H as <- <-. split; [reflexivity | cbn [List.length]; lia].
Qed.

(** Reading a closed group stops at its end, whatever follows it. *)
Lemma group_sfx_closed (cs : jsstring) :
  forall g r, split_group cs = Some (g, r) ->
  forall (rest : jsstring) (shift result : Z),
    group_sfx (g ++ rest) shift result
      = (fst (group_sfx cs shift result), rest)
    /\ snd (group_sfx cs shift result) = r.
Proof.
  induction cs as [|c cs IH]; intros g r H rest shift result;
    cbn [split_group] in H; [discriminate|].
  unfold continues in H. cbn [group_sfx].
  destruct (JS.ge (JS.sub (Some c) 63) 32) eqn:Hc.
  - destruct (split_group cs) as [[g' r']|] eqn:Hs; [|discriminate].
    injection H as <- <-.
    cbn [app group_sfx]. rewrite Hc. now apply IH.
  - injection H as <- <-. cbn [app group_sfx fst snd]. now rewrite Hc.
Qed.

(** Reading a group that is never closed runs off the end of the string. *)
Lemma group_sfx_open (cs : jsstring) :
  split_group cs = None ->
  forall shift result, snd (group_sfx cs shift result) = [].
Proof.
  induction cs as [|c cs IH]; intros H shift result;
    cbn [group_sfx]; [reflexivity|].
  cbn [split_group] in H. unfold continues in H.
  destruct (JS.ge (JS.sub (Some c) 63) 32).
  - destruct (split_group cs) as [[g' r']|]; [discriminate|]. now apply IH.
  - discriminate.
Qed.

Lemma decode_sfx_nil (fuel : nat) (factor lat lng : float) :
  decode_sfx fuel [] factor lat lng = [].
Proof. destruct fuel; reflexivity. Qed.

(** A non-empty string with fewer than two closed groups decodes to one
    point: the rounds of both inner loops that find no code unit add no bit. *)
Lemma decode_sfx_short (fuel : nat) (cs : jsstring) (factor lat lng : float) :
  cs <> [] ->
  (split_group cs = None \/
   exists g r, split_group cs = Some (g, r) /\ split_group r = None) ->
  exists pt, decode_sfx (S fuel) cs factor lat lng = [pt].
Proof.
  intros Hne Hshort.
  destruct cs as [|c cs]; [congruence|].
  cbn [decode_sfx]. unfold point_sfx.
  destruct (group_sfx (c :: cs) 0 0) as [r1 cs1] eqn:G1.
  destruct (group_sfx cs1 0 0) as [r2 cs2] eqn:G2.
  assert (cs2 = []) as ->.
  { destruct Hshort as [Hopen | (g & r & Hg & Hopen)].
    - pose proof (group_sfx_open _ Hopen 0%Z 0%Z) as E.
      rewrite G1 in E. cbn [snd] in E. subst cs1.
      cbn [group_sfx] in G2. now injection G2 as _ <-.
    - destruct (group_sfx_closed _ _ _ Hg [] 0%Z 0%Z) as [_ E].
      rewrite G1 in E. cbn [snd] in E. subst cs1.
      pose proof (group_sfx_open _ Hopen 0%Z 0%Z) as E.
      rewrite G2 in E. exact E. }
  rewrite decode_sfx_nil. eauto.
Qed.

Lemma decode_sfx_step (fuel : nat) (factor lat lng : float)
    (cs : jsstring) :
  cs <> [] ->
  decode_sfx (S fuel) cs factor lat lng
    = fst (fst (point_sfx cs factor lat lng))
      :: decode_sfx fuel (snd (point_sfx cs factor lat lng)) factor
           (fst (snd (fst (point_sfx cs factor lat lng))))
           (snd (snd (fst (point_sfx cs factor lat lng)))).
Proof.
  intros Hne. destruct cs as [|c cs]; [congruence|].
  cbn [decode_sfx].
  destruct (point_sfx (c :: cs) factor lat lng) as [[pt [lat' lng']] rest].
  reflexivity.
Qed.

(** One round on a string that opens with two closed groups reads exactly
    these two groups. *)
Lemma point_sfx_closed (factor lat lng : float)
    (cs glat r glng r' : jsstring) :
  split_group cs = Some (glat, r) ->
  split_group r = Some (glng, r') ->
  forall rest,
    point_sfx (glat ++ glng ++ rest) factor lat lng
      = (fst (point_sfx cs factor lat lng), rest)
    /\ snd (point_sfx cs factor lat lng) = r'.
Proof.
  intros H1 H2 rest. unfold point_sfx.
  destruct (group_sfx_closed _ _ _ H1 (glng ++ rest) 0%Z 0%Z) as [Ea Ea'].
  rewrite Ea.
  destruct (group_sfx cs 0 0) as [v1 x1]. cbn [fst snd] in *. subst x1.
  destruct (group_sfx_closed _ _ _ H2 rest 0%Z 0%Z) as [Eb Eb'].
  rewrite Eb.
  destruct (group_sfx r 0 0) as [v2 x2]. cbn [fst snd] in *. subst x2.
  split; reflexivity.
Qed.

(** Decoding a string is decoding its whole points, and then at most one
    more point out of what is left. *)
Lemma decode_sfx_split (n : nat) :
  forall (cs : jsstring), (List.length cs <= n)%nat ->
  forall (k m : nat) (factor lat lng : float),
    (List.length cs <= k)%nat ->
    (List.length (fst (split_points n cs)) <= m)%nat ->
    exists extra,
      decode_sfx k cs factor lat lng
        = decode_sfx m (fst (split_points n cs)) factor lat lng ++ extra
      /\ List.length extra
          = match snd (split_points n cs) with [] => 0%nat | _ => 1%nat end.
Proof.
  induction n as [|n IH]; intros cs Hn k m factor lat lng Hk Hm.
  - destruct cs; [|cbn [List.length] in Hn; lia].
    cbn [split_points fst snd]. rewrite !decode_sfx_nil. now exists [].
  - destruct cs as [|c cs].
    { cbn [split_points split_group fst snd]. rewrite !decode_sfx_nil.
      now exists []. }
    destruct k as [|k]; [cbn [List.length] in Hk; lia|].
    cbn [split_points] in *.
    destruct (split_group (c :: cs)) as [[glat r]|] eqn:H1.
    2:{ cbn [fst snd]. rewrite decode_sfx_nil.
        destruct (decode_sfx_short k (c :: cs) factor lat lng) as [pt E];
          [discriminate | now left |].
        exists [pt]. now rewrite E. }
    destruct (split_group r) as [[glng r']|] eqn:H2.
    2:{ cbn [fst snd]. rewrite decode_sfx_nil.
        destruct (decode_sfx_short k (c :: cs) factor lat lng) as [pt E];
          [discriminate | right; eauto |].
        exists [pt]. now rewrite E. }
    destruct (split_points n r') as [w t] eqn:Hsp. cbn [fst snd] in *.
    destruct (split_group_app _ _ _ H1) as [E1 L1].
    destruct (split_group_app _ _ _ H2) as [E2 L2].
    assert (List.length (c :: cs)
            = (List.length glat + List.length glng + List.length r')%nat)
      as Hlen by (rewrite E1, E2, !length_app; lia).
    rewrite !length_app in Hm.
    destruct m as [|m]; [lia|].
    destruct (point_sfx_closed factor lat lng _ _ _ _ _ H1 H2 w) as [Pw _].
    destruct (point_sfx_closed factor lat lng _ _ _ _ _ H1 H2 r') as [_ Pr].
    assert (glat ++ glng ++ w <> []) as Hne.
    { intro El. apply (f_equal (@List.length Z)) in El.
      rewrite !length_app in El. cbn [List.length] in El. lia. }
    rewrite (decode_sfx_step k factor lat lng (c :: cs)) by discriminate.
    rewrite (decode_sfx_step m factor lat lng _ Hne).
    rewrite Pw, Pr. cbn [fst snd].
    destruct (IH r' ltac:(lia) k m factor
                (fst (snd (fst (point_sfx (c :: cs) factor lat lng))))
                (snd (snd (fst (point_sfx (c :: cs) factor lat lng)))))
      as (extra & E & L).
    { lia. }
    { rewrite Hsp. cbn [fst]. lia. }
    rewrite Hsp in E, L. cbn [fst snd] in E, L.
    exists extra. split; [now rewrite E | exact L].
Qed.

(** *** The whole points of a string and its tail *)

Lemma split_points_app (n : nat) :
  forall cs, cs = fst (split_points n cs) ++ snd (split_points n cs).
Proof.
  induction n as [|n IH]; intros cs; cbn [split_points]; [reflexivity|].
  destruct (split_group cs) as [[glat r]|] eqn:H1; [|reflexivity].
  destruct (split_group r) as [[glng r']|] eqn:H2; [|reflexivity].
  specialize (IH r').
  destruct (split_points n r') as [w t]. cbn [fst snd] in *.
  destruct (split_group_app _ _ _ H1) as [-> _].
  destruct (split_group_app _ _ _ H2) as [-> _].
  rewrite <- !app_assoc. now rewrite <- IH.
Qed.

(** The tail holds fewer than two closed groups. *)
Lemma split_points_short (n : nat) :
  forall cs, (List.length cs <= n)%nat ->
    split_group (snd (split_points n cs)) = None
    \/ exists g r, split_group (snd (split_points n cs)) = Some (g, r)
                  /\ split_group r = None.
Proof.
  induction n as [|n IH]; intros cs Hn; cbn [split_points].
  - destruct cs; [now left | cbn [List.length] in Hn; lia].
  - destruct (split_group cs) as [[glat r]|] eqn:H1; [|now left].
    destruct (split_group r) as [[glng r']|] eqn:H2;
      [|right; cbn [snd]; eauto].
    destruct (split_group_app _ _ _ H1) as [E1 L1].
    destruct (split_group_app _ _ _ H2) as [E2 L2].
    assert (List.length r' <= n)%nat as Hr
      by (subst cs r; rewrite !length_app in Hn; lia).
    specialize (IH r' Hr).
    destruct (split_points n r') as [w t]. exact IH.
Qed.

Lemma split_group_closed (cs : jsstring) :
  forall g r, split_group cs = Some (g, r) ->
  forall rest, split_group (g ++ rest) = Some (g, rest).
Proof.
  induction cs as [|c cs IH]; intros g r H rest; cbn [split_group] in H;
    [discriminate|].
  destruct (continues c) eqn:Hc.
  - destruct (split_group cs) as [[g' r']|] eqn:Hs; [|discriminate].
    injection H as <- <-. cbn [app split_group].
    now rewrite Hc, (IH g' r' eq_refl rest).
  - injection H as <- <-. cbn [app split_group]. now rewrite Hc.
Qed.

(** The prefix of whole points is well formed: it has no tail of its own. *)
Lemma split_points_resolved (n : nat) :
  forall cs m, (List.length (fst (split_points n cs)) <= m)%nat ->
    split_points m (fst (split_points n cs))
      = (fst (split_points n cs), []).
Proof.
  induction n as [|n IH]; intros cs m Hm; cbn [split_points] in *.
  - destruct m; reflexivity.
  - destruct (split_group cs) as [[glat r]|] eqn:H1;
      [|destruct m; reflexivity].
    destruct (split_group r) as [[glng r']|] eqn:H2;
      [|destruct m; reflexivity].
    specialize (IH r').
    destruct (split_points n r') as [w t]. cbn [fst snd] in *.
    destruct (split_group_app _ _ _ H1) as [_ L1].
    destruct (split_group_app _ _ _ H2) as [_ L2].
    rewrite !length_app in Hm.
    destruct m as [|m]; [lia|].
    cbn [split_points].
    rewrite (split_group_closed _ _ _ H1 (glng ++ w)).
    rewrite (split_group_closed _ _ _ H2 w).
    rewrite (IH m) by lia. reflexivity.
Qed.

Lemma resolved_dangling (s : jsstring) : s = resolved s ++ dangling s.
Proof. apply split_points_app. Qed.

Lemma resolved_well_formed (s : jsstring) : dangling (resolved s) = [].
Proof.
  unfold dangling, resolved.
  now rewrite split_points_resolved by lia.
Qed.

Lemma dangling_short (s : jsstring) :
  split_group (dangling s) = None
  \/ exists g r, split_group (dangling s) = Some (g, r)
                /\ split_group r = None.
Proof. apply split_points_short. lia. Qed.

(** C5 (as amended).  On every string the decoder returns; on the empty
    string it returns the empty sequence; and what it returns is the
    coordinates of the longest well-formed prefix, followed by no further
    point when nothing is left over and by exactly one further point when a
    truncated tail is left over. *)
Theorem decodePolyline_truncated_tail (s : jsstring) (precision : nat) :
  exists points extra,
    decodePolyline s precision = Some (points ++ extra)
    /\ decodePolyline (resolved s) precision = Some points
    /\ s = resolved s ++ dangling s
    /\ dangling (resolved s) = []
    /\ List.length extra
        = match dangling s with [] => 0%nat | _ => 1%nat end
    /\ decodePolyline [] precision = Some [].
Proof.
  destruct (decode_sfx_split (List.length s) s (le_n _)
              (S (List.length s)) (S (List.length (resolved s)))
              (pow10 precision) 0%float 0%float)
    as (extra & E & L); [lia | unfold resolved; lia |].
  exists (decode_sfx (S (List.length (resolved s))) (resolved s)
            (pow10 precision) 0 0), extra.
  rewrite !decodePolyline_sfx.
  repeat split.
  - now rewrite E.
  - apply resolved_dangling.
  - apply resolved_well_formed.
  - exact L.
Qed.

(** C5, counterexample.  The sample string without its last code unit ends
    in a group whose continuation bit is never closed.  The coordinates
    resolved before the truncation are the first two; the decoder returns
    three. *)
Lemma decodePolyline_truncated_sample_extra :
  resolved truncated_sample = codes "_p~iF~ps|U_ulLnnqC"
  /\ dangling truncated_sample = codes "_mqNvxq`"
  /\ exists p1 p2 p3,
       decodePolyline (resolved truncated_sample) 5 = Some [p1; p2]
       /\ decodePolyline truncated_sample 5 = Some [p1; p2; p3]
       /\ decodePolyline truncated_sample 5
           <> decodePolyline (resolved truncated_sample) 5.
Proof.
  split; [vm_compute; reflexivity|].
  split; [vm_compute; reflexivity|].
  eexists _, _, _.
  split; [vm_compute; reflexivity|].
  split; [vm_compute; reflexivity|].
  vm_compute. discriminate.
Qed.

(** *** The algorithm: groups of five bits and zig-zag *)

Lemma toInt32_small (z : Z) :
  (- 2 ^ 31 <= z < 2 ^ 31)%Z -> JS.toInt32 z = z.
Proof. intros H. unfold JS.toInt32. rewrite Z.mod_small; lia. Qed.

(** Zig-zag: an even value [2n] reads [n], an odd value [2n + 1] reads
    [-n - 1]. *)
Lemma unzigzag_even (n : Z) :
  (0 <= n < 2 ^ 30)%Z -> unzigzag (2 * n) = n.
Proof.
  intros H. unfold unzigzag, JS.sar1.
  rewrite toInt32_small by lia.
  change 1%Z with (Z.ones 1) at 1. rewrite Z.land_ones by lia.
  replace ((2 * n) mod 2 ^ 1)%Z with 0%Z
    by (symmetry; apply Z.mod_divide; [lia | exists n; lia]).
  cbn [Z.eqb]. rewrite Z.shiftr_div_pow2 by lia.
  change (2 ^ 1)%Z with 2%Z. rewrite Z.mul_comm. now apply Z.div_mul.
Qed.

Lemma unzigzag_odd (n : Z) :
  (0 <= n < 2 ^ 30)%Z -> unzigzag (2 * n + 1) = (- n - 1)%Z.
Proof.
  intros H. unfold unzigzag, JS.sar1, JS.not.
  rewrite !toInt32_small by lia.
  change 1%Z with (Z.ones 1) at 2. rewrite Z.land_ones by lia.
  change (2 ^ 1)%Z with 2%Z.
  replace ((2 * n + 1) mod 2)%Z with 1%Z.
  2:{ symmetry. rewrite Z.add_comm, Z.mul_comm, Z_mod_plus_full.
      reflexivity. }
  cbn [Z.eqb]. rewrite Z.shiftr_div_pow2 by lia.
  change (2 ^ 1)%Z with 2%Z.
  replace ((2 * n + 1) / 2)%Z with n.
  2:{ symmetry. rewrite Z.add_comm, Z.mul_comm, Z_div_plus_full by lia.
      reflexivity. }
  rewrite toInt32_small by lia. unfold Z.lnot. lia.
Qed.

(** [b & 0x1f] is [b] modulo 32, whatever the sign of [b]. *)
Lemma and_31 (b : Z) : JS.and (Some b) 31 = (b mod 32)%Z.
Proof.
  assert (forall x, Z.land x 31 = x mod 32)%Z as Hland
    by (intros x; apply (Z.land_ones x 5); lia).
  unfold JS.and, JS.toInt32. rewrite Hland.
  pose proof (Z.div_mod (b + 2 ^ 31) (2 ^ 32) ltac:(lia)) as E.
  set (q := ((b + 2 ^ 31) / 2 ^ 32)%Z) in *.
  set (y := ((b + 2 ^ 31) mod 2 ^ 32)%Z) in *.
  replace (y - 2 ^ 31)%Z with (b + (- 2 ^ 27 * q) * 32)%Z by lia.
  apply Z_mod_plus_full.
Qed.

(** Bits put above the bits of [a]: [|] adds. *)
Lemma lor_above (a b s : Z) :
  (0 <= s)%Z -> (0 <= a < 2 ^ s)%Z -> (0 <= b)%Z ->
  Z.lor a (b * 2 ^ s) = (a + b * 2 ^ s)%Z.
Proof.
  intros Hs Ha Hb.
  assert (Z.land a (b * 2 ^ s) = 0)%Z as Hdisjoint.
  { apply Z.bits_inj'. intros n Hn.
    rewrite Z.land_spec, Z.bits_0.
    destruct (Z.lt_ge_cases n s) as [Hlt|Hge].
    - rewrite Z.mul_pow2_bits_low by lia. apply andb_false_r.
    - destruct (Z.eq_dec a 0) as [->|Hne];
        [now rewrite Z.bits_0|].
      rewrite (Z.bits_above_log2 a n); [reflexivity | lia |].
      apply Z.log2_lt_pow2; try lia.
      apply Z.lt_le_trans with (2 ^ s)%Z; [lia|].
      apply Z.pow_le_mono_r; lia. }
  rewrite <- Z.lxor_lor by exact Hdisjoint.
  symmetry. now apply Z.add_nocarry_lxor.
Qed.

(** One round of the inner loop, at most six rounds deep: the five bits of
    the code unit are added above the bits read so far. *)
Lemma or_shl_chunk (result c : Z) (i : nat) :
  (i <= 5)%nat ->
  (0 <= result < 2 ^ (5 * Z.of_nat i))%Z ->
  JS.or result (JS.shl (JS.and (JS.sub (Some c) 63) 31) (5 * Z.of_nat i))
    = (result + 2 ^ (5 * Z.of_nat i) * ((c - 63) mod 32))%Z.
Proof.
  intros Hi Hr. cbn [JS.sub option_map]. rewrite and_31.
  pose proof (Z.mod_pos_bound (c - 63) 32 ltac:(lia)) as Hc.
  set (chunk := ((c - 63) mod 32)%Z) in *.
  assert (2 ^ (5 * Z.of_nat i) <= 2 ^ 25)%Z as Hpow
    by (apply Z.pow_le_mono_r; lia).
  assert (0 < 2 ^ (5 * Z.of_nat i))%Z as Hpos by (apply Z.pow_pos_nonneg; lia).
  unfold JS.shl, JS.or.
  rewrite (toInt32_small chunk) by lia.
  rewrite Z.mod_small by lia.
  rewrite Z.shiftl_mul_pow2 by lia.
  assert (0 <= chunk * 2 ^ (5 * Z.of_nat i) < 2 ^ 30)%Z as Hx.
  { change (2 ^ 30)%Z with (32 * 2 ^ 25)%Z. nia. }
  rewrite !(toInt32_small (chunk * 2 ^ (5 * Z.of_nat i))) by lia.
  rewrite (toInt32_small result) by lia.
  rewrite lor_above by lia. lia.
Qed.

(** A closed group of at most six code units spells its [chunks_value]. *)
Lemma group_sfx_chunks (g : jsstring) :
  forall (i : nat) (result : Z),
    split_group g = Some (g, []) ->
    (i + List.length g <= 6)%nat ->
    (0 <= result < 2 ^ (5 * Z.of_nat i))%Z ->
    fst (group_sfx g (5 * Z.of_nat i) result)
      = (result + 2 ^ (5 * Z.of_nat i) * chunks_value g)%Z.
Proof.
  induction g as [|c g IH]; intros i result Hg Hlen Hr;
    [discriminate|].
  cbn [List.length] in Hlen.
  cbn [group_sfx chunks_value]. rewrite or_shl_chunk by lia.
  cbn [split_group] in Hg. unfold continues in Hg.
  pose proof (Z.mod_pos_bound (c - 63) 32 ltac:(lia)) as Hc.
  assert (0 < 2 ^ (5 * Z.of_nat i))%Z as Hpos by (apply Z.pow_pos_nonneg; lia).
  destruct (JS.ge (JS.sub (Some c) 63) 32).
  - destruct (split_group g) as [[g' r']|] eqn:Hs; [|discriminate].
    injection Hg as -> ->.
    replace (5 * Z.of_nat i + 5)%Z with (5 * Z.of_nat (S i))%Z by lia.
    rewrite IH; try reflexivity; try lia.
    + replace (2 ^ (5 * Z.of_nat (S i)))%Z
        with (2 ^ (5 * Z.of_nat i) * 32)%Z; [lia|].
      replace (5 * Z.of_nat (S i))%Z with (5 * Z.of_nat i + 5)%Z by lia.
      rewrite Z.pow_add_r by lia. reflexivity.
    + replace (5 * Z.of_nat (S i))%Z with (5 * Z.of_nat i + 5)%Z by lia.
      rewrite Z.pow_add_r by lia. change (2 ^ 5)%Z with 32%Z. nia.
  - injection Hg as <-. cbn [fst chunks_value]. lia.
Qed.

(** The inner loop of the source, at a closed group of at most six code
    units: it returns what the group spells and stops behind the group. *)
Lemma read_group_chunks (encoded g rest : jsstring) (index : nat) :
  skipn index encoded = g ++ rest ->
  split_group g = Some (g, []) ->
  (List.length g <= 6)%nat ->
  exists index',
    read_group (S (List.length encoded)) encoded index 0 0
      = Some (index', chunks_value g)
    /\ skipn index' encoded = rest.
Proof.
  intros Hskip Hg Hlen.
  destruct (read_group_sfx (S (List.length encoded)) encoded index 0%Z 0%Z)
    as (index' & H1 & H2 & _); [lia|].
  rewrite Hskip in H1, H2.
  destruct (group_sfx_closed g g [] Hg rest 0%Z 0%Z) as [E _].
  rewrite E in H1, H2. cbn [fst snd] in H1, H2.
  pose proof (group_sfx_chunks g 0 0%Z Hg ltac:(lia) ltac:(cbn; lia)) as V.
  cbn in V. rewrite V in H1.
  exists index'. split; [|exact H2].
  rewrite H1. do 2 f_equal.
  destruct (chunks_value g); reflexivity.
Qed.

(** C6.  At precision 5 the sample string decodes to exactly three points,
    within 0.001 degrees of (38.5, -120.2), (40.7, -120.95) and
    (43.252, -126.453).  The algorithm shows in the values on the way: the
    string holds six groups (the first one of five code units, which spell
    7700000, five bits each after the bias of 63 is taken off); their
    zig-zag readings are the deltas of latitude and longitude in turn; and
    the points are the running sums of the deltas from (0, 0), divided by
    10^5. *)
Theorem decodePolyline_sample :
  exists p1 p2 p3,
    decodePolyline sample 5 = Some [p1; p2; p3]
    /\ within_1e3 p1 (38.5, -120.2)%float
    /\ within_1e3 p2 (40.7, -120.95)%float
    /\ within_1e3 p3 (43.252, -126.453)%float
    /\ read_group (S (List.length sample)) sample 0 0 0
        = Some (5%nat, 7700000%Z)
    /\ chunks_value (firstn 5 sample) = 7700000%Z
    /\ group_values (List.length sample) sample 0
        = [7700000; 24039999; 440000; 149999; 510400; 1100599]%Z
    /\ map unzigzag [7700000; 24039999; 440000; 149999; 510400; 1100599]%Z
        = [3850000; -12020000; 220000; -75000; 255200; -550300]%Z
    /\ p1 = (PrimFloat.div (JS.float_of_Z 3850000) (pow10 5),
             PrimFloat.div (JS.float_of_Z (-12020000)) (pow10 5))
    /\ p2 = (PrimFloat.div (JS.float_of_Z (3850000 + 220000)) (pow10 5),
             PrimFloat.div (JS.float_of_Z (-12020000 - 75000)) (pow10 5))
    /\ p3 = (PrimFloat.div (JS.float_of_Z (4070000 + 255200)) (pow10 5),
             PrimFloat.div (JS.float_of_Z (-12095000 - 550300)) (pow10 5)).
Proof.
  eexists _, _, _.
  split; [vm_compute; reflexivity|].
  unfold within_1e3.
  repeat match goal with |- _ /\ _ => split end; vm_compute; reflexivity.
Qed.

End PolylineFacts.

(* ================================================================== *)
(** ** Proofs: the routing page *)
(* ================================================================== *)

Module RoutingFacts.

Import Routing.
Open Scope string_scope.
Open Scope list_scope.
Open Scope Z_scope.

(** *** What a round of effects does to the state

    The conditions of the effects read the two renders only, so the state
    after a round of effects is a function of the state before it. *)

Ltac split_ifs :=
  repeat match goal with
         | |- context [if ?b then _ else _] => destruct b eqn:?
         end.

(** Each effect, field by field of the world. *)

Lemma effect_debounce_frame (old new : State) (w : World) :
  let w' := effect_debounce old new w in
  st w' = (if debounce_resets old new
           then set_showNotification false
                  (set_event EmptyString (set_simulatedEvent None (st w)))
           else st w)
  /\ inflight w' = inflight w /\ poll w' = poll w /\ sim w' = sim w
  /\ resets w' = resets w /\ now w' = now w /\ next_addr w' = next_addr w.
Proof.
  unfold effect_debounce, debounce_resets, set.
  destruct (endpoints_changed old new); cbn [andb];
    [destruct (truthy (source new) && truthy (destination new))|];
    cbn; repeat split; reflexivity.
Qed.

Lemma effect_poll_frame (old new : State) (w : World) :
  let w' := effect_poll old new w in
  st w' = st w /\ inflight w' = inflight w /\ debounce w' = debounce w
  /\ sim w' = sim w /\ resets w' = resets w /\ now w' = now w
  /\ next_addr w' = next_addr w.
Proof.
  unfold effect_poll. split_ifs; cbn; repeat split; reflexivity.
Qed.

Lemma effect_reset_flag_frame (old new : State) (w : World) :
  let w' := effect_reset_flag old new w in
  st w' = (if endpoints_changed old new
           then set_hasSimulatedThisSession false (st w)
           else st w)
  /\ inflight w' = inflight w /\ debounce w' = debounce w
  /\ poll w' = poll w /\ sim w' = sim w
  /\ resets w' = resets w /\ now w' = now w /\ next_addr w' = next_addr w.
Proof.
  unfold effect_reset_flag, set. split_ifs; cbn; repeat split; reflexivity.
Qed.

Lemma effect_simulation_frame (old new : State) (w : World) :
  let w' := effect_simulation old new w in
  st w' = st w /\ inflight w' = inflight w /\ debounce w' = debounce w
  /\ poll w' = poll w
  /\ sim w' = (if simulation_deps_changed old new
               then if simulation_ready new
                    then Some (now w + 10000, new) else None
               else sim w)
  /\ resets w' = resets w /\ now w' = now w /\ next_addr w' = next_addr w.
Proof.
  unfold effect_simulation. split_ifs; cbn; repeat split; reflexivity.
Qed.

Lemma effect_event_frame (old new : State) (w : World) :
  let w' := effect_event old new w in
  st w' = (if event_recalculates old new
           then set_activeStepIndex None
                  (set_error None (set_loading true (st w)))
           else st w)
  /\ inflight w'
     = inflight w
       ++ (if event_recalculates old new then [mkRequest new None] else [])
  /\ debounce w' = debounce w /\ poll w' = poll w /\ sim w' = sim w
  /\ resets w' = resets w /\ now w' = now w /\ next_addr w' = next_addr w.
Proof.
  unfold effect_event, event_recalculates, handleSubmit, set.
  destruct (negb (String.eqb (event old) (event new))); cbn [andb];
    [destruct (truthy (event new) && has_result new
               && negb (has_simulatedEvent new))|];
    cbn; rewrite ?app_nil_r; repeat split; reflexivity.
Qed.

(** A round of effects, field by field. *)
Lemma run_effects_frame (old new : State) (w : World) :
  let w' := run_effects old new w in
  st w' = effects_state old new (st w)
  /\ inflight w'
     = inflight w
       ++ (if event_recalculates old new then [mkRequest new None] else [])
  /\ sim w' = (if simulation_deps_changed old new
               then if simulation_ready new
                    then Some (now w + 10000, new) else None
               else sim w)
  /\ resets w' = resets w /\ now w' = now w /\ next_addr w' = next_addr w.
Proof.
  unfold run_effects, effects_state.
  destruct (effect_debounce_frame old new w)
    as (A1 & A2 & _ & A4 & A5 & A6 & A7).
  set (w1 := effect_debounce old new w) in *.
  destruct (effect_poll_frame old new w1)
    as (B1 & B2 & _ & B4 & B5 & B6 & B7).
  set (w2 := effect_poll old new w1) in *.
  destruct (effect_reset_flag_frame old new w2)
    as (C1 & C2 & _ & _ & C4 & C5 & C6 & C7).
  set (w3 := effect_reset_flag old new w2) in *.
  destruct (effect_simulation_frame old new w3)
    as (D1 & D2 & _ & _ & D4 & D5 & D6 & D7).
  set (w4 := effect_simulation old new w3) in *.
  destruct (effect_event_frame old new w4)
    as (E1 & E2 & _ & _ & E4 & E5 & E6 & E7).
  set (w5 := effect_event old new w4) in *.
  cbv zeta in *.
  repeat split.
  - rewrite E1, D1, C1, B1, A1. reflexivity.
  - rewrite E2, D2, C2, B2, A2. reflexivity.
  - rewrite E4, D4, C6, B6, A6, C4, B4, A4. reflexivity.
  - congruence.
  - congruence.
  - congruence.
Qed.

Lemma st_run_effects (old new : State) (w : World) :
  st (run_effects old new w) = effects_state old new (st w).
Proof. apply run_effects_frame. Qed.

(** [effects_state] touches neither the inputs nor the results. *)
Lemma effects_state_frame (old new s : State) :
  let s' := effects_state old new s in
  source s' = source s /\ destination s' = destination s
  /\ result s' = result s /\ previousResult s' = previousResult s
  /\ isRerouting s' = isRerouting s /\ etaChanged s' = etaChanged s
  /\ distanceChanged s' = distanceChanged s
  /\ isLiveEnabled s' = isLiveEnabled s
  /\ event s' = (if debounce_resets old new then EmptyString else event s)
  /\ showNotification s'
     = (if debounce_resets old new then false else showNotification s)
  /\ hasSimulatedThisSession s'
     = (if endpoints_changed old new then false
        else hasSimulatedThisSession s).
Proof.
  unfold effects_state.
  destruct (debounce_resets old new); destruct (endpoints_changed old new);
    destruct (event_recalculates old new); cbn; repeat split; reflexivity.
Qed.

Lemma endpoints_changed_same (s s' : State) :
  source s' = source s -> destination s' = destination s ->
  endpoints_changed s s' = false.
Proof.
  intros Hs Hd. unfold endpoints_changed.
  now rewrite Hs, Hd, !String.eqb_refl.
Qed.

(** With the inputs and [event] as they were, a round of effects leaves the
    state alone. *)
Lemma effects_state_quiet (old new s : State) :
  source new = source old -> destination new = destination old ->
  event new = event old ->
  effects_state old new s = s.
Proof.
  intros Hs Hd He. unfold effects_state, debounce_resets, event_recalculates.
  rewrite (endpoints_changed_same old new Hs Hd), He, String.eqb_refl.
  reflexivity.
Qed.

(** The second round of effects calls no setter. *)
Lemma effects_state_settled (old new : State) :
  let s1 := effects_state old new new in
  effects_state new s1 s1 = s1
  /\ event_recalculates new s1 = false.
Proof.
  cbv zeta.
  destruct (effects_state_frame old new new)
    as (Hs & Hd & _ & _ & _ & _ & _ & _ & He & _).
  cbv zeta in *.
  set (s1 := effects_state old new new) in *.
  assert (event_recalculates new s1 = false) as Hrec.
  { unfold event_recalculates. rewrite He.
    destruct (debounce_resets old new).
    - cbn. now rewrite andb_false_r.
    - now rewrite String.eqb_refl. }
  split; [|exact Hrec].
  unfold effects_state, debounce_resets.
  now rewrite (endpoints_changed_same new s1 Hs Hd), Hrec.
Qed.

(** What [commit] does, field by field. *)
Lemma commit_frame (old : State) (w : World) :
  let w' := commit old w in
  st w' = effects_state old (st w) (st w)
  /\ inflight w'
     = inflight w
       ++ (if event_recalculates old (st w)
           then [mkRequest (st w) None] else [])
  /\ sim w'
     = (let s1 := effects_state old (st w) (st w) in
        if simulation_deps_changed (st w) s1
        then if simulation_ready s1 then Some (now w + 10000, s1) else None
        else if simulation_deps_changed old (st w)
             then if simulation_ready (st w)
                  then Some (now w + 10000, st w) else None
             else sim w)
  /\ resets w' = resets w /\ now w' = now w /\ next_addr w' = next_addr w.
Proof.
  unfold commit.
  destruct (run_effects_frame old (st w) w) as (A1 & A2 & A3 & A4 & A5 & A6).
  set (w1 := run_effects old (st w) w) in *.
  destruct (run_effects_frame (st w) (st w1) w1)
    as (B1 & B2 & B3 & B4 & B5 & B6).
  cbv zeta in *.
  destruct (effects_state_settled old (st w)) as (S1 & S2).
  cbv zeta in *. rewrite <- A1 in S1, S2.
  repeat split.
  - rewrite B1, S1. exact A1.
  - rewrite B2, S2, app_nil_r. exact A2.
  - rewrite B3, A3, A5, <- A1. reflexivity.
  - congruence.
  - congruence.
  - congruence.
Qed.

(** [commit_settled]: after [commit] the state is the one the last render
    was made with, so a third render would find nothing changed. *)
Lemma commit_settled (old : State) (w : World) :
  st (commit old w) = st (run_effects old (st w) w).
Proof.
  destruct (commit_frame old w) as (A & _).
  destruct (run_effects_frame old (st w) w) as (B & _).
  cbv zeta in *. congruence.
Qed.

(** A handler that leaves the inputs and [event] alone is followed by
    effects that set no state and post no request. *)
Lemma commit_quiet (old : State) (w : World) :
  source (st w) = source old -> destination (st w) = destination old ->
  event (st w) = event old ->
  st (commit old w) = st w /\ inflight (commit old w) = inflight w
  /\ resets (commit old w) = resets w /\ now (commit old w) = now w
  /\ next_addr (commit old w) = next_addr w.
Proof.
  intros Hs Hd He.
  destruct (commit_frame old w) as (A1 & A2 & _ & A4 & A5 & A6).
  cbv zeta in *.
  rewrite (effects_state_quiet old (st w) (st w) Hs Hd He) in A1.
  unfold event_recalculates in A2.
  rewrite He, String.eqb_refl in A2. cbn in A2. rewrite app_nil_r in A2.
  repeat split; assumption.
Qed.

(** *** What the handlers do *)


Lemma detect_rerouting_frame (p : option (obj RouteResult))
    (d : RouteResult) (w : World) :
  let w' := detect_rerouting p d w in
  isRerouting (st w') = isRerouting (st w) || reroute_detected p d
  /\ etaChanged (st w')
     = etaChanged (st w) || (reroute_detected p d && eta_differs p d)
  /\ distanceChanged (st w')
     = distanceChanged (st w)
       || (reroute_detected p d && distance_differs p d)
  /\ resets w' = resets w ++ detect_timers p d (now w)
  /\ (source (st w') = source (st w)
      /\ destination (st w') = destination (st w)
      /\ event (st w') = event (st w)
      /\ loading (st w') = loading (st w)
      /\ result (st w') = result (st w)
      /\ error (st w') = error (st w)
      /\ isSidebarOpen (st w') = isSidebarOpen (st w)
      /\ activeStepIndex (st w') = activeStepIndex (st w)
      /\ isLiveEnabled (st w') = isLiveEnabled (st w)
      /\ lastCalculated (st w') = lastCalculated (st w)
      /\ simulatedEvent (st w') = simulatedEvent (st w)
      /\ showNotification (st w') = showNotification (st w)
      /\ previousResult (st w') = previousResult (st w)
      /\ hasSimulatedThisSession (st w')
         = hasSimulatedThisSession (st w))
  /\ inflight w' = inflight w /\ debounce w' = debounce w
  /\ poll w' = poll w /\ sim w' = sim w /\ now w' = now w
  /\ next_addr w' = next_addr w.
Proof.
  unfold detect_rerouting, detect_timers, reroute_detected, eta_differs,
    distance_differs.
  destruct p as [prev|]; cbn [andb].
  - destruct (strict_neq (geometry (val prev)) (geometry d)); cbn [andb].
    + unfold when, set, setTimeout_reset.
      destruct (JS.float_neq (duration_minutes (val prev))
                  (duration_minutes d));
        destruct (JS.float_neq (distance_km (val prev)) (distance_km d));
        cbn; rewrite ?orb_true_r, ?orb_false_r, <- ?app_assoc;
        repeat split; reflexivity.
    + cbn. rewrite ?orb_false_r, ?app_nil_r. repeat split; reflexivity.
  - cbn. rewrite ?orb_false_r, ?app_nil_r. repeat split; reflexivity.
Qed.

(** A response that arrives with data. *)
Lemma resumed_success_frame (req : Request) (data : RouteResult) (w : World) :
  let w' := handleSubmit_resumed req (Success data) w in
  let p := previousResult (closure req) in
  result (st w') = Some (Obj (next_addr w) data)
  /\ previousResult (st w') = Some (Obj (next_addr w) data)
  /\ loading (st w') = false
  /\ isRerouting (st w') = isRerouting (st w) || reroute_detected p data
  /\ etaChanged (st w')
     = etaChanged (st w) || (reroute_detected p data && eta_differs p data)
  /\ distanceChanged (st w')
     = distanceChanged (st w)
       || (reroute_detected p data && distance_differs p data)
  /\ resets w' = resets w ++ detect_timers p data (now w)
  /\ (source (st w') = source (st w)
      /\ destination (st w') = destination (st w)
      /\ event (st w') = event (st w)
      /\ error (st w') = error (st w)
      /\ activeStepIndex (st w') = activeStepIndex (st w)
      /\ isLiveEnabled (st w') = isLiveEnabled (st w)
      /\ simulatedEvent (st w') = simulatedEvent (st w)
      /\ showNotification (st w') = showNotification (st w)
      /\ hasSimulatedThisSession (st w')
         = hasSimulatedThisSession (st w))
  /\ inflight w' = inflight w /\ debounce w' = debounce w
  /\ poll w' = poll w /\ sim w' = sim w /\ now w' = now w.
Proof.
  cbv zeta. unfold handleSubmit_resumed, alloc.
  set (w1 := set set_isSidebarOpen true _).
  destruct (detect_rerouting_frame (previousResult (closure req)) data w1)
    as (D1 & D2 & D3 & D4 & (F1 & F2 & F3 & F4 & F5 & F6 & F7 & F8 & F9
          & F10 & F11 & F12 & F13 & F14) & D5 & D6 & D7 & D8 & D9 & D10).
  cbv zeta in *.
  set (w2 := detect_rerouting _ data w1) in *.
  unfold set, with_st. cbn.
  rewrite D1, D2, D3, D4, F1, F2, F3, F5, F6, F8, F9, F11, F12, F14,
    D5, D6, D7, D8, D9.
  subst w1. cbn. repeat split; reflexivity.
Qed.

(** A response that arrives as an error: the message and the loading flag
    are set, and nothing else. *)
Lemma resumed_failure_eq (req : Request) (detail : option string)
    (w : World) :
  handleSubmit_resumed req (Failure detail) w
    = with_st (set_loading false
                 (set_error (Some (error_text detail)) (st w))) w.
Proof. reflexivity. Qed.

(** *** A response arrives *)

Lemma step_resolve_inv (w w' : World) (k : nat) (resp : Response) :
  step w (Resolve k resp) = Some w' ->
  exists req,
    nth_error (inflight w) k = Some req
    /\ w' = commit (st w)
              (handleSubmit_resumed req resp
                 (with_inflight (remove_nth k (inflight w)) w)).
Proof.
  unfold step, handler.
  destruct (nth_error (inflight w) k) as [req|]; [|discriminate].
  cbn [option_map]. intros [= <-]. eauto.
Qed.

Lemma step_resolve_success (w w' : World) (k : nat) (data : RouteResult) :
  step w (Resolve k (Success data)) = Some w' ->
  exists req,
    nth_error (inflight w) k = Some req
    /\ let p := previousResult (closure req) in
       result (st w') = Some (Obj (next_addr w) data)
       /\ previousResult (st w') = Some (Obj (next_addr w) data)
       /\ loading (st w') = false
       /\ isRerouting (st w') = isRerouting (st w) || reroute_detected p data
       /\ etaChanged (st w')
          = etaChanged (st w)
            || (reroute_detected p data && eta_differs p data)
       /\ distanceChanged (st w')
          = distanceChanged (st w)
            || (reroute_detected p data && distance_differs p data)
       /\ resets w' = resets w ++ detect_timers p data (now w)
       /\ (source (st w') = source (st w)
           /\ destination (st w') = destination (st w)
           /\ event (st w') = event (st w)
           /\ error (st w') = error (st w)
           /\ activeStepIndex (st w') = activeStepIndex (st w)
           /\ isLiveEnabled (st w') = isLiveEnabled (st w)
           /\ simulatedEvent (st w') = simulatedEvent (st w)
           /\ showNotification (st w') = showNotification (st w)
           /\ hasSimulatedThisSession (st w')
              = hasSimulatedThisSession (st w))
       /\ inflight w' = remove_nth k (inflight w)
       /\ now w' = now w.
Proof.
  intros H. destruct (step_resolve_inv _ _ _ _ H) as (req & Hreq & ->).
  exists req. split; [exact Hreq|].
  set (w0 := with_inflight (remove_nth k (inflight w)) w).
  destruct (resumed_success_frame req data w0)
    as (R1 & R2 & R3 & R4 & R5 & R6 & R7
        & (F1 & F2 & F3 & F4 & F5 & F6 & F7 & F8 & F9)
        & R8 & _ & _ & _ & R9).
  cbv zeta in *.
  set (w1 := handleSubmit_resumed req (Success data) w0) in *.
  destruct (commit_quiet (st w) w1 F1 F2 F3) as (Q1 & Q2 & Q3 & Q4 & _).
  rewrite Q1, Q2, Q3, Q4.
  repeat split; assumption.
Qed.

Lemma step_resolve_failure (w w' : World) (k : nat)
    (detail : option string) :
  step w (Resolve k (Failure detail)) = Some w' ->
  exists req,
    nth_error (inflight w) k = Some req
    /\ st w' = set_loading false
                 (set_error (Some (error_text detail)) (st w))
    /\ inflight w' = remove_nth k (inflight w)
    /\ resets w' = resets w
    /\ now w' = now w.
Proof.
  intros H. destruct (step_resolve_inv _ _ _ _ H) as (req & Hreq & ->).
  exists req. split; [exact Hreq|].
  rewrite resumed_failure_eq.
  set (w1 := with_st _ _).
  destruct (commit_quiet (st w) w1) as (Q1 & Q2 & Q3 & Q4 & _);
    try reflexivity.
  rewrite Q1, Q2, Q3, Q4. repeat split; reflexivity.
Qed.


Lemma strict_neq_spec (a b : strfield) : strict_neq a b = true <-> a <> b.
Proof.
  destruct a as [| |s], b as [| |t]; cbn; split; intros H;
    try congruence; try discriminate.
  - apply negb_true_iff, String.eqb_neq in H. congruence.
  - apply negb_true_iff, String.eqb_neq. congruence.
Qed.


(** Splits a conjunction of closed facts and evaluates each. *)
Ltac evaluate :=
  cbv zeta;
  repeat match goal with |- _ /\ _ => split end;
  try (vm_compute; reflexivity).

(** *** Responses and the displayed result *)

(** C1 (as amended).  The page keeps no token and compares none: a response
    with data replaces the displayed result when it arrives, whichever
    request in flight it answers and whatever was posted after that request;
    a response that is an error leaves the displayed result as it is. *)
Theorem response_applied_on_arrival (w w' : World) (k : nat)
    (resp : Response) :
  step w (Resolve k resp) = Some w' ->
  shown w' = match resp with
             | Success data => Some data
             | Failure _ => shown w
             end.
Proof.
  destruct resp as [data|detail]; intros H; unfold shown.
  - destruct (step_resolve_success _ _ _ _ H) as (req & _ & R & _).
    now rewrite R.
  - destruct (step_resolve_failure _ _ _ _ H) as (req & _ & R & _).
    now rewrite R.
Qed.

(** C1, witness: the first request is answered after the second. *)
Lemma response_applied_on_arrival_witness :
  shown (Scenario.after
           (Scenario.second_answered_first
            ++ [Resolve 0 (Success Scenario.route_AB)]))
    = Some Scenario.route_AB.
Proof.
  apply (response_applied_on_arrival
           (Scenario.after Scenario.second_answered_first) _ 0
           (Success Scenario.route_AB)).
  vm_compute. reflexivity.
Defined.

(** C1, counterexample.  Request A (from A to B) is posted, then request B
    (from A to C); B is answered and its route is displayed; then A is
    answered, and its route replaces the one of B: the page ends up
    displaying the route to B for the destination C. *)
Lemma stale_response_overwrites :
  let posted :=
    Scenario.after
      (Scenario.first_request
       ++ [EditDestination "C"; Elapse 2500; DebounceFire]) in
  let wB := Scenario.after Scenario.second_answered_first in
  let late := Scenario.second_answered_first
              ++ [Resolve 0 (Success Scenario.route_AB)] in
  map (fun r => p_destination (payload_of r)) (inflight posted) = ["B"; "C"]
  /\ shown wB = Some Scenario.route_AC
  /\ step wB (Resolve 0 (Success Scenario.route_AB))
     = Some (Scenario.after late)
  /\ run initial late = Some (Scenario.after late)
  /\ shown (Scenario.after late) = Some Scenario.route_AB
  /\ destination (st (Scenario.after late)) = "C"
  /\ shown (Scenario.after late) <> shown wB.
Proof.
  evaluate. vm_compute. discriminate.
Qed.




(** C9.  When a request fails, the error text is the detail of the error if
    there is one (an empty detail counts as none, by [||]) and the fallback
    text otherwise, and the displayed result is kept. *)
Theorem failure_keeps_route (w w' : World) (k : nat)
    (detail : option string) (r : RouteResult) :
  shown w = Some r ->
  step w (Resolve k (Failure detail)) = Some w' ->
  error (st w')
    = Some match detail with
           | Some d => if String.eqb d EmptyString
                       then "Failed to get route suggestion" else d
           | None => "Failed to get route suggestion"
           end
  /\ result (st w') = result (st w)
  /\ shown w' = Some r.
Proof.
  intros Hr H.
  destruct (step_resolve_failure _ _ _ _ H) as (req & _ & R & _).
  unfold shown in *. rewrite R. cbn. repeat split; assumption.
Qed.

(** C9, witness: a request fails while [route_AB] is displayed. *)
Lemma failure_keeps_route_witness :
  let w := Scenario.after (Scenario.first_route ++ [Submit]) in
  let w' := Scenario.after (Scenario.failed_again (Some "Backend down")) in
  error (st w') = Some "Backend down"
  /\ result (st w') = result (st w)
  /\ shown w' = Some Scenario.route_AB.
Proof.
  cbv zeta.
  apply (failure_keeps_route
           (Scenario.after (Scenario.first_route ++ [Submit]))
           (Scenario.after (Scenario.failed_again (Some "Backend down")))
           0 (Some "Backend down") Scenario.route_AB).
  - vm_compute. reflexivity.
  - vm_compute. reflexivity.
Defined.



(** *** Every handler, on the fields the invariants speak about *)

Ltac break_hyp H :=
  repeat match type of H with
         | context [match ?x with _ => _ end] => destruct x eqn:?
         end.

Ltac break_goal :=
  repeat match goal with
         | |- context [match ?x with _ => _ end] => destruct x eqn:?
         end.

Lemma handler_frame (w w0 : World) (e : Event) :
  handler w e = Some w0 ->
  source (st w0)
    = match e with EditSource text => text | _ => source (st w) end
  /\ destination (st w0)
     = match e with
       | EditDestination text => text
       | _ => destination (st w)
       end
  /\ hasSimulatedThisSession (st w0)
     = match e with
       | SimFire _ _ => true
       | _ => hasSimulatedThisSession (st w)
       end
  /\ sim w0 = match e with SimFire _ _ => None | _ => sim w end
  /\ showNotification (st w0)
     = match e with
       | DismissNotification => false
       | SimFire u1 _ => located w u1 || showNotification (st w)
       | _ => showNotification (st w)
       end
  /\ match e with
     | Resolve _ (Success data) =>
         result (st w0) = Some (Obj (next_addr w) data)
         /\ previousResult (st w0) = Some (Obj (next_addr w) data)
     | _ =>
         result (st w0) = result (st w)
         /\ previousResult (st w0) = previousResult (st w)
     end.
Proof.
  intros H.
  destruct e; try destruct resp; unfold handler in H; break_hyp H;
    try discriminate H; injection H as <-; cbv beta iota.
  all: unfold when, debounced, polled, simulate, clear_flag, located, alloc.
  all: try match goal with
           | E : sim _ = Some _ |- _ => rewrite E
           end.
  all: break_goal; cbn; repeat split;
    try reflexivity; try assumption; try discriminate; try congruence.
  all: match goal with
       | |- context [detect_rerouting ?p ?d ?w1] =>
           destruct (detect_rerouting_frame p d w1)
             as (_ & _ & _ & _
                 & (F1 & F2 & _ & _ & F5 & _ & _ & _ & _ & _ & _ & F12
                    & _ & F14)
                 & _ & _ & _ & D8 & _);
           cbv zeta in *;
           rewrite ?F1, ?F2, ?F5, ?F12, ?F14, ?D8; reflexivity
       end.
Qed.

(** *** Steps and traces *)

Lemma step_inv (w w' : World) (e : Event) :
  step w e = Some w' ->
  exists w0, handler w e = Some w0 /\ w' = commit (st w) w0.
Proof.
  unfold step. destruct (handler w e) as [w0|]; [|discriminate].
  cbn. intros [= <-]. eauto.
Qed.

(** An invariant of the steps holds along every trace. *)
Lemma run_invariant (P : World -> Prop) :
  (forall w e w', P w -> step w e = Some w' -> P w') ->
  forall trace w w', P w -> run w trace = Some w' -> P w'.
Proof.
  intros Hstep. induction trace as [|e trace IH]; intros w w' HP Hrun.
  - cbn in Hrun. now injection Hrun as <-.
  - cbn in Hrun. destruct (step w e) as [w1|] eqn:E; [|discriminate].
    eapply IH; [|exact Hrun]. eapply Hstep; eauto.
Qed.

Lemma run_app (t1 t2 : list Event) (w : World) :
  run w (t1 ++ t2)
    = match run w t1 with Some w1 => run w1 t2 | None => None end.
Proof.
  revert w. induction t1 as [|e t1 IH]; intros w; cbn; [reflexivity|].
  destruct (step w e); [apply IH | reflexivity].
Qed.

(** A step that is not an edit of an input leaves the inputs alone. *)
Lemma handler_endpoints (w w0 : World) (e : Event) :
  handler w e = Some w0 -> is_edit e = false ->
  endpoints_changed (st w) (st w0) = false.
Proof.
  intros H He. destruct (handler_frame _ _ _ H) as (Hs & Hd & _).
  apply endpoints_changed_same; destruct e; try discriminate; assumption.
Qed.

(** *** The previous result *)

Lemma step_previous_result (w w' : World) (e : Event) :
  previousResult (st w) = result (st w) ->
  step w e = Some w' ->
  previousResult (st w') = result (st w').
Proof.
  intros HP H. destruct (step_inv _ _ _ H) as (w0 & H0 & ->).
  destruct (commit_frame (st w) w0) as (C & _). cbv zeta in C. rewrite C.
  destruct (effects_state_frame (st w) (st w0) (st w0))
    as (_ & _ & Er & Ep & _).
  cbv zeta in *. rewrite Er, Ep.
  destruct (handler_frame _ _ _ H0) as (_ & _ & _ & _ & _ & R).
  destruct e; try destruct resp; destruct R as [R1 R2]; congruence.
Qed.

(** How far the defect of line 95 reaches: at every point of the session
    [previousResult] holds the very object that [result] holds, the result
    applied last, or nothing if none has been applied yet.  It never holds
    the result displayed before, which is what the render reads it for. *)
Theorem previous_result_is_current (trace : list Event) (w : World) :
  run initial trace = Some w ->
  previousResult (st w) = result (st w).
Proof.
  apply (run_invariant (fun w => previousResult (st w) = result (st w))).
  - intros w0 e w' HP H. now apply (step_previous_result w0 w' e).
  - reflexivity.
Qed.

(** For instance after the first detour. *)
Lemma previous_result_is_current_witness :
  previousResult (st (Scenario.after Scenario.first_detour))
    = result (st (Scenario.after Scenario.first_detour)).
Proof.
  apply (previous_result_is_current Scenario.first_detour).
  vm_compute. reflexivity.
Defined.

(** C4, a defect of the code.  The render reads [previousResult] as the
    result displayed before the current one (the deltas of distance and
    duration, the Faster and Slower chips), as the claim says; line 95
    stores the new result in it, in the same batch as [setResult].  On the
    session [first_detour]: when the first result is applied nothing was
    displayed before it, and yet the previous result is not empty; when the
    detour is applied, [route_AB] was displayed immediately before it, and
    the previous result is the detour itself. *)
Lemma previous_result_is_not_the_one_before :
  let before_first := Scenario.after Scenario.first_request in
  let first := Scenario.after Scenario.first_route in
  let before_detour :=
    Scenario.after
      (Scenario.first_route ++ [SelectEvent "Road Closure"; Elapse 1000]) in
  let detour := Scenario.after Scenario.first_detour in
  shown before_first = None
  /\ step before_first (Resolve 0 (Success Scenario.route_AB)) = Some first
  /\ option_map val (previousResult (st first)) = Some Scenario.route_AB
  /\ shown before_detour = Some Scenario.route_AB
  /\ step before_detour (Resolve 0 (Success Scenario.route_detour))
     = Some detour
  /\ option_map val (previousResult (st detour))
     = Some Scenario.route_detour
  /\ run initial Scenario.first_detour = Some detour.
Proof. evaluate. Qed.

(** *** The notification *)

Lemma step_showNotification (w w' : World) (e : Event) :
  step w e = Some w' ->
  showNotification (st w')
    = if is_edit e
      then if debounce_resets (st w)
                (match e with
                 | EditSource text => set_source text (st w)
                 | EditDestination text => set_destination text (st w)
                 | _ => st w
                 end)
           then false else showNotification (st w)
      else match e with
           | DismissNotification => false
           | SimFire u1 _ => located w u1 || showNotification (st w)
           | _ => showNotification (st w)
           end.
Proof.
  intros H. destruct (step_inv _ _ _ H) as (w0 & H0 & ->).
  destruct (commit_frame (st w) w0) as (C & _). cbv zeta in C. rewrite C.
  destruct (effects_state_frame (st w) (st w0) (st w0))
    as (_ & _ & _ & _ & _ & _ & _ & _ & _ & En & _).
  cbv zeta in En. rewrite En.
  destruct (is_edit e) eqn:Hedit.
  - destruct e; try discriminate; cbn in H0; injection H0 as <-;
      reflexivity.
  - unfold debounce_resets.
    rewrite (handler_endpoints _ _ _ H0 Hedit). cbn [andb].
    destruct (handler_frame _ _ _ H0) as (_ & _ & _ & _ & N & _).
    rewrite N. destruct e; try discriminate; reflexivity.
Qed.

(** C2 (as amended).  The notification becomes visible exactly when the
    simulation timer fires and finds a place for its event, before the
    recalculation it posts is answered and whether or not the answer is a
    reroute; no response changes its visibility, equal geometry or not; a
    submission of the form never does; and it is hidden only by its
    dismissal or by an edit of an input. *)
Theorem notification_set_by_simulation (w w' : World) (e : Event) :
  step w e = Some w' ->
  (showNotification (st w) = false -> showNotification (st w') = true ->
     exists u1 u2, e = SimFire u1 u2 /\ located w u1 = true)
  /\ (forall u1 u2, e = SimFire u1 u2 -> located w u1 = true ->
        showNotification (st w') = true)
  /\ (forall k resp, e = Resolve k resp ->
        showNotification (st w') = showNotification (st w))
  /\ (e = Submit -> showNotification (st w') = showNotification (st w))
  /\ (showNotification (st w) = true -> showNotification (st w') = false ->
        e = DismissNotification \/ is_edit e = true).
Proof.
  intros H. pose proof (step_showNotification _ _ _ H) as N.
  repeat split.
  - intros Hoff Hon. rewrite Hon, Hoff in N.
    destruct e; cbn in N; try discriminate;
      try (destruct (debounce_resets _ _); discriminate).
    rewrite orb_false_r in N. eauto.
  - intros u1 u2 -> Hloc. cbn in N. now rewrite N, Hloc.
  - intros k resp ->. exact N.
  - intros ->. exact N.
  - intros Hon Hoff. rewrite Hon, Hoff in N.
    destruct e; cbn in N; try discriminate; auto.
    rewrite orb_true_r in N. discriminate.
Qed.

(** C2, witness: the simulation fires while [route_AB] is displayed. *)
Lemma notification_set_by_simulation_witness :
  exists u1 u2,
    SimFire 0.5 0.5 = SimFire u1 u2
    /\ located (Scenario.after
                  (Scenario.first_route ++ [Elapse 10000])) u1 = true.
Proof.
  refine (proj1 (notification_set_by_simulation
    (Scenario.after (Scenario.first_route ++ [Elapse 10000]))
    (Scenario.after Scenario.simulation_fired)
    (SimFire 0.5 0.5) _) _ _).
  - vm_compute. reflexivity.
  - vm_compute. reflexivity.
  - vm_compute. reflexivity.
Defined.

(** C2, counterexample.  The simulation fires and the notification is
    visible at once, while its request is still in flight and no reroute
    has been detected; the answer is the route already displayed, so no
    reroute is detected then either, and the notification stays visible. *)
Lemma notification_without_reroute :
  let fired := Scenario.after Scenario.simulation_fired in
  let answered := Scenario.after Scenario.simulation_same_route in
  run initial Scenario.simulation_same_route = Some answered
  /\ showNotification (st (Scenario.after Scenario.first_route)) = false
  /\ showNotification (st fired) = true
  /\ List.length (inflight fired) = 1%nat
  /\ isRerouting (st fired) = false
  /\ step fired (Resolve 0 (Success Scenario.route_AB)) = Some answered
  /\ option_map (fun r => geometry (val r)) (previousResult (st fired))
     = Some (geometry Scenario.route_AB)
  /\ showNotification (st answered) = true
  /\ isRerouting (st answered) = false
  /\ resets answered = [].
Proof. evaluate. Qed.

(** *** The one-shot simulation *)

Lemma simulation_ready_flag (s : State) :
  simulation_ready s = true -> hasSimulatedThisSession s = false.
Proof.
  unfold simulation_ready. intros H.
  apply andb_prop in H as [_ H]. now apply negb_true_iff in H.
Qed.

Lemma simulation_deps_same_flag (a b : State) :
  simulation_deps_changed a b = false ->
  hasSimulatedThisSession a = hasSimulatedThisSession b.
Proof.
  unfold simulation_deps_changed. intros H.
  apply negb_false_iff, andb_prop in H as [_ H].
  now apply Bool.eqb_prop in H.
Qed.

Lemma step_flag (w w' : World) (e : Event) :
  step w e = Some w' ->
  hasSimulatedThisSession (st w')
    = if is_edit e
      then if endpoints_changed (st w) (st w') then false
           else hasSimulatedThisSession (st w)
      else if is_simfire e then true
           else hasSimulatedThisSession (st w).
Proof.
  intros H. destruct (step_inv _ _ _ H) as (w0 & H0 & ->).
  destruct (commit_frame (st w) w0) as (C & _). cbv zeta in C. rewrite C.
  destruct (effects_state_frame (st w) (st w0) (st w0))
    as (Es & Ed & _ & _ & _ & _ & _ & _ & _ & _ & Ef).
  cbv zeta in *. rewrite Ef.
  assert (endpoints_changed (st w) (effects_state (st w) (st w0) (st w0))
          = endpoints_changed (st w) (st w0)) as ->
    by (unfold endpoints_changed; now rewrite Es, Ed).
  destruct (handler_frame _ _ _ H0) as (_ & _ & F & _).
  destruct (is_edit e) eqn:Hedit.
  - rewrite F. destruct e; try discriminate; reflexivity.
  - rewrite (handler_endpoints _ _ _ H0 Hedit), F.
    destruct e; try discriminate; reflexivity.
Qed.

Lemma step_timer_implies_flag_down (w w' : World) (e : Event) :
  timer_implies_flag_down w ->
  step w e = Some w' ->
  timer_implies_flag_down w'.
Proof.
  unfold timer_implies_flag_down.
  intros Inv H. destruct (step_inv _ _ _ H) as (w0 & H0 & ->).
  destruct (commit_frame (st w) w0) as (C & _ & S & _).
  cbv zeta in *. rewrite C, S.
  set (s1 := effects_state (st w) (st w0) (st w0)).
  destruct (simulation_deps_changed (st w0) s1) eqn:D1.
  - destruct (simulation_ready s1) eqn:R1; [|now left].
    right. now apply simulation_ready_flag.
  - rewrite <- (simulation_deps_same_flag _ _ D1).
    destruct (simulation_deps_changed (st w) (st w0)) eqn:D0.
    + destruct (simulation_ready (st w0)) eqn:R0; [|now left].
      right. now apply simulation_ready_flag.
    + destruct (handler_frame _ _ _ H0) as (_ & _ & F & T & _).
      rewrite T, F. destruct e; try (now left); exact Inv.
Qed.

(** The simulation fires only with the flag down, and raises it. *)
Lemma step_simfire (w w' : World) (u1 u2 : float) :
  timer_implies_flag_down w ->
  step w (SimFire u1 u2) = Some w' ->
  hasSimulatedThisSession (st w) = false
  /\ hasSimulatedThisSession (st w') = true.
Proof.
  intros Inv H. split.
  - destruct Inv as [Inv|Inv]; [|exact Inv].
    unfold step, handler in H. rewrite Inv in H. discriminate.
  - now rewrite (step_flag _ _ _ H).
Qed.

Lemma one_shot_from (trace : list Event) :
  forall w w',
    timer_implies_flag_down w ->
    run w trace = Some w' ->
    no_edit trace = true ->
    (count_fires trace <= 1)%nat
    /\ (hasSimulatedThisSession (st w) = true ->
        count_fires trace = 0%nat
        /\ hasSimulatedThisSession (st w') = true).
Proof.
  induction trace as [|e trace IH]; intros w w' Inv Hrun Hno.
  - cbn in Hrun. injection Hrun as <-. cbn. split; [lia | auto].
  - cbn in Hrun. destruct (step w e) as [w1|] eqn:E; [|discriminate].
    cbn in Hno. apply andb_prop in Hno as [He Hno].
    apply negb_true_iff in He.
    pose proof (step_timer_implies_flag_down _ _ _ Inv E) as Inv1.
    destruct (IH w1 w' Inv1 Hrun Hno) as [Hle Hup].
    pose proof (step_flag _ _ _ E) as F. rewrite He in F.
    unfold count_fires in *. cbn [filter].
    destruct (is_simfire e) eqn:Hfire.
    + destruct e; try discriminate.
      destruct (step_simfire _ _ _ _ Inv E) as [Hdown Hraised].
      destruct (Hup Hraised) as [Hzero _].
      cbn [List.length]. split; [lia|].
      rewrite Hdown. discriminate.
    + split; [exact Hle|].
      intros Hw. rewrite Hw in F. exact (Hup F).
Qed.

(** C8 (as amended).  Between two changes of the inputs the simulation
    fires at most once, however long the page stays idle: in a trace without
    an edit that starts anywhere in a session, at most one event is the
    firing of the simulation, and none if the flag is already up; the flag
    goes up only when the simulation fires, and goes down only by an edit
    that changes the pair of inputs; every such edit leaves it down,
    whatever pair it leads to. *)
Theorem simulation_fires_once (before trace : list Event) (w w' : World) :
  run initial before = Some w ->
  run w trace = Some w' ->
  no_edit trace = true ->
  (count_fires trace <= 1)%nat
  /\ (hasSimulatedThisSession (st w) = true ->
      count_fires trace = 0%nat /\ hasSimulatedThisSession (st w') = true)
  /\ (forall wa e wb,
        step wa e = Some wb ->
        hasSimulatedThisSession (st wa) = false ->
        hasSimulatedThisSession (st wb) = true ->
        is_simfire e = true)
  /\ (forall wa e wb,
        step wa e = Some wb ->
        hasSimulatedThisSession (st wa) = true ->
        hasSimulatedThisSession (st wb) = false ->
        is_edit e = true /\ endpoints_changed (st wa) (st wb) = true)
  /\ (forall wa e wb,
        step wa e = Some wb ->
        is_edit e = true ->
        endpoints_changed (st wa) (st wb) = true ->
        hasSimulatedThisSession (st wb) = false).
Proof.
  intros Hbefore Hrun Hno.
  assert (timer_implies_flag_down w) as Inv.
  { apply (run_invariant timer_implies_flag_down
             (fun w0 e w1 => step_timer_implies_flag_down w0 w1 e)
             before initial w);
      [now left | exact Hbefore]. }
  destruct (one_shot_from trace w w' Inv Hrun Hno) as [Hle Hup].
  split; [exact Hle|]. split; [exact Hup|]. split; [|split].
  - intros wa e wb H H0 H1.
    pose proof (step_flag _ _ _ H) as F. rewrite H0, H1 in F.
    destruct (is_edit e); [|destruct (is_simfire e); congruence].
    destruct (endpoints_changed (st wa) (st wb)); discriminate.
  - intros wa e wb H H0 H1.
    pose proof (step_flag _ _ _ H) as F. rewrite H0, H1 in F.
    destruct (is_edit e); [|destruct (is_simfire e); discriminate].
    destruct (endpoints_changed (st wa) (st wb)); [auto | discriminate].
  - intros wa e wb H He Hch.
    pose proof (step_flag _ _ _ H) as F. now rewrite He, Hch in F.
Qed.

(** C8, witness: a route on which the simulation finds no place for its
    event, so that only the flag keeps the timer from being set again. *)
Lemma simulation_fires_once_witness :
  (count_fires Scenario.idle_windows <= 1)%nat.
Proof.
  exact (proj1 (simulation_fires_once
    Scenario.bare_route Scenario.idle_windows
    (Scenario.after Scenario.bare_route)
    (Scenario.after (Scenario.bare_route ++ Scenario.idle_windows))
    ltac:(vm_compute; reflexivity)
    ltac:(vm_compute; reflexivity)
    ltac:(vm_compute; reflexivity))).
Defined.

(** C8, counterexample.  The simulation fires twice for one pair of inputs:
    it fires while A and B are typed in, the user changes the destination
    to C and back to B, and ten seconds later it fires again.  The flag
    goes up at both firings, and the inputs are A and B at both. *)
Lemma simulation_fires_again_for_same_pair :
  let first := Scenario.after (Scenario.first_route ++ [Elapse 10000]) in
  let fired := Scenario.after Scenario.simulation_fired in
  let second := Scenario.after Scenario.back_to_B in
  let again := Scenario.after Scenario.simulation_fired_again in
  run initial Scenario.simulation_fired_again = Some again
  /\ count_fires Scenario.simulation_fired_again = 2%nat
  /\ (source (st first), destination (st first)) = ("A", "B")
  /\ hasSimulatedThisSession (st first) = false
  /\ step first (SimFire 0.5 0.5) = Some fired
  /\ hasSimulatedThisSession (st fired) = true
  /\ (source (st second), destination (st second)) = ("A", "B")
  /\ hasSimulatedThisSession (st second) = false
  /\ step second (SimFire 0.5 0.5) = Some again
  /\ hasSimulatedThisSession (st again) = true.
Proof. evaluate. Qed.

(** *** The change flags and their timers *)

Lemma In_remove_nth (A : Type) (x : A) (l : list A) :
  forall k, In x (remove_nth k l) -> In x l.
Proof.
  induction l as [|y l IH]; intros [|k] H; cbn in *; auto.
  destruct H as [H|H]; [now left | right; eauto].
Qed.

Lemma handler_timers (w w0 : World) (e : Event) :
  handler w e = Some w0 ->
  match e with
  | Elapse ms =>
      now w0 = now w + ms /\ 0 < ms /\ resets w0 = resets w
      /\ Forall (fun tf => now w + ms <= fst tf) (resets w)
      /\ etaChanged (st w0) = etaChanged (st w)
      /\ distanceChanged (st w0) = distanceChanged (st w)
  | ResetFire j =>
      exists due f,
        nth_error (resets w) j = Some (due, f) /\ due <= now w
        /\ now w0 = now w
        /\ resets w0 = remove_nth j (resets w)
        /\ etaChanged (st w0)
           = match f with EtaFlag => false | _ => etaChanged (st w) end
        /\ distanceChanged (st w0)
           = match f with
             | DistanceFlag => false
             | _ => distanceChanged (st w)
             end
  | Resolve k (Success data) =>
      exists req,
        nth_error (inflight w) k = Some req /\ now w0 = now w
        /\ resets w0
           = resets w
             ++ detect_timers (previousResult (closure req)) data (now w)
  | _ =>
      now w0 = now w /\ resets w0 = resets w
      /\ etaChanged (st w0) = etaChanged (st w)
      /\ distanceChanged (st w0) = distanceChanged (st w)
  end.
Proof.
  intros H.
  destruct e; try destruct resp; unfold handler in H; break_hyp H;
    try discriminate H; injection H as <-; cbv beta iota.
  all: unfold when, debounced, polled, simulate, clear_flag, alloc.
  all: try (break_goal; cbn; repeat split; reflexivity).
  - (* Resolve, data *)
    eexists. split; [reflexivity|].
    match goal with
    | |- context [detect_rerouting ?p ?d ?w1] =>
        destruct (detect_rerouting_frame p d w1)
          as (_ & _ & _ & D4 & _ & _ & _ & _ & _ & D9 & _)
    end.
    cbv zeta in *. cbn. rewrite D4, D9. cbn. split; reflexivity.
  - (* Elapse *)
    match goal with
    | E : (_ && _)%bool = true |- _ => apply andb_prop in E as [Hpos Hall]
    end.
    apply Z.ltb_lt in Hpos. cbn. repeat split; try assumption.
    apply Forall_forall. intros [t f] Hin.
    rewrite forallb_forall in Hall.
    apply Z.leb_le, Hall. unfold dues. rewrite !in_app_iff.
    right. right. right. apply in_map_iff. now exists (t, f).
  - (* ResetFire *)
    match goal with
    | E : (_ <=? _) = true |- _ => apply Z.leb_le in E
    end.
    eexists _, _. split; [reflexivity|].
    split; [eassumption|].
    break_goal; cbn; repeat split; reflexivity.
Qed.

Lemma step_timers (w w' : World) (e : Event) :
  step w e = Some w' ->
  exists w0,
    handler w e = Some w0
    /\ now w' = now w0 /\ resets w' = resets w0
    /\ etaChanged (st w') = etaChanged (st w0)
    /\ distanceChanged (st w') = distanceChanged (st w0).
Proof.
  intros H. destruct (step_inv _ _ _ H) as (w0 & H0 & ->).
  exists w0. split; [exact H0|].
  destruct (commit_frame (st w) w0) as (C & _ & _ & C4 & C5 & _).
  cbv zeta in *. rewrite C, C4, C5.
  destruct (effects_state_frame (st w) (st w0) (st w0))
    as (_ & _ & _ & _ & _ & Ee & Ed & _).
  cbv zeta in *. now rewrite Ee, Ed.
Qed.

Lemma detect_timers_due (p : option (obj RouteResult)) (d : RouteResult)
    (t : Z) :
  Forall (fun tf => t <= fst tf) (detect_timers p d t).
Proof.
  unfold detect_timers.
  destruct (reroute_detected p d); [|constructor].
  destruct (eta_differs p d); destruct (distance_differs p d); cbn;
    repeat constructor; cbn; lia.
Qed.

Lemma step_resets_ahead (w w' : World) (e : Event) :
  resets_ahead w -> step w e = Some w' -> resets_ahead w'.
Proof.
  unfold resets_ahead. intros Inv H.
  destruct (step_timers _ _ _ H) as (w0 & H0 & -> & -> & _).
  pose proof (handler_timers _ _ _ H0) as T.
  destruct e; try destruct resp;
    try (destruct T as (-> & -> & _); exact Inv).
  - (* Resolve, data *)
    destruct T as (req & _ & -> & ->).
    apply Forall_app. split; [exact Inv | apply detect_timers_due].
  - (* Elapse *)
    destruct T as (-> & _ & -> & Hall & _). exact Hall.
  - (* ResetFire *)
    destruct T as (due & f & _ & _ & -> & -> & _).
    rewrite Forall_forall in *. intros x Hin.
    eapply Inv, In_remove_nth, Hin.
Qed.

Lemma run_resets_ahead (trace : list Event) (w w' : World) :
  resets_ahead w -> run w trace = Some w' -> resets_ahead w'.
Proof.
  apply (run_invariant resets_ahead).
  intros w0 e w1 Inv H. exact (step_resets_ahead w0 w1 e Inv H).
Qed.

(** C7 (as amended).  When a reroute is applied, [etaChanged] (and in the
    same way [distanceChanged]) is set if the durations (the distances) of
    the two results differ, and keeps the value it had if they do not; each
    setting comes with a timer of its own, 3000 ms ahead.  From then on, a
    timer fires exactly at its time, sets its own flag to false and leaves
    the other flag and the other timers alone; the clock does not pass a
    timer that is set; and nothing but its own firing removes a timer, for
    none is ever cleared. *)
Theorem change_flags_and_their_timers (before : list Event) (w w' : World)
    (k : nat) (req : Request) (prev : obj RouteResult) (data : RouteResult) :
  run initial before = Some w ->
  nth_error (inflight w) k = Some req ->
  previousResult (closure req) = Some prev ->
  geometry (val prev) <> geometry data ->
  step w (Resolve k (Success data)) = Some w' ->
  let eta :=
    JS.float_neq (duration_minutes (val prev)) (duration_minutes data) in
  let dist := JS.float_neq (distance_km (val prev)) (distance_km data) in
  etaChanged (st w') = etaChanged (st w) || eta
  /\ distanceChanged (st w') = distanceChanged (st w) || dist
  /\ resets w'
     = resets w
       ++ (if eta then [(now w + 3000, EtaFlag)] else [])
       ++ (if dist then [(now w + 3000, DistanceFlag)] else [])
       ++ [(now w + 3000, ReroutingFlag)]
  /\ (forall trace wa j wb,
        run w' trace = Some wa ->
        step wa (ResetFire j) = Some wb ->
        exists f,
          nth_error (resets wa) j = Some (now wa, f)
          /\ resets wb = remove_nth j (resets wa)
          /\ etaChanged (st wb)
             = match f with EtaFlag => false | _ => etaChanged (st wa) end
          /\ distanceChanged (st wb)
             = match f with
               | DistanceFlag => false
               | _ => distanceChanged (st wa)
               end)
  /\ (forall trace wa ms wb,
        run w' trace = Some wa ->
        step wa (Elapse ms) = Some wb ->
        resets wb = resets wa
        /\ Forall (fun tf => now wb <= fst tf) (resets wb))
  /\ (forall wa e wb,
        step wa e = Some wb ->
        (forall j, e <> ResetFire j) ->
        exists more, resets wb = resets wa ++ more).
Proof.
  intros Hbefore Hreq Hprev Hgeo H. cbv zeta.
  assert (resets_ahead w') as Ahead.
  { apply (run_resets_ahead (before ++ [Resolve k (Success data)])
             initial w'); [constructor|].
    rewrite run_app, Hbefore. cbn. now rewrite H. }
  destruct (step_resolve_success _ _ _ _ H)
    as (req' & Hreq' & _ & _ & _ & _ & R5 & R6 & R7 & _).
  assert (req' = req) as -> by congruence.
  rewrite Hprev in *. unfold detect_timers in R7.
  cbn [reroute_detected eta_differs distance_differs] in *.
  apply strict_neq_spec in Hgeo. rewrite Hgeo in *. cbn [andb] in *.
  split; [exact R5|]. split; [exact R6|]. split; [exact R7|].
  split; [|split].
  - intros trace wa j wb Hrun Hfire.
    pose proof (run_resets_ahead trace w' wa Ahead Hrun) as Ha.
    destruct (step_timers _ _ _ Hfire) as (w0 & H0 & _ & -> & -> & ->).
    destruct (handler_timers _ _ _ H0)
      as (due & f & Hnth & Hdue & _ & -> & -> & ->).
    exists f. repeat split; try reflexivity.
    unfold resets_ahead in Ha. rewrite Forall_forall in Ha.
    specialize (Ha (due, f) (nth_error_In _ _ Hnth)). cbn in Ha.
    rewrite Hnth. do 2 f_equal. lia.
  - intros trace wa ms wb Hrun Hstep.
    pose proof (run_resets_ahead trace w' wa Ahead Hrun) as Ha.
    pose proof (step_resets_ahead wa wb _ Ha Hstep) as Hb.
    split; [|exact Hb].
    destruct (step_timers _ _ _ Hstep) as (w0 & H0 & _ & -> & _).
    now destruct (handler_timers _ _ _ H0) as (_ & _ & -> & _).
  - intros wa e wb Hstep Hnot.
    destruct (step_timers _ _ _ Hstep) as (w0 & H0 & _ & -> & _).
    pose proof (handler_timers _ _ _ H0) as T.
    destruct e; try destruct resp;
      try (destruct T as (_ & -> & _); exists []; now rewrite app_nil_r).
    + destruct T as (r & _ & _ & ->). eauto.
    + destruct T as (_ & _ & -> & _). exists []. now rewrite app_nil_r.
    + now destruct (Hnot k0).
Qed.

(** C7, witness: the first detour, longer and slower than [route_AB]. *)
Lemma change_flags_and_their_timers_witness :
  etaChanged (st (Scenario.after Scenario.first_detour)) = true
  /\ distanceChanged (st (Scenario.after Scenario.first_detour)) = true
  /\ resets (Scenario.after Scenario.first_detour)
     = [(6500, EtaFlag); (6500, DistanceFlag); (6500, ReroutingFlag)].
Proof.
  destruct (change_flags_and_their_timers
    (Scenario.first_route ++ [SelectEvent "Road Closure"; Elapse 1000])
    (Scenario.after
       (Scenario.first_route ++ [SelectEvent "Road Closure"; Elapse 1000]))
    (Scenario.after Scenario.first_detour) 0
    (hd (mkRequest initial_state None)
       (inflight (Scenario.after
                    (Scenario.first_route ++ [SelectEvent "Road Closure"]))))
    (Obj 0%nat Scenario.route_AB) Scenario.route_detour
    ltac:(vm_compute; reflexivity)
    ltac:(vm_compute; reflexivity)
    ltac:(vm_compute; reflexivity)
    ltac:(vm_compute; discriminate)
    ltac:(vm_compute; reflexivity))
    as (E & D & T & _).
  repeat match goal with |- _ /\ _ => split end.
  - rewrite E. vm_compute. reflexivity.
  - rewrite D. vm_compute. reflexivity.
  - rewrite T. vm_compute. reflexivity.
Defined.

(** C7, counterexample.  The first detour changes the duration, and
    [etaChanged] is set.  One second later a second detour is applied, as
    slow as the first: the duration delta is zero, and [etaChanged] is true
    right after the reroute is applied.  Two seconds after that, and not
    three, the timer of the first detour sets it to false. *)
Lemma eta_flag_without_change :
  let w1 :=
    Scenario.after
      (Scenario.first_detour ++ [SelectEvent "Accident"; Elapse 1000]) in
  let w2 := Scenario.after Scenario.second_detour in
  let later := Scenario.second_detour ++ [Elapse 2000; ResetFire 0] in
  run initial later = Some (Scenario.after later)
  /\ step w1 (Resolve 0 (Success Scenario.route_detour2)) = Some w2
  /\ option_map (fun r => option_map val (previousResult (closure r)))
       (nth_error (inflight w1) 0)
     = Some (Some Scenario.route_detour)
  /\ geometry Scenario.route_detour <> geometry Scenario.route_detour2
  /\ isRerouting (st w2) = true
  /\ PrimFloat.sub (duration_minutes Scenario.route_detour)
       (duration_minutes Scenario.route_detour2) = 0%float
  /\ etaChanged (st w2) = true
  /\ now (Scenario.after later) = now w2 + 2000
  /\ etaChanged (st (Scenario.after later)) = false.
Proof. evaluate. discriminate. Qed.

End RoutingFacts.

(* ================================================================== *)
(** ** More proofs: decodePolyline *)
(* ================================================================== *)

Module PolylineMore.

Import Polyline PolylineFacts.

(** *** How many points *)

Lemma decode_sfx_length (fuel : nat) :
  forall (cs : jsstring) (factor lat lng : float),
    (2 * List.length (decode_sfx fuel cs factor lat lng)
     <= List.length cs + 1)%nat.
Proof.
  induction fuel as [|fuel IH]; intros cs factor lat lng;
    [cbn; lia|].
  destruct cs as [|c cs]; [cbn; lia|].
  rewrite decode_sfx_step by discriminate.
  cbn [List.length].
  set (P := point_sfx (c :: cs) factor lat lng).
  specialize (IH (snd P) factor (fst (snd (fst P))) (snd (snd (fst P)))).
  assert (List.length (snd P) <= List.length cs - 1)%nat as Hrest.
  { subst P. unfold point_sfx.
    pose proof (group_sfx_shorter (c :: cs) 0%Z 0%Z) as H1.
    destruct (group_sfx (c :: cs) 0 0) as [r1 cs1]. cbn [snd] in H1.
    pose proof (group_sfx_shorter cs1 0%Z 0%Z) as H2.
    destruct (group_sfx cs1 0 0) as [r2 cs2]. cbn [snd] in *.
    cbn [List.length] in H1. lia. }
  destruct cs as [|c' cs]; cbn [List.length] in *; lia.
Qed.

(** X1.  A string that is not empty decodes to at least one point, whatever
    its code units are, and to at most one point for every two code units
    (rounded up). *)
Theorem decodePolyline_count (s : jsstring) (precision : nat) :
  s <> [] ->
  exists points,
    decodePolyline s precision = Some points
    /\ (1 <= List.length points)%nat
    /\ (2 * List.length points <= List.length s + 1)%nat.
Proof.
  intros Hs. rewrite decodePolyline_sfx.
  eexists. split; [reflexivity|]. split.
  - rewrite decode_sfx_step by exact Hs. cbn [List.length].
    apply le_n_S, Nat.le_0_l.
  - apply decode_sfx_length.
Qed.

(** X1, witness: a single code unit with the continuation bit. *)
Lemma decodePolyline_count_witness :
  exists points,
    decodePolyline (codes "_") 6 = Some points
    /\ (1 <= List.length points)%nat
    /\ (2 * List.length points <= List.length (codes "_") + 1)%nat.
Proof.
  apply (decodePolyline_count (codes "_") 6). discriminate.
Defined.

(** *** Strings that grow *)

Lemma decode_sfx_prefix (n : nat) :
  forall (w : jsstring),
    split_points n w = (w, []) ->
    forall (t : jsstring) (k m : nat) (factor lat lng : float),
      (List.length (w ++ t) <= k)%nat ->
      (List.length w <= m)%nat ->
      exists rest,
        decode_sfx k (w ++ t) factor lat lng
          = decode_sfx m w factor lat lng ++ rest.
Proof.
  induction n as [|n IH]; intros w Hw t k m factor lat lng Hk Hm.
  - cbn in Hw. injection Hw as <-. rewrite decode_sfx_nil.
    eexists; reflexivity.
  - cbn [split_points] in Hw.
    destruct (split_group w) as [[glat r]|] eqn:H1.
    2:{ injection Hw as <-. rewrite decode_sfx_nil. eexists; reflexivity. }
    destruct (split_group r) as [[glng r']|] eqn:H2.
    2:{ injection Hw as <-. rewrite decode_sfx_nil. eexists; reflexivity. }
    destruct (split_points n r') as [w' t'] eqn:Hsp.
    injection Hw as Hw ->.
    destruct (split_group_app _ _ _ H1) as [E1 L1].
    destruct (split_group_app _ _ _ H2) as [E2 L2].
    assert (r' = w') as ->.
    { assert (glat ++ glng ++ w' = glat ++ glng ++ r') as E
        by (rewrite Hw, E1, E2; reflexivity).
      apply app_inv_head in E. apply app_inv_head in E. now symmetry. }
    assert (w ++ t = glat ++ glng ++ (w' ++ t)) as Ewt
      by (rewrite E1, E2, <- !app_assoc; reflexivity).
    assert (List.length w
            = (List.length glat + List.length glng + List.length w')%nat)
      as Hlen by (rewrite E1, E2, !length_app; lia).
    rewrite length_app in Hk.
    destruct k as [|k]; [lia|]. destruct m as [|m]; [lia|].
    assert (w <> []) as Hne by (intros ->; cbn in Hlen; lia).
    assert (w ++ t <> []) as Hne' by (destruct w; [congruence | discriminate]).
    rewrite (decode_sfx_step k factor lat lng _ Hne').
    rewrite (decode_sfx_step m factor lat lng _ Hne).
    destruct (point_sfx_closed factor lat lng _ _ _ _ _ H1 H2 (w' ++ t))
      as [Pt _].
    destruct (point_sfx_closed factor lat lng _ _ _ _ _ H1 H2 w')
      as [_ Pw].
    rewrite Ewt, Pt, Pw. cbn [fst snd].
    destruct (IH w' Hsp t k m factor
                (fst (snd (fst (point_sfx w factor lat lng))))
                (snd (snd (fst (point_sfx w factor lat lng)))))
      as (rest & E); [rewrite length_app; lia | lia |].
    exists rest. now rewrite E.
Qed.

(** X2.  The points of a well-formed string stay when the string grows:
    whatever is appended, be it whole points or garbage, the decoder returns
    the same points first, and then the points of what was appended. *)
Theorem decodePolyline_prefix (w t : jsstring) (precision : nat) :
  dangling w = [] ->
  exists points rest,
    decodePolyline w precision = Some points
    /\ decodePolyline (w ++ t) precision = Some (points ++ rest).
Proof.
  intros Hw.
  assert (split_points (List.length w) w = (w, [])) as Hsp.
  { pose proof (resolved_dangling w) as E. rewrite Hw, app_nil_r in E.
    unfold resolved, dangling in *.
    destruct (split_points (List.length w) w) as [a b].
    cbn [fst snd] in *. subst. reflexivity. }
  destruct (decode_sfx_prefix (List.length w) w Hsp t
              (S (List.length (w ++ t))) (S (List.length w))
              (pow10 precision) 0%float 0%float)
    as (rest & E); [lia | lia |].
  rewrite !decodePolyline_sfx. rewrite E. eauto.
Qed.

(** X2, witness: the first two points of the sample, and then its third
    group cut short. *)
Lemma decodePolyline_prefix_witness :
  exists points rest,
    decodePolyline (codes "_p~iF~ps|U_ulLnnqC") 5 = Some points
    /\ decodePolyline (codes "_p~iF~ps|U_ulLnnqC" ++ codes "_mqNvxq`") 5
       = Some (points ++ rest).
Proof.
  apply (decodePolyline_prefix (codes "_p~iF~ps|U_ulLnnqC")
           (codes "_mqNvxq`") 5).
  vm_compute. reflexivity.
Defined.

(** *** Groups and zig-zag *)

(** X3.  The inner loop, started at a closed group of at most six code
    units, returns the number the group spells, five bits per code unit
    after the bias of 63 and the lowest bits first, and stops right behind
    the group. *)
Theorem read_group_value (encoded g rest : jsstring) (index : nat) :
  skipn index encoded = g ++ rest ->
  split_group g = Some (g, []) ->
  (List.length g <= 6)%nat ->
  exists index',
    read_group (S (List.length encoded)) encoded index 0 0
      = Some (index', chunks_value g)
    /\ skipn index' encoded = rest
    /\ (0 <= chunks_value g < 2 ^ 30)%Z.
Proof.
  intros Hskip Hg Hlen.
  destruct (read_group_chunks encoded g rest index Hskip Hg Hlen)
    as (index' & H1 & H2).
  exists index'. split; [exact H1|]. split; [exact H2|].
  clear - Hlen. revert Hlen.
  assert (forall (l : jsstring) (n : nat),
            (List.length l <= n)%nat ->
            (0 <= chunks_value l < 2 ^ (5 * Z.of_nat n))%Z) as Hbound.
  { induction l as [|c l IH]; intros n Hn; cbn [chunks_value].
    - split; [lia | apply Z.pow_pos_nonneg; lia].
    - destruct n as [|n]; [cbn in Hn; lia|].
      cbn [List.length] in Hn.
      specialize (IH n ltac:(lia)).
      pose proof (Z.mod_pos_bound (c - 63) 32 ltac:(lia)).
      replace (5 * Z.of_nat (S n))%Z with (5 + 5 * Z.of_nat n)%Z by lia.
      rewrite Z.pow_add_r by lia. change (2 ^ 5)%Z with 32%Z. lia. }
  intros Hlen. exact (Hbound g 6%nat Hlen).
Qed.

(** X3, witness: the second group of the sample. *)
Lemma read_group_value_witness :
  exists index',
    read_group (S (List.length sample)) sample 5 0 0
      = Some (index', chunks_value (codes "~ps|U"))
    /\ skipn index' sample = codes "_ulLnnqC_mqNvxq`@"
    /\ (0 <= chunks_value (codes "~ps|U") < 2 ^ 30)%Z.
Proof.
  apply (read_group_value sample (codes "~ps|U")
           (codes "_ulLnnqC_mqNvxq`@") 5).
  - vm_compute. reflexivity.
  - vm_compute. reflexivity.
  - vm_compute. lia.
Defined.

(** X4.  The zig-zag reading of a group value below 2^31: an even value
    [2n] is the delta [n], an odd value [2n + 1] is the delta [-n - 1]; so
    the sign sits in the lowest bit and never costs a code unit of its
    own. *)
Theorem unzigzag_reading (n : Z) :
  (0 <= n < 2 ^ 30)%Z ->
  unzigzag (2 * n) = n /\ unzigzag (2 * n + 1) = (- n - 1)%Z.
Proof.
  intros H. split; [now apply unzigzag_even | now apply unzigzag_odd].
Qed.

(** X4, witness: the first two deltas of the sample. *)
Lemma unzigzag_reading_witness :
  unzigzag (2 * 3850000) = 3850000%Z
  /\ unzigzag (2 * 3850000 + 1) = (- 3850000 - 1)%Z.
Proof. apply (unzigzag_reading 3850000). lia. Defined.

(** *** The format *)

Lemma chunks_value_bound (g : jsstring) :
  forall n : nat,
    (List.length g <= n)%nat ->
    (0 <= chunks_value g < 2 ^ (5 * Z.of_nat n))%Z.
Proof.
  induction g as [|c g IH]; intros n Hn; cbn [chunks_value].
  - split; [lia | apply Z.pow_pos_nonneg; lia].
  - destruct n as [|n]; [cbn in Hn; lia|].
    cbn [List.length] in Hn.
    specialize (IH n ltac:(lia)).
    pose proof (Z.mod_pos_bound (c - 63) 32 ltac:(lia)).
    replace (5 * Z.of_nat (S n))%Z with (5 + 5 * Z.of_nat n)%Z by lia.
    rewrite Z.pow_add_r by lia. change (2 ^ 5)%Z with 32%Z. lia.
Qed.

Lemma unzigzag_delta (g : jsstring) :
  (List.length g <= 6)%nat ->
  unzigzag (chunks_value g) = Format.delta_of g.
Proof.
  intros Hlen. unfold Format.delta_of. cbv zeta.
  pose proof (chunks_value_bound g 6 Hlen) as Hb.
  change (2 ^ (5 * Z.of_nat 6))%Z with (2 ^ 30)%Z in Hb.
  set (v := chunks_value g) in *.
  pose proof (Z.div_mod v 2 ltac:(lia)) as Hdm.
  pose proof (Z.mod_pos_bound v 2 ltac:(lia)) as Hm.
  assert (0 <= v / 2 < 2 ^ 30)%Z as Hn.
  { split; [apply Z.div_pos; lia|].
    apply Z.div_lt_upper_bound; lia. }
  destruct (Z.even v) eqn:E.
  - apply Z.even_spec in E. destruct E as [k ->].
    rewrite (Z.mul_comm 2 k), Z.div_mul by lia.
    rewrite Z.mul_comm. apply unzigzag_even.
    rewrite (Z.mul_comm 2 k), Z.div_mul in Hn by lia. exact Hn.
  - assert (Z.odd v = true) as O
      by (rewrite <- Z.negb_even, E; reflexivity).
    apply Z.odd_spec in O. destruct O as [k ->].
    assert ((2 * k + 1) / 2 = k)%Z as Hk.
    { rewrite Z.add_comm, Z.mul_comm, Z_div_plus_full by lia.
      reflexivity. }
    rewrite Hk in *. now apply unzigzag_odd.
Qed.

Lemma group_sfx_value (g rest : jsstring) :
  Format.well_formed_group g ->
  group_sfx (g ++ rest) 0 0 = (chunks_value g, rest).
Proof.
  intros [Hg Hlen].
  destruct (group_sfx_closed g g [] Hg rest 0%Z 0%Z) as [E _].
  rewrite E. f_equal.
  pose proof (group_sfx_chunks g 0 0%Z Hg ltac:(lia) ltac:(cbn; lia)) as C.
  change (5 * Z.of_nat 0)%Z with 0%Z in C. rewrite C.
  change (2 ^ 0)%Z with 1%Z. lia.
Qed.

Lemma well_formed_group_nonempty (g : jsstring) :
  Format.well_formed_group g -> g <> [].
Proof. intros [Hg _] ->. discriminate. Qed.

Lemma decode_sfx_reads_format (pairs : list (jsstring * jsstring)) :
  Forall (fun ab => Format.well_formed_group (fst ab)
                    /\ Format.well_formed_group (snd ab)) pairs ->
  forall (fuel : nat) (factor lat lng : float),
    (List.length (Format.text_of pairs) <= fuel)%nat ->
    decode_sfx fuel (Format.text_of pairs) factor lat lng
      = Format.points_of pairs factor lat lng.
Proof.
  induction 1 as [|[glat glng] pairs [Ha Hb] Hrest IH];
    intros fuel factor lat lng Hfuel.
  - cbn. apply decode_sfx_nil.
  - cbn [fst snd] in Ha, Hb. cbn [Format.text_of Format.points_of] in *.
    pose proof (well_formed_group_nonempty _ Ha) as Hne.
    destruct fuel as [|fuel].
    { destruct glat; [congruence | cbn in Hfuel; lia]. }
    rewrite decode_sfx_step
      by (destruct glat; [congruence | discriminate]).
    unfold point_sfx.
    rewrite (group_sfx_value glat _ Ha), (group_sfx_value glng _ Hb).
    cbn [fst snd].
    rewrite (unzigzag_delta glat (proj2 Ha)),
      (unzigzag_delta glng (proj2 Hb)).
    f_equal. apply IH.
    rewrite !length_app in Hfuel.
    destruct glat; [congruence | cbn [List.length] in Hfuel; lia].
Qed.

(** X24.  On a string made of well-formed groups (at most six code units
    each, closed by the last), two for every point, [decodePolyline] returns
    what the format says: the number of each group, read five bits per code
    unit and as zig-zag, is added to the running latitude or longitude, and
    each point is the pair of the running sums divided by ten to the
    precision. *)
Theorem decodePolyline_reads_format (pairs : list (jsstring * jsstring))
    (precision : nat) :
  Forall (fun ab => Format.well_formed_group (fst ab)
                    /\ Format.well_formed_group (snd ab)) pairs ->
  decodePolyline (Format.text_of pairs) precision
    = Some (Format.points_of pairs (pow10 precision) 0 0).
Proof.
  intros H. rewrite decodePolyline_sfx. f_equal.
  apply decode_sfx_reads_format; [exact H | lia].
Qed.

(** X24, witness: the groups of [sample]. *)
Lemma decodePolyline_reads_format_witness :
  Format.text_of Format.sample_pairs = sample
  /\ decodePolyline (Format.text_of Format.sample_pairs) 6
     = Some (Format.points_of Format.sample_pairs (pow10 6) 0 0).
Proof.
  split; [reflexivity|].
  apply decodePolyline_reads_format.
  repeat constructor; cbn; lia.
Defined.

End PolylineMore.

(* ================================================================== *)
(** ** More proofs: the routing page *)
(* ================================================================== *)

Module RoutingMore.

Import Routing Page RoutingFacts.
Open Scope string_scope.
Open Scope list_scope.
Open Scope Z_scope.

(** *** The timers of the debounce and of the polling *)

Lemma effect_debounce_timer (old new : State) (w : World) :
  debounce (effect_debounce old new w)
    = if endpoints_changed old new
      then if truthy (source new) && truthy (destination new)
           then Some (now w + 2500, new) else None
      else debounce w.
Proof.
  unfold effect_debounce. split_ifs; reflexivity.
Qed.

Lemma effect_poll_timer (old new : State) (w : World) :
  poll (effect_poll old new w)
    = if poll_deps_changed old new
      then if isLiveEnabled new && has_result new
           then Some (now w + 12000) else None
      else poll w.
Proof.
  unfold effect_poll, poll_deps_changed. split_ifs; reflexivity.
Qed.

Lemma run_effects_timers (old new : State) (w : World) :
  let w' := run_effects old new w in
  debounce w'
    = (if endpoints_changed old new
       then if truthy (source new) && truthy (destination new)
            then Some (now w + 2500, new) else None
       else debounce w)
  /\ poll w'
     = (if poll_deps_changed old new
        then if isLiveEnabled new && has_result new
             then Some (now w + 12000) else None
        else poll w).
Proof.
  unfold run_effects.
  destruct (effect_debounce_frame old new w)
    as (_ & _ & A3 & _ & _ & A6 & _).
  pose proof (effect_debounce_timer old new w) as A.
  set (w1 := effect_debounce old new w) in *.
  destruct (effect_poll_frame old new w1) as (_ & _ & B3 & _).
  pose proof (effect_poll_timer old new w1) as B.
  set (w2 := effect_poll old new w1) in *.
  destruct (effect_reset_flag_frame old new w2) as (_ & _ & C3 & C4 & _).
  set (w3 := effect_reset_flag old new w2) in *.
  destruct (effect_simulation_frame old new w3) as (_ & _ & D3 & D4 & _).
  set (w4 := effect_simulation old new w3) in *.
  destruct (effect_event_frame old new w4) as (_ & _ & E3 & E4 & _).
  cbv zeta in *. split.
  - rewrite E3, D3, C3, B3, A. reflexivity.
  - rewrite E4, D4, C4, B, A3, A6. reflexivity.
Qed.

Lemma poll_deps_changed_same (s s' : State) :
  isLiveEnabled s' = isLiveEnabled s -> result s' = result s ->
  poll_deps_changed s s' = false.
Proof.
  intros Hl Hr. unfold poll_deps_changed, has_result.
  rewrite Hl, Hr. now rewrite !Bool.eqb_reflx.
Qed.

(** The two timers after [commit]: the second round of effects finds the
    inputs, the switch and the result as the first round left them. *)
Lemma commit_timers (old : State) (w : World) :
  let w' := commit old w in
  debounce w'
    = (if endpoints_changed old (st w)
       then if truthy (source (st w)) && truthy (destination (st w))
            then Some (now w + 2500, st w) else None
       else debounce w)
  /\ poll w'
     = (if poll_deps_changed old (st w)
        then if isLiveEnabled (st w) && has_result (st w)
             then Some (now w + 12000) else None
        else poll w).
Proof.
  unfold commit.
  destruct (run_effects_timers old (st w) w) as (A1 & A2).
  destruct (run_effects_frame old (st w) w) as (A3 & _).
  set (w1 := run_effects old (st w) w) in *.
  destruct (run_effects_timers (st w) (st w1) w1) as (B1 & B2).
  cbv zeta in *.
  destruct (effects_state_frame old (st w) (st w))
    as (Es & Ed & Er & _ & _ & _ & _ & El & _).
  cbv zeta in *. rewrite <- A3 in Es, Ed, Er, El.
  rewrite (endpoints_changed_same _ _ Es Ed) in B1.
  rewrite (poll_deps_changed_same _ _ El Er) in B2.
  split; congruence.
Qed.

(** *** Every handler, on what is pending *)

Lemma handler_pending (w w0 : World) (e : Event) :
  handler w e = Some w0 ->
  debounce w0 = match e with DebounceFire => None | _ => debounce w end
  /\ poll w0
     = match e with
       | PollTick _ _ => option_map (fun due => due + 12000) (poll w)
       | _ => poll w
       end
  /\ isLiveEnabled (st w0)
     = match e with
       | ToggleLive => negb (isLiveEnabled (st w))
       | _ => isLiveEnabled (st w)
       end
  /\ now w0 = match e with Elapse ms => now w + ms | _ => now w end.
Proof.
  intros H.
  destruct e; try destruct resp; unfold handler in H; break_hyp H;
    try discriminate H; injection H as <-; cbv beta iota.
  all: unfold when, debounced, polled, simulate, clear_flag, alloc.
  all: break_goal; cbn;
    repeat match goal with |- _ /\ _ => split end;
    try reflexivity; try assumption; try discriminate; try congruence.
  all: match goal with
       | |- context [detect_rerouting ?p ?d ?w1] =>
           destruct (detect_rerouting_frame p d w1)
             as (_ & _ & _ & _
                 & (_ & _ & _ & _ & _ & _ & _ & _ & F9 & _)
                 & _ & D6 & D7 & _ & D9 & _);
           cbv zeta in *;
           rewrite ?F9, ?D6, ?D7, ?D9; reflexivity
       end.
Qed.

(** What a handler does to the requests in flight, to [loading] and to the
    error message: a response takes its request away, lowers [loading] and
    sets the message if it is an error; any other handler either leaves the
    three alone or posts one request, from the current render or from the
    render a timer closes over. *)
Lemma handler_requests (w w0 : World) (e : Event) :
  handler w e = Some w0 ->
  match e with
  | Resolve k resp =>
      (exists req, nth_error (inflight w) k = Some req)
      /\ inflight w0 = remove_nth k (inflight w)
      /\ loading (st w0) = false
      /\ error (st w0)
         = match resp with
           | Failure detail => Some (error_text detail)
           | Success _ => error (st w)
           end
  | _ =>
      (inflight w0 = inflight w /\ loading (st w0) = loading (st w)
       /\ error (st w0) = error (st w))
      \/ (exists c loc,
            inflight w0 = inflight w ++ [mkRequest c loc]
            /\ loading (st w0) = true /\ error (st w0) = None
            /\ (event (st w0) = event (st w)
                \/ has_simulatedEvent (st w0) = true)
            /\ (c = st w \/ timer_closure (debounce w) = Some c
                \/ timer_closure (sim w) = Some c))
  end.
Proof.
  intros H.
  destruct e; try destruct resp; unfold handler in H; break_hyp H;
    try discriminate H; injection H as <-; cbv beta iota.
  all: unfold when, debounced, polled, simulate, clear_flag, alloc,
         timer_closure.
  all: try match goal with
           | E : sim _ = Some _ |- _ => rewrite E
           | E : debounce _ = Some _ |- _ => rewrite E
           end.
  all: break_goal; cbn.
  all: try (left; repeat split; reflexivity).
  all: try (right; eexists _, _; repeat split; eauto; fail).
  all: try (split; [eauto|]; repeat split; try reflexivity).
  all: match goal with
       | |- context [detect_rerouting ?p ?d ?w1] =>
           destruct (detect_rerouting_frame p d w1)
             as (_ & _ & _ & _
                 & (_ & _ & _ & _ & _ & F6 & _)
                 & D5 & _);
           cbv zeta in *;
           rewrite ?F6, ?D5; reflexivity
       end.
Qed.


Lemma handler_guard (w w0 : World) (e : Event) :
  handler w e = Some w0 ->
  match e with
  | Elapse ms => 0 < ms /\ Forall (fun t => now w + ms <= t) (dues w)
  | DebounceFire =>
      exists due c, debounce w = Some (due, c) /\ due <= now w
  | PollTick u1 u2 =>
      exists due, poll w = Some due /\ due <= now w
                  /\ unit_interval u1 = true /\ unit_interval u2 = true
  | SimFire u1 u2 =>
      exists due c, sim w = Some (due, c) /\ due <= now w
                    /\ unit_interval u1 = true /\ unit_interval u2 = true
  | _ => True
  end.
Proof.
  intros H. destruct e; try exact I; unfold handler in H.
  - destruct (0 <? ms) eqn:Hms; [|discriminate]. cbn [andb] in H.
    destruct (forallb _ (dues w)) eqn:Hall; [|discriminate].
    split; [now apply Z.ltb_lt|].
    apply Forall_forall. intros t Ht.
    rewrite forallb_forall in Hall. now apply Z.leb_le, Hall.
  - destruct (debounce w) as [[due c]|]; [|discriminate].
    destruct (due <=? now w) eqn:Hdue; [|discriminate].
    exists due, c. split; [reflexivity | now apply Z.leb_le].
  - destruct (poll w) as [due|]; [|discriminate].
    destruct (due <=? now w) eqn:Hdue; [|discriminate].
    destruct (unit_interval u1); [|discriminate].
    destruct (unit_interval u2); [|discriminate].
    exists due. repeat split. now apply Z.leb_le.
  - destruct (sim w) as [[due c]|]; [|discriminate].
    destruct (due <=? now w) eqn:Hdue; [|discriminate].
    destruct (unit_interval u1); [|discriminate].
    destruct (unit_interval u2); [|discriminate].
    exists due, c. repeat split. now apply Z.leb_le.
Qed.

Lemma effects_state_requests (old new s : State) :
  let s' := effects_state old new s in
  loading s' = (if event_recalculates old new then true else loading s)
  /\ error s' = (if event_recalculates old new then None else error s)
  /\ simulatedEvent s'
     = (if debounce_resets old new then None else simulatedEvent s)
  /\ lastCalculated s' = lastCalculated s.
Proof.
  unfold effects_state.
  destruct (debounce_resets old new); destruct (endpoints_changed old new);
    destruct (event_recalculates old new); cbn; repeat split; reflexivity.
Qed.

Lemma remove_nth_length (A : Type) (l : list A) :
  forall k x, nth_error l k = Some x ->
  S (List.length (remove_nth k l)) = List.length l.
Proof.
  induction l as [|y l IH]; intros [|k] x H; cbn in *; try discriminate.
  - reflexivity.
  - f_equal. eapply IH. exact H.
Qed.

(** *** Requests, [loading] and the error message *)

(** A step, on the requests in flight: as [handler_requests], with the
    request the effect on [event] may post from the render that follows the
    handler. *)
Lemma step_requests (w w' : World) (e : Event) :
  step w e = Some w' ->
  exists w0,
    handler w e = Some w0
    /\ match e with
       | Resolve k resp =>
           (exists req, nth_error (inflight w) k = Some req)
           /\ inflight w' = remove_nth k (inflight w)
           /\ loading (st w') = false
           /\ error (st w')
              = match resp with
                | Failure detail => Some (error_text detail)
                | Success _ => error (st w)
                end
       | _ =>
           (inflight w' = inflight w /\ loading (st w') = loading (st w)
            /\ error (st w') = error (st w))
           \/ (exists c loc,
                 inflight w' = inflight w ++ [mkRequest c loc]
                 /\ loading (st w') = true /\ error (st w') = None
                 /\ (c = st w \/ c = st w0
                     \/ timer_closure (debounce w) = Some c
                     \/ timer_closure (sim w) = Some c))
       end.
Proof.
  intros H. destruct (step_inv _ _ _ H) as (w0 & H0 & ->).
  exists w0. split; [exact H0|].
  destruct (commit_frame (st w) w0) as (C1 & C2 & _).
  destruct (effects_state_requests (st w) (st w0) (st w0)) as (L & Er & _).
  cbv zeta in *. rewrite C1, C2, L, Er. clear C1 C2 L Er.
  pose proof (handler_requests _ _ _ H0) as R.
  assert ((event (st w0) = event (st w)
           \/ has_simulatedEvent (st w0) = true) ->
          event_recalculates (st w) (st w0) = false) as Hno.
  { intros [E|E]; unfold event_recalculates.
    - now rewrite E, String.eqb_refl.
    - rewrite E. cbn. now rewrite !andb_false_r. }
  destruct e;
    try (destruct R as [(R1 & R2 & R3)|(c & loc & R1 & R2 & R3 & R4 & R5)];
         [ destruct (event_recalculates (st w) (st w0));
           [ right; exists (st w0), None; rewrite R1; repeat split; auto
           | left; rewrite R1, app_nil_r; repeat split; assumption ]
         | right; exists c, loc; rewrite (Hno R4), app_nil_r;
           repeat split; try assumption;
           destruct R5 as [R5|[R5|R5]]; auto ]).
  destruct R as (R0 & R1 & R2 & R3).
  assert (event_recalculates (st w) (st w0) = false) as ->.
  { unfold event_recalculates.
    assert (event (st w0) = event (st w)) as ->;
      [|now rewrite String.eqb_refl].
    unfold handler in H0. destruct R0 as (req & R0). rewrite R0 in H0.
    injection H0 as <-. destruct resp as [data|detail].
    - apply (resumed_success_frame req data
               (with_inflight (remove_nth k (inflight w)) w)).
    - reflexivity. }
  rewrite app_nil_r. repeat split; assumption.
Qed.

(** X5.  A step posts at most one request.  Posting one raises [loading]
    and clears the error message.  A response, whichever request it answers
    and whatever else is in flight, takes one request away and lowers
    [loading]; it sets the error message if it is an error and leaves it as
    it is if it carries data.  Any other step leaves the three alone. *)
Theorem step_posts_at_most_one (w w' : World) (e : Event) :
  step w e = Some w' ->
  match e with
  | Resolve k resp =>
      S (List.length (inflight w')) = List.length (inflight w)
      /\ loading (st w') = false
      /\ error (st w')
         = match resp with
           | Failure detail => Some (error_text detail)
           | Success _ => error (st w)
           end
  | _ =>
      (inflight w' = inflight w /\ loading (st w') = loading (st w)
       /\ error (st w') = error (st w))
      \/ (exists req,
            inflight w' = inflight w ++ [req]
            /\ loading (st w') = true /\ error (st w') = None)
  end.
Proof.
  intros H. destruct (step_requests _ _ _ H) as (w0 & _ & R).
  destruct e;
    try (destruct R as [R|(c & loc & R1 & R2 & R3 & _)];
         [left; exact R | right; exists (mkRequest c loc); auto]).
  destruct R as ((req & R0) & R1 & R2 & R3).
  rewrite R1. split; [|split; assumption].
  eapply remove_nth_length. exact R0.
Qed.

(** X5, witness: the user picks an event while [route_AB] is displayed. *)
Lemma step_posts_at_most_one_witness :
  let w := Scenario.after Scenario.first_route in
  let w' := Scenario.after
              (Scenario.first_route ++ [SelectEvent "Road Closure"]) in
  (inflight w' = inflight w /\ loading (st w') = loading (st w)
   /\ error (st w') = error (st w))
  \/ (exists req,
        inflight w' = inflight w ++ [req]
        /\ loading (st w') = true /\ error (st w') = None).
Proof.
  exact (step_posts_at_most_one
           (Scenario.after Scenario.first_route)
           (Scenario.after
              (Scenario.first_route ++ [SelectEvent "Road Closure"]))
           (SelectEvent "Road Closure")
           ltac:(vm_compute; reflexivity)).
Defined.

Lemma step_loading_pending (w w' : World) (e : Event) :
  (loading (st w) = true -> inflight w <> []) ->
  step w e = Some w' ->
  loading (st w') = true -> inflight w' <> [].
Proof.
  intros Inv H. destruct (step_requests _ _ _ H) as (w0 & _ & R).
  destruct e;
    try (destruct R as [(R1 & R2 & _)|(c & loc & R1 & _)];
         [ rewrite R1, R2; exact Inv
         | intros _; rewrite R1; destruct (inflight w); discriminate ]).
  destruct R as (_ & _ & R2 & _). rewrite R2. discriminate.
Qed.

(** X6.  While the page shows that it is calculating, a request is in
    flight: [loading] is never left up without one. *)
Theorem loading_means_pending (trace : list Event) (w : World) :
  run initial trace = Some w ->
  loading (st w) = true ->
  inflight w <> [].
Proof.
  apply (run_invariant (fun w => loading (st w) = true -> inflight w <> [])).
  - intros w0 e w' Inv H. exact (step_loading_pending w0 w' e Inv H).
  - discriminate.
Qed.

(** X6, witness: the first request is in flight. *)
Lemma loading_means_pending_witness :
  loading (st (Scenario.after Scenario.first_request)) = true
  /\ inflight (Scenario.after Scenario.first_request) <> [].
Proof.
  split; [vm_compute; reflexivity|].
  apply (loading_means_pending Scenario.first_request);
    vm_compute; reflexivity.
Defined.

(** *** The timers keep in step with the page *)

Lemma In_dues_debounce (w : World) (due : Z) (c : State) :
  debounce w = Some (due, c) -> In due (dues w).
Proof. intros E. unfold dues. rewrite E. now left. Qed.

Lemma In_dues_poll (w : World) (due : Z) :
  poll w = Some due -> In due (dues w).
Proof.
  intros E. unfold dues. rewrite E. apply in_or_app. right. now left.
Qed.

Lemma In_dues_sim (w : World) (due : Z) (c : State) :
  sim w = Some (due, c) -> In due (dues w).
Proof.
  intros E. unfold dues. rewrite E.
  apply in_or_app. right. apply in_or_app. right. now left.
Qed.

(** The clock after a handler, against a timer that was set before it: the
    clock does not run past the timer, and does not run back. *)
Lemma handler_clock (w w0 : World) (e : Event) (due : Z) :
  handler w e = Some w0 ->
  In due (dues w) ->
  now w <= due ->
  now w <= now w0 /\ now w0 <= due.
Proof.
  intros H Hin Hdue.
  destruct (handler_pending _ _ _ H) as (_ & _ & _ & N).
  pose proof (handler_guard _ _ _ H) as G.
  destruct e; rewrite N; try lia.
  destruct G as (Hms & Hall).
  rewrite Forall_forall in Hall. specialize (Hall due Hin). lia.
Qed.

Lemma step_poll_in_step (w w' : World) (e : Event) :
  poll_in_step w -> step w e = Some w' -> poll_in_step w'.
Proof.
  unfold poll_in_step.
  intros Inv H. destruct (step_inv _ _ _ H) as (w0 & H0 & ->).
  destruct (commit_frame (st w) w0) as (C & _ & _ & _ & CN & _).
  destruct (commit_timers (st w) w0) as (_ & P).
  destruct (effects_state_frame (st w) (st w0) (st w0))
    as (_ & _ & Er & _ & _ & _ & _ & El & _).
  cbv zeta in *. rewrite P, C, CN.
  unfold has_result in *. rewrite Er, El. clear P C CN Er El.
  destruct (handler_pending _ _ _ H0) as (_ & P0 & L0 & N0).
  destruct (poll_deps_changed (st w) (st w0)) eqn:D.
  - destruct (isLiveEnabled (st w0)) eqn:L;
      destruct (result (st w0)) eqn:R; cbn; try reflexivity.
    repeat split; lia.
  - unfold poll_deps_changed in D.
    apply negb_false_iff, andb_prop in D as [D1 D2].
    apply Bool.eqb_prop in D1, D2. unfold has_result in D2.
    rewrite <- D1.
    assert (match result (st w0) with Some _ => true | None => false end
            = match result (st w) with Some _ => true | None => false end)
      as -> by (symmetry; exact D2).
    rewrite P0. destruct (poll w) as [due|] eqn:Ep.
    + destruct Inv as (I1 & I2 & I3).
      pose proof (handler_clock _ _ _ due H0 (In_dues_poll _ _ Ep)
                    (proj1 I3)) as [K1 K2].
      pose proof (handler_guard _ _ _ H0) as G.
      destruct e; cbn [option_map]; repeat split; try assumption; try lia.
      destruct G as (due' & G1 & G2 & _).
      assert (due' = due) by congruence. subst. rewrite N0. lia.
    + destruct e; exact Inv.
Qed.

(** X7.  The polling interval runs exactly while live monitoring is on and
    a result is displayed, from the render in which both first hold, and its
    next tick is never more than 12 s away. *)
Theorem polling_runs_while_live (trace : list Event) (w : World) :
  run initial trace = Some w ->
  match poll w with
  | Some due =>
      isLiveEnabled (st w) = true /\ has_result (st w) = true
      /\ now w <= due <= now w + 12000
  | None => isLiveEnabled (st w) && has_result (st w) = false
  end.
Proof.
  apply (run_invariant poll_in_step).
  - intros w0 e w' Inv H. exact (step_poll_in_step w0 w' e Inv H).
  - reflexivity.
Qed.

(** X7, witness: the user turns live monitoring on while a route is
    displayed. *)
Lemma polling_runs_while_live_witness :
  match poll (Scenario.after (Scenario.first_route ++ [ToggleLive])) with
  | Some due =>
      isLiveEnabled (st (Scenario.after (Scenario.first_route ++ [ToggleLive])))
        = true
      /\ has_result (st (Scenario.after (Scenario.first_route ++ [ToggleLive])))
         = true
      /\ now (Scenario.after (Scenario.first_route ++ [ToggleLive])) <= due
         <= now (Scenario.after (Scenario.first_route ++ [ToggleLive])) + 12000
  | None =>
      isLiveEnabled (st (Scenario.after (Scenario.first_route ++ [ToggleLive])))
      && has_result (st (Scenario.after (Scenario.first_route ++ [ToggleLive])))
      = false
  end.
Proof.
  apply (polling_runs_while_live (Scenario.first_route ++ [ToggleLive])).
  vm_compute. reflexivity.
Defined.

(** Renders with the same dependencies are as ready for a simulation. *)
Lemma same_ref_some (A : Type) (a b : option (obj A)) :
  same_ref a b = true ->
  match a with Some _ => true | None => false end
  = match b with Some _ => true | None => false end.
Proof. destruct a, b; cbn; congruence. Qed.

Lemma same_ref_refl (A : Type) (a : option (obj A)) : same_ref a a = true.
Proof. destruct a; cbn; [apply Nat.eqb_refl | reflexivity]. Qed.

Lemma same_ref_trans (A : Type) (a b c : option (obj A)) :
  same_ref a b = true -> same_ref b c = true -> same_ref a c = true.
Proof.
  destruct a, b, c; cbn; try congruence.
  intros H1 H2. apply Nat.eqb_eq in H1, H2. apply Nat.eqb_eq. congruence.
Qed.

Lemma simulation_deps_same (a b : State) :
  simulation_deps_changed a b = false <->
  same_ref (result a) (result b) = true
  /\ event a = event b
  /\ same_ref (simulatedEvent a) (simulatedEvent b) = true
  /\ loading a = loading b
  /\ hasSimulatedThisSession a = hasSimulatedThisSession b.
Proof.
  unfold simulation_deps_changed. rewrite negb_false_iff, !andb_true_iff.
  rewrite String.eqb_eq.
  split.
  - intros ((((H1 & H2) & H3) & H4) & H5).
    apply Bool.eqb_prop in H4, H5. auto.
  - intros (H1 & H2 & H3 & H4 & H5). rewrite H4, H5.
    repeat split; auto using Bool.eqb_reflx.
Qed.

Lemma simulation_deps_refl (a : State) : simulation_deps_changed a a = false.
Proof.
  apply simulation_deps_same. repeat split; apply same_ref_refl.
Qed.

Lemma simulation_deps_trans (a b c : State) :
  simulation_deps_changed a b = false ->
  simulation_deps_changed b c = false ->
  simulation_deps_changed a c = false.
Proof.
  rewrite !simulation_deps_same.
  intros (A1 & A2 & A3 & A4 & A5) (B1 & B2 & B3 & B4 & B5).
  repeat split; try congruence; eapply same_ref_trans; eauto.
Qed.

Lemma simulation_ready_same (a b : State) :
  simulation_deps_changed a b = false ->
  simulation_ready a = simulation_ready b.
Proof.
  rewrite simulation_deps_same. intros (A1 & A2 & A3 & A4 & A5).
  unfold simulation_ready, has_result, has_simulatedEvent.
  rewrite (same_ref_some _ _ _ A1), (same_ref_some _ _ _ A3), A2, A4, A5.
  reflexivity.
Qed.

Lemma step_sim_in_step (w w' : World) (e : Event) :
  sim_in_step w -> step w e = Some w' -> sim_in_step w'.
Proof.
  unfold sim_in_step.
  intros Inv H. destruct (step_inv _ _ _ H) as (w0 & H0 & ->).
  destruct (commit_frame (st w) w0) as (C & _ & S & _ & CN & _).
  cbv zeta in *. rewrite S, C, CN. clear S C CN.
  set (s1 := effects_state (st w) (st w0) (st w0)).
  destruct (simulation_deps_changed (st w0) s1) eqn:D1.
  - destruct (simulation_ready s1) eqn:R1; [|reflexivity].
    repeat split; try lia. apply simulation_deps_refl.
  - rewrite <- (simulation_ready_same _ _ D1).
    destruct (simulation_deps_changed (st w) (st w0)) eqn:D0.
    + destruct (simulation_ready (st w0)) eqn:R0; [|reflexivity].
      repeat split; try lia. exact D1.
    + rewrite <- (simulation_ready_same _ _ D0).
      destruct (handler_frame _ _ _ H0) as (_ & _ & F & T & _).
      rewrite T.
      assert (is_simfire e = true \/ is_simfire e = false) as [Hf|Hf]
        by (destruct (is_simfire e); auto).
      * destruct e; try discriminate.
        rewrite (simulation_ready_same _ _ D0).
        unfold simulation_ready. rewrite F. cbn. now rewrite andb_false_r.
      * assert (match e with SimFire _ _ => None | _ => sim w end = sim w)
          as -> by (destruct e; try discriminate; reflexivity).
        destruct (sim w) as [[due c]|] eqn:Es; [|exact Inv].
        destruct Inv as (I1 & I2 & I3).
        pose proof (handler_clock _ _ _ due H0 (In_dues_sim _ _ _ Es)
                      (proj1 I3)) as [K1 K2].
        repeat split; try assumption; try lia.
        eapply simulation_deps_trans; [exact I2|].
        eapply simulation_deps_trans; [exact D0 | exact D1].
Qed.

(** X8.  The simulation timer is pending exactly while a result is
    displayed, no event is chosen or simulated, no request is being
    calculated and the simulation has not run for the current inputs; the
    render it closes over has the dependencies of the current one, and it
    fires at most 10 s later. *)
Theorem simulation_timer_tracks_readiness (trace : list Event) (w : World) :
  run initial trace = Some w ->
  match sim w with
  | Some (due, c) =>
      simulation_ready (st w) = true
      /\ simulation_deps_changed c (st w) = false
      /\ now w <= due <= now w + 10000
  | None => simulation_ready (st w) = false
  end.
Proof.
  apply (run_invariant sim_in_step).
  - intros w0 e w' Inv H. exact (step_sim_in_step w0 w' e Inv H).
  - reflexivity.
Qed.

(** X8, witness: the first route has just been displayed. *)
Lemma simulation_timer_tracks_readiness_witness :
  match sim (Scenario.after Scenario.first_route) with
  | Some (due, c) =>
      simulation_ready (st (Scenario.after Scenario.first_route)) = true
      /\ simulation_deps_changed c (st (Scenario.after Scenario.first_route))
         = false
      /\ now (Scenario.after Scenario.first_route) <= due
         <= now (Scenario.after Scenario.first_route) + 10000
  | None => simulation_ready (st (Scenario.after Scenario.first_route)) = false
  end.
Proof.
  apply (simulation_timer_tracks_readiness Scenario.first_route).
  vm_compute. reflexivity.
Defined.

Lemma endpoints_changed_false (a b : State) :
  endpoints_changed a b = false ->
  source a = source b /\ destination a = destination b.
Proof.
  unfold endpoints_changed. rewrite negb_false_iff, andb_true_iff.
  now rewrite !String.eqb_eq.
Qed.

Lemma step_debounce_in_step (w w' : World) (e : Event) :
  debounce_in_step w -> step w e = Some w' -> debounce_in_step w'.
Proof.
  unfold debounce_in_step.
  intros Inv H. destruct (step_inv _ _ _ H) as (w0 & H0 & ->).
  destruct (commit_frame (st w) w0) as (C & _ & _ & _ & CN & _).
  destruct (commit_timers (st w) w0) as (D & _).
  destruct (effects_state_frame (st w) (st w0) (st w0)) as (Es & Ed & _).
  cbv zeta in *. rewrite D, C, CN, Es, Ed. clear D C CN Es Ed.
  destruct (handler_pending _ _ _ H0) as (D0 & _ & _ & N0).
  destruct (endpoints_changed (st w) (st w0)) eqn:E.
  - destruct (truthy (source (st w0)) && truthy (destination (st w0)))
      eqn:T; [|exact I].
    apply andb_prop in T as [T1 T2]. repeat split; auto; lia.
  - apply endpoints_changed_false in E as [E1 E2]. rewrite D0.
    destruct (debounce w) as [[due c]|] eqn:Ed;
      [|destruct e; exact I].
    destruct Inv as (I1 & I2 & I3 & I4 & I5).
    pose proof (handler_clock _ _ _ due H0 (In_dues_debounce _ _ _ Ed)
                  (proj1 I5)) as [K1 K2].
    destruct e; try exact I; repeat split; try congruence; try lia.
Qed.

Lemma run_debounce_in_step (trace : list Event) (w : World) :
  run initial trace = Some w -> debounce_in_step w.
Proof.
  apply (run_invariant debounce_in_step).
  - intros w0 e w' Inv H. exact (step_debounce_in_step w0 w' e Inv H).
  - exact I.
Qed.

(** X9.  At most one recalculation is pending after the user has typed: the
    debounce timer that is set closes over the inputs as they are now, both
    filled in, and fires at most 2.5 s later. *)
Theorem debounce_holds_current_inputs (trace : list Event) (w : World)
    (due : Z) (c : State) :
  run initial trace = Some w ->
  debounce w = Some (due, c) ->
  source c = source (st w) /\ destination c = destination (st w)
  /\ truthy (source c) = true /\ truthy (destination c) = true
  /\ now w <= due <= now w + 2500.
Proof.
  intros Hrun E. pose proof (run_debounce_in_step trace w Hrun) as Inv.
  unfold debounce_in_step in Inv. rewrite E in Inv. exact Inv.
Qed.

(** X9, witness: the user has typed A, then B, and one second has passed. *)
Lemma debounce_holds_current_inputs_witness :
  let w := Scenario.after [EditSource "A"; EditDestination "B"; Elapse 1000] in
  let c := set_destination "B" (set_source "A" initial_state) in
  debounce w = Some (2500, c)
  /\ source c = source (st w) /\ destination c = destination (st w)
  /\ now w <= 2500 <= now w + 2500.
Proof.
  pose proof (debounce_holds_current_inputs
    [EditSource "A"; EditDestination "B"; Elapse 1000]
    (Scenario.after [EditSource "A"; EditDestination "B"; Elapse 1000])
    2500 (set_destination "B" (set_source "A" initial_state))
    ltac:(vm_compute; reflexivity) ltac:(vm_compute; reflexivity))
    as (H1 & H2 & _ & _ & H5).
  cbv zeta. split; [vm_compute; reflexivity|].
  split; [exact H1|]. split; [exact H2 | exact H5].
Defined.

(** *** The user types in an input *)

(** After a handler that leaves the inputs alone and is not followed by the
    effect on [event], the effects set no state and post nothing; they only
    look after the timers of the polling and of the simulation. *)
Lemma commit_no_effect (old : State) (w : World) :
  endpoints_changed old (st w) = false ->
  event_recalculates old (st w) = false ->
  st (commit old w) = st w
  /\ inflight (commit old w) = inflight w
  /\ debounce (commit old w) = debounce w
  /\ sim (commit old w)
     = (if simulation_deps_changed old (st w)
        then if simulation_ready (st w)
             then Some (now w + 10000, st w) else None
        else sim w)
  /\ now (commit old w) = now w
  /\ next_addr (commit old w) = next_addr w.
Proof.
  intros He Hr.
  destruct (commit_frame old w) as (C1 & C2 & C3 & _ & C5 & C6).
  destruct (commit_timers old w) as (D & _).
  cbv zeta in *.
  assert (effects_state old (st w) (st w) = st w) as E.
  { unfold effects_state, debounce_resets. now rewrite He, Hr. }
  rewrite E in C1, C3. rewrite simulation_deps_refl in C3.
  rewrite Hr, app_nil_r in C2. rewrite He in D.
  repeat split; assumption.
Qed.

Lemma step_edit (w w' : World) (e : Event) :
  step w e = Some w' ->
  is_edit e = true ->
  let c := edited e (st w) in
  st w' = effects_state (st w) c c
  /\ inflight w' = inflight w
  /\ debounce w'
     = (if endpoints_changed (st w) c
        then if truthy (source c) && truthy (destination c)
             then Some (now w + 2500, c) else None
        else debounce w)
  /\ event c = event (st w) /\ simulatedEvent c = simulatedEvent (st w)
  /\ showNotification c = showNotification (st w)
  /\ result c = result (st w).
Proof.
  intros H Hedit. cbv zeta.
  destruct (step_inv _ _ _ H) as (w0 & H0 & ->).
  assert (w0 = with_st (edited e (st w)) w) as ->.
  { destruct e; try discriminate; cbn in H0; now injection H0 as <-. }
  set (c := edited e (st w)) in *.
  destruct (commit_frame (st w) (with_st c w)) as (C1 & C2 & _).
  destruct (commit_timers (st w) (with_st c w)) as (D & _).
  cbv zeta in *. cbn [st with_st inflight debounce now] in *.
  assert (event c = event (st w) /\ simulatedEvent c = simulatedEvent (st w)
          /\ showNotification c = showNotification (st w)
          /\ result c = result (st w))
    as (Ke & Kv & Kn & Kr)
    by (subst c; destruct e; try discriminate; cbn; auto).
  assert (event_recalculates (st w) c = false) as R
    by (unfold event_recalculates; now rewrite Ke, String.eqb_refl).
  rewrite R, app_nil_r in C2.
  repeat split; assumption.
Qed.

(** X10.  An edit that changes the pair of inputs posts nothing by itself
    and lowers the flag of the simulation.  If both inputs are then filled
    in, it clears the chosen event, the simulated event and the
    notification, and sets the debounce timer 2.5 s ahead, in place of the
    one that was pending; if an input is empty, it only cancels the pending
    timer. *)
Theorem edit_restarts_debounce (w w' : World) (e : Event) :
  step w e = Some w' ->
  is_edit e = true ->
  endpoints_changed (st w) (edited e (st w)) = true ->
  let c := edited e (st w) in
  inflight w' = inflight w
  /\ hasSimulatedThisSession (st w') = false
  /\ source (st w') = source c /\ destination (st w') = destination c
  /\ result (st w') = result (st w)
  /\ if truthy (source c) && truthy (destination c)
     then debounce w' = Some (now w + 2500, c)
          /\ simulatedEvent (st w') = None
          /\ event (st w') = EmptyString
          /\ showNotification (st w') = false
     else debounce w' = None
          /\ simulatedEvent (st w') = simulatedEvent (st w)
          /\ event (st w') = event (st w)
          /\ showNotification (st w') = showNotification (st w).
Proof.
  intros H Hedit Hch. cbv zeta.
  destruct (step_edit w w' e H Hedit) as (S & I & D & Ke & Kv & Kn & Kr).
  cbv zeta in *. set (c := edited e (st w)) in *.
  destruct (effects_state_frame (st w) c c)
    as (Es & Ed & Er & _ & _ & _ & _ & _ & Ee & En & Ef).
  destruct (effects_state_requests (st w) c c) as (_ & _ & Ev & _).
  cbv zeta in *.
  rewrite S, I, D, Es, Ed, Er, Ee, En, Ef, Ev.
  unfold debounce_resets. rewrite Hch. cbn [andb].
  destruct (truthy (source c) && truthy (destination c));
    repeat split; assumption.
Qed.

(** X10, witness: a route from A to B is displayed and the simulated event
    is active; the user changes the destination to C. *)
Lemma edit_restarts_debounce_witness :
  let w := Scenario.after Scenario.simulation_fired in
  let w' := Scenario.after
              (Scenario.simulation_fired ++ [EditDestination "C"]) in
  debounce w' = Some (now w + 2500, set_destination "C" (st w))
  /\ simulatedEvent (st w') = None
  /\ event (st w') = EmptyString
  /\ showNotification (st w') = false.
Proof.
  pose proof (edit_restarts_debounce
    (Scenario.after Scenario.simulation_fired)
    (Scenario.after (Scenario.simulation_fired ++ [EditDestination "C"]))
    (EditDestination "C")
    ltac:(vm_compute; reflexivity)
    ltac:(vm_compute; reflexivity)
    ltac:(vm_compute; reflexivity)) as H.
  vm_compute in H. vm_compute. tauto.
Defined.

(** *** The debounce timer fires *)

Lemma debounced_eq (c : State) (w : World) :
  debounced c w = if inputs_differ c then handleSubmit c None w else w.
Proof. reflexivity. Qed.

Lemma step_debounce_fire (w w' : World) :
  step w DebounceFire = Some w' ->
  exists due c,
    debounce w = Some (due, c) /\ due <= now w
    /\ debounce w' = None
    /\ now w' = now w
    /\ if inputs_differ c
       then inflight w' = inflight w ++ [mkRequest c None]
            /\ st w' = set_activeStepIndex None
                         (set_error None (set_loading true (st w)))
       else inflight w' = inflight w /\ st w' = st w.
Proof.
  intros H. destruct (step_inv _ _ _ H) as (w0 & H0 & ->).
  destruct (handler_guard _ _ _ H0) as (due & c & E & Hdue).
  exists due, c. split; [exact E|]. split; [exact Hdue|].
  unfold handler in H0. rewrite E in H0.
  destruct (due <=? now w); [|discriminate]. injection H0 as <-.
  rewrite debounced_eq.
  destruct (inputs_differ c).
  - destruct (commit_no_effect (st w)
                (handleSubmit c None (with_debounce None w)))
      as (Q1 & Q2 & Q3 & _ & Q5 & _).
    { apply endpoints_changed_same; reflexivity. }
    { unfold event_recalculates. cbn. now rewrite String.eqb_refl. }
    rewrite Q1, Q2, Q3, Q5. repeat split.
  - destruct (commit_no_effect (st w) (with_debounce None w))
      as (Q1 & Q2 & Q3 & _ & Q5 & _).
    { apply endpoints_changed_same; reflexivity. }
    { unfold event_recalculates. cbn. now rewrite String.eqb_refl. }
    rewrite Q1, Q2, Q3, Q5. repeat split.
Qed.

(** X11.  When the debounce timer fires it is exactly due, and the render
    it closes over has the inputs the page has now.  It posts one request
    with these inputs, unless they are the display names of the start and
    end points of the result that render displayed; then it does nothing. *)
Theorem debounce_fires_with_current_inputs (trace : list Event)
    (w w' : World) :
  run initial trace = Some w ->
  step w DebounceFire = Some w' ->
  exists c,
    debounce w = Some (now w, c)
    /\ debounce w' = None
    /\ source c = source (st w) /\ destination c = destination (st w)
    /\ if inputs_differ c
       then inflight w' = inflight w ++ [mkRequest c None]
            /\ p_source (payload_of (mkRequest c None)) = source (st w')
            /\ p_destination (payload_of (mkRequest c None))
               = destination (st w')
            /\ loading (st w') = true
       else inflight w' = inflight w /\ st w' = st w.
Proof.
  intros Hrun H.
  destruct (step_debounce_fire _ _ H) as (due & c & E & Hdue & D & _ & P).
  pose proof (run_debounce_in_step trace w Hrun) as Inv.
  unfold debounce_in_step in Inv. rewrite E in Inv.
  destruct Inv as (I1 & I2 & _ & _ & I5 & _).
  assert (due = now w) as -> by lia.
  exists c. repeat split; try assumption.
  destruct (inputs_differ c); [|exact P].
  destruct P as (P1 & P2). rewrite P2. cbn. repeat split; assumption.
Qed.

(** X11, witness: the first request of the session. *)
Lemma debounce_fires_with_current_inputs_witness :
  exists c,
    debounce (Scenario.after [EditSource "A"; EditDestination "B";
                              Elapse 2500])
      = Some (2500, c)
    /\ source c = "A" /\ destination c = "B".
Proof.
  destruct (debounce_fires_with_current_inputs
    [EditSource "A"; EditDestination "B"; Elapse 2500]
    (Scenario.after [EditSource "A"; EditDestination "B"; Elapse 2500])
    (Scenario.after Scenario.first_request)
    ltac:(vm_compute; reflexivity) ltac:(vm_compute; reflexivity))
    as (c & H1 & _ & H3 & H4 & _).
  exists c. vm_compute in H1, H3, H4. vm_compute.
  split; [exact H1|]. split; [exact H3 | exact H4].
Defined.

Lemma step_elapse (w w' : World) (ms : Z) :
  step w (Elapse ms) = Some w' ->
  st w' = st w /\ inflight w' = inflight w /\ debounce w' = debounce w
  /\ sim w' = sim w /\ now w' = now w + ms.
Proof.
  intros H. destruct (step_inv _ _ _ H) as (w0 & H0 & ->).
  unfold handler in H0.
  destruct ((0 <? ms) && forallb _ (dues w)); [|discriminate].
  injection H0 as <-.
  destruct (commit_no_effect (st w) (with_now (now w + ms) w))
    as (Q1 & Q2 & Q3 & Q4 & Q5 & _).
  { apply endpoints_changed_same; reflexivity. }
  { unfold event_recalculates. cbn. now rewrite String.eqb_refl. }
  cbn [st with_now] in Q4. rewrite simulation_deps_refl in Q4.
  rewrite Q1, Q2, Q3, Q4, Q5. repeat split.
Qed.

(** X12.  The request the debounce timer posts is built from the render of
    the edit that set the timer, before the effects of that render ran: if a
    simulated event was active then, the edit has cleared it from the page,
    and yet the request carries its name, its severity and its location. *)
Theorem debounced_request_carries_cleared_event (w w1 w2 : World)
    (e : Event) (ev : obj MockEvent.t) (ms : Z) :
  step w e = Some w1 ->
  is_edit e = true ->
  endpoints_changed (st w) (edited e (st w)) = true ->
  truthy (source (edited e (st w)))
  && truthy (destination (edited e (st w))) = true ->
  inputs_differ (edited e (st w)) = true ->
  simulatedEvent (st w) = Some ev ->
  run w1 [Elapse ms; DebounceFire] = Some w2 ->
  simulatedEvent (st w2) = None
  /\ event (st w2) = EmptyString
  /\ exists req,
       inflight w2 = inflight w ++ [req]
       /\ p_source (payload_of req) = source (st w2)
       /\ p_destination (payload_of req) = destination (st w2)
       /\ p_event (payload_of req)
          = str_or (MockEvent.event_name (val ev)) "Accident"
       /\ p_event_severity (payload_of req) = MockEvent.severity (val ev)
       /\ p_event_location (payload_of req)
          = Some (MockEvent.lat (val ev), MockEvent.lon (val ev)).
Proof.
  intros H Hedit Hch Hfilled Hdiff Hev Hrun.
  destruct (step_edit w w1 e H Hedit) as (S & A1 & A6 & _).
  cbv zeta in *. rewrite Hch, Hfilled in A6.
  destruct (effects_state_frame (st w) (edited e (st w)) (edited e (st w)))
    as (A3 & A4 & _ & _ & _ & _ & _ & _ & A8 & _).
  destruct (effects_state_requests (st w) (edited e (st w))
              (edited e (st w))) as (_ & _ & A7 & _).
  cbv zeta in *. rewrite <- S in A3, A4, A7, A8.
  unfold debounce_resets in A7, A8. rewrite Hch in A7, A8.
  cbn [andb] in A7, A8. rewrite Hfilled in A7, A8.
  cbn [run] in Hrun.
  destruct (step w1 (Elapse ms)) as [wm|] eqn:Em; [|discriminate].
  destruct (step wm DebounceFire) as [wf|] eqn:Ef; [|discriminate].
  injection Hrun as <-.
  destruct (step_elapse _ _ _ Em) as (B1 & B2 & B3 & _).
  destruct (step_debounce_fire _ _ Ef) as (due & c & C1 & _ & _ & _ & C5).
  rewrite B3, A6 in C1. injection C1 as <- <-.
  rewrite Hdiff in C5. destruct C5 as (C5 & C6).
  rewrite C6, B1. cbn. rewrite A7, A8, A3, A4.
  repeat match goal with |- _ /\ _ => split end; try reflexivity.
  exists (mkRequest (edited e (st w)) None).
  rewrite C5, B2, A1.
  assert (simulatedEvent (edited e (st w)) = Some ev) as Kv
    by (destruct e; try discriminate; exact Hev).
  unfold payload_of. cbn [closure eventLocation]. rewrite Kv. cbn.
  repeat split.
Qed.

(** X12, witness: a route from A to B is displayed and the simulated event
    is active; the user changes the destination to C and waits. *)
Lemma debounced_request_carries_cleared_event_witness :
  let w := Scenario.after Scenario.simulation_fired in
  let w2 := Scenario.after
              (Scenario.simulation_fired
               ++ [EditDestination "C"; Elapse 2500; DebounceFire]) in
  simulatedEvent (st w2) = None
  /\ exists req,
       inflight w2 = inflight w ++ [req]
       /\ p_destination (payload_of req) = "C"
       /\ p_event_severity (payload_of req) = "HIGH".
Proof.
  destruct (debounced_request_carries_cleared_event
    (Scenario.after Scenario.simulation_fired)
    (Scenario.after (Scenario.simulation_fired ++ [EditDestination "C"]))
    (Scenario.after
       (Scenario.simulation_fired
        ++ [EditDestination "C"; Elapse 2500; DebounceFire]))
    (EditDestination "C")
    (Obj 1%nat (MockEvent.mk 12500 "Political meeting" "HIGH"
                  12.999000000000001 77.748999999999995 500))
    2500
    ltac:(vm_compute; reflexivity) ltac:(vm_compute; reflexivity)
    ltac:(vm_compute; reflexivity) ltac:(vm_compute; reflexivity)
    ltac:(vm_compute; reflexivity) ltac:(vm_compute; reflexivity)
    ltac:(vm_compute; reflexivity))
    as (H1 & _ & req & H3 & _ & H5 & _ & H7 & _).
  cbv zeta. split; [exact H1|].
  exists req. vm_compute in H5, H7.
  split; [exact H3|]. split; [exact H5 | exact H7].
Defined.

(** *** The simulation timer fires *)

Lemma simulate_frame (w : World) (due : Z) (c : State) (u1 u2 : float) :
  sim w = Some (due, c) ->
  let w0 := simulate c u1 u2 (with_sim None w) in
  sim w0 = None /\ debounce w0 = debounce w /\ now w0 = now w
  /\ match mock_event w u1 u2 with
     | Some ev =>
         st w0
         = set_activeStepIndex None
             (set_error None
                (set_loading true
                   (set_event (mock_label u2)
                      (set_showNotification true
                         (set_simulatedEvent (Some ev)
                            (set_hasSimulatedThisSession true (st w)))))))
         /\ inflight w0 = inflight w ++ [mkRequest c (Some ev)]
         /\ MockEvent.event_name (val ev) = mock_label u2
         /\ MockEvent.severity (val ev) = "HIGH"
         /\ MockEvent.affected_radius (val ev) = 500
         /\ MockEvent.event_id (val ev) = now w
         /\ (exists r, result c = Some r
                       /\ pick_location (val r) u1
                          = Some (MockEvent.lat (val ev),
                                  MockEvent.lon (val ev)))
     | None =>
         st w0 = set_hasSimulatedThisSession true (st w)
         /\ inflight w0 = inflight w
     end.
Proof.
  intros E. cbv zeta. unfold simulate, mock_event, mock_label, alloc.
  rewrite E.
  destruct (result c) as [r|]; [|cbn; repeat split].
  destruct (pick_location (val r) u1) as [[la lo]|] eqn:P;
    [|cbn; repeat split].
  cbn. repeat split. exists r. split; [reflexivity | exact P].
Qed.

Lemma step_sim_fire (w w' : World) (u1 u2 : float) :
  step w (SimFire u1 u2) = Some w' ->
  exists due c,
    sim w = Some (due, c) /\ due <= now w
    /\ sim w' = None
    /\ hasSimulatedThisSession (st w') = true
    /\ match mock_event w u1 u2 with
       | Some ev =>
           inflight w' = inflight w ++ [mkRequest c (Some ev)]
           /\ simulatedEvent (st w') = Some ev
           /\ showNotification (st w') = true
           /\ event (st w') = mock_label u2
           /\ loading (st w') = true
           /\ result (st w') = result (st w)
           /\ MockEvent.event_name (val ev) = mock_label u2
           /\ MockEvent.severity (val ev) = "HIGH"
           /\ (exists r, result c = Some r
                         /\ pick_location (val r) u1
                            = Some (MockEvent.lat (val ev),
                                    MockEvent.lon (val ev)))
       | None =>
           inflight w' = inflight w
           /\ st w' = set_hasSimulatedThisSession true (st w)
       end.
Proof.
  intros H. destruct (step_inv _ _ _ H) as (w0 & H0 & ->).
  destruct (handler_guard _ _ _ H0) as (due & c & E & Hdue & _).
  exists due, c. split; [exact E|]. split; [exact Hdue|].
  unfold handler in H0. rewrite E in H0.
  destruct ((due <=? now w) && unit_interval u1 && unit_interval u2);
    [|discriminate].
  injection H0 as <-.
  destruct (simulate_frame w due c u1 u2 E) as (S1 & _ & _ & S4).
  cbv zeta in *.
  set (w0 := simulate c u1 u2 (with_sim None w)) in *.
  assert (hasSimulatedThisSession (st w0) = true
          /\ endpoints_changed (st w) (st w0) = false
          /\ event_recalculates (st w) (st w0) = false) as (Kf & Ke & Kr).
  { destruct (mock_event w u1 u2) as [ev|].
    - destruct S4 as (S4 & _). rewrite S4.
      split; [reflexivity|]. split.
      + apply endpoints_changed_same; reflexivity.
      + unfold event_recalculates. cbn. now rewrite !andb_false_r.
    - destruct S4 as (S4 & _). rewrite S4.
      split; [reflexivity|]. split.
      + apply endpoints_changed_same; reflexivity.
      + unfold event_recalculates. cbn. now rewrite String.eqb_refl. }
  destruct (commit_no_effect (st w) w0 Ke Kr) as (Q1 & Q2 & _ & Q4 & _).
  rewrite Q1, Q2, Q4, S1, Kf.
  assert (simulation_ready (st w0) = false) as ->
    by (unfold simulation_ready; rewrite Kf; cbn; now rewrite andb_false_r).
  split; [now destruct (simulation_deps_changed _ _)|].
  split; [reflexivity|].
  destruct (mock_event w u1 u2) as [ev|].
  - destruct S4 as (S4 & S5 & S6 & S7 & _ & _ & S10). rewrite S4, S5. cbn.
    repeat split; assumption.
  - exact (conj (proj2 S4) (proj1 S4)).
Qed.

(** X13.  When the simulation timer fires it raises the flag of the
    simulation and is not set again by that.  If it finds a place for its
    event (an entry of the detailed geometry, or else a point next to the
    end point), it posts exactly one request, from the render that set the
    timer and with the mock event as its second argument: severity HIGH and
    the place found go into the payload; the mock event, its name as the
    chosen event and the notification go onto the page, and the effect on
    [event] does not post a second request.  If it finds no place, it only
    raises the flag. *)
Theorem simulation_posts_one_request (w w' : World) (u1 u2 : float) :
  step w (SimFire u1 u2) = Some w' ->
  exists due c,
    sim w = Some (due, c)
    /\ sim w' = None
    /\ hasSimulatedThisSession (st w') = true
    /\ match mock_event w u1 u2 with
       | Some ev =>
           inflight w' = inflight w ++ [mkRequest c (Some ev)]
           /\ simulatedEvent (st w') = Some ev
           /\ showNotification (st w') = true
           /\ event (st w') = MockEvent.event_name (val ev)
           /\ loading (st w') = true
           /\ p_source (payload_of (mkRequest c (Some ev))) = source c
           /\ p_destination (payload_of (mkRequest c (Some ev)))
              = destination c
           /\ p_event_severity (payload_of (mkRequest c (Some ev))) = "HIGH"
           /\ (exists r, result c = Some r
                 /\ pick_location (val r) u1
                    = p_event_location (payload_of (mkRequest c (Some ev))))
       | None =>
           inflight w' = inflight w
           /\ st w' = set_hasSimulatedThisSession true (st w)
       end.
Proof.
  intros H.
  destruct (step_sim_fire _ _ _ _ H) as (due & c & E & _ & S1 & S2 & S3).
  exists due, c. split; [exact E|]. split; [exact S1|]. split; [exact S2|].
  destruct (mock_event w u1 u2) as [ev|]; [|exact S3].
  destruct S3 as (A1 & A2 & A3 & A4 & A5 & _ & A7 & A8 & A9).
  unfold payload_of. cbn [closure eventLocation].
  rewrite A7, A8. repeat split; assumption.
Qed.

(** X13, witness: the simulation fires while [route_AB] is displayed. *)
Lemma simulation_posts_one_request_witness :
  let w := Scenario.after (Scenario.first_route ++ [Elapse 10000]) in
  let w' := Scenario.after Scenario.simulation_fired in
  exists due c,
    sim w = Some (due, c) /\ sim w' = None
    /\ hasSimulatedThisSession (st w') = true
    /\ List.length (inflight w') = S (List.length (inflight w)).
Proof.
  destruct (simulation_posts_one_request
    (Scenario.after (Scenario.first_route ++ [Elapse 10000]))
    (Scenario.after Scenario.simulation_fired) 0.5 0.5
    ltac:(vm_compute; reflexivity))
    as (due & c & H1 & H2 & H3 & _).
  cbv zeta. exists due, c.
  split; [exact H1|]. split; [exact H2|]. split; [exact H3|].
  vm_compute. reflexivity.
Defined.

(** X14.  Typing in an input while the page is ready for a simulation does
    not restart the simulation timer: the timer stays as it is, with the
    render it closed over, and so with the inputs as they were before the
    edit. *)
Theorem edit_keeps_simulation_timer (w w' : World) (e : Event) :
  step w e = Some w' ->
  is_edit e = true ->
  simulation_ready (st w) = true ->
  sim w' = sim w /\ simulation_ready (st w') = true.
Proof.
  intros H Hedit Hready.
  destruct (step_inv _ _ _ H) as (w0 & H0 & ->).
  assert (w0 = with_st (edited e (st w)) w) as ->.
  { destruct e; try discriminate; cbn in H0; now injection H0 as <-. }
  set (c := edited e (st w)) in *.
  destruct (commit_frame (st w) (with_st c w)) as (C1 & _ & C3 & _).
  cbv zeta in *. cbn [st with_st sim now] in *. rewrite C1, C3.
  clear C1 C3.
  unfold simulation_ready in Hready.
  apply andb_prop in Hready as [Hready H5].
  apply andb_prop in Hready as [Hready H4].
  apply andb_prop in Hready as [Hready H3].
  apply andb_prop in Hready as [H1 H2].
  apply negb_true_iff in H2, H3, H4, H5.
  unfold truthy in H2. apply negb_false_iff, String.eqb_eq in H2.
  unfold has_simulatedEvent in H3.
  destruct (simulatedEvent (st w)) as [ev|] eqn:Hv; [discriminate|].
  assert (result c = result (st w) /\ event c = EmptyString
          /\ simulatedEvent c = None /\ loading c = false
          /\ hasSimulatedThisSession c = false)
    as (Kr & Ke & Kv & Kl & Kf)
    by (subst c; destruct e; try discriminate; cbn; auto).
  assert (simulation_deps_changed (st w) c = false) as D0.
  { apply simulation_deps_same. rewrite Kr, Ke, Kv, Kl, Kf, Hv, H2, H4, H5.
    repeat split; apply same_ref_refl. }
  set (s1 := effects_state (st w) c c).
  assert (simulation_deps_changed c s1 = false) as D1.
  { apply simulation_deps_same.
    destruct (effects_state_frame (st w) c c)
      as (_ & _ & Er & _ & _ & _ & _ & _ & Ee & _ & Ef).
    destruct (effects_state_requests (st w) c c) as (El & _ & Ev & _).
    cbv zeta in *. fold s1 in Er, Ee, Ef, El, Ev.
    assert (event_recalculates (st w) c = false) as Hr
      by (unfold event_recalculates; now rewrite Ke, H2).
    rewrite Hr in El.
    rewrite Er, Ee, Ef, El, Ev, Ke, Kv, Kf.
    repeat split; try apply same_ref_refl;
      try (now destruct (debounce_resets (st w) c));
      now destruct (endpoints_changed (st w) c). }
  rewrite D1, D0. split; [reflexivity|].
  rewrite <- (simulation_ready_same _ _ D1),
    <- (simulation_ready_same _ _ D0).
  unfold simulation_ready, truthy, has_simulatedEvent.
  now rewrite H1, H2, Hv, H4, H5.
Qed.

(** X14, witness: [route_AB] has been displayed for five seconds when the
    user changes the destination to C; the timer still closes over the
    destination B. *)
Lemma edit_keeps_simulation_timer_witness :
  let w := Scenario.after (Scenario.first_route ++ [Elapse 5000]) in
  let w' := Scenario.after
              (Scenario.first_route ++ [Elapse 5000; EditDestination "C"]) in
  sim w' = sim w
  /\ option_map destination (timer_closure (sim w')) = Some "B"
  /\ destination (st w') = "C".
Proof.
  pose proof (edit_keeps_simulation_timer
    (Scenario.after (Scenario.first_route ++ [Elapse 5000]))
    (Scenario.after
       (Scenario.first_route ++ [Elapse 5000; EditDestination "C"]))
    (EditDestination "C")
    ltac:(vm_compute; reflexivity) ltac:(vm_compute; reflexivity)
    ltac:(vm_compute; reflexivity)) as [H _].
  cbv zeta. split; [exact H|]. split; vm_compute; reflexivity.
Defined.

(** *** The chosen event changes *)

(** The effects after a handler that leaves the inputs alone. *)
Lemma commit_event (old : State) (w : World) :
  endpoints_changed old (st w) = false ->
  st (commit old w)
    = (if event_recalculates old (st w)
       then set_activeStepIndex None
              (set_error None (set_loading true (st w)))
       else st w)
  /\ inflight (commit old w)
     = inflight w
       ++ (if event_recalculates old (st w)
           then [mkRequest (st w) None] else []).
Proof.
  intros He. destruct (commit_frame old w) as (C1 & C2 & _).
  cbv zeta in *. split; [|exact C2].
  rewrite C1. unfold effects_state, debounce_resets. now rewrite He.
Qed.

(** X15.  The user chooses an option of the event select.  One request is
    posted, from the render that follows, if the option differs from the
    event chosen before, is not the option for no event, a result is
    displayed and no simulated event is active; its payload carries the
    option as the event, severity LOW and no event location.  Otherwise
    nothing is posted: choosing the option for no event never recalculates
    the route. *)
Theorem select_event_recalculates (w w' : World) (value : string) :
  step w (SelectEvent value) = Some w' ->
  let new := set_event value (st w) in
  In value eventTypes
  /\ event (st w') = value
  /\ (if event_recalculates (st w) new
      then inflight w' = inflight w ++ [mkRequest new None]
           /\ loading (st w') = true
           /\ p_event (payload_of (mkRequest new None)) = value
           /\ p_event_severity (payload_of (mkRequest new None)) = "LOW"
           /\ p_event_location (payload_of (mkRequest new None)) = None
      else inflight w' = inflight w /\ st w' = new)
  /\ (value = EmptyString -> inflight w' = inflight w).
Proof.
  intros H. cbv zeta.
  destruct (step_inv _ _ _ H) as (w0 & H0 & ->).
  unfold handler in H0.
  destruct (existsb (String.eqb value) eventTypes) eqn:Hin; [|discriminate].
  injection H0 as <-.
  apply existsb_exists in Hin as (v & Hv & Heq).
  apply String.eqb_eq in Heq. subst v.
  split; [exact Hv|].
  destruct (commit_event (st w) (set set_event value w)) as (C1 & C2).
  { apply endpoints_changed_same; reflexivity. }
  cbn [st set with_st inflight] in C1, C2. rewrite C1, C2.
  set (new := set_event value (st w)).
  destruct (event_recalculates (st w) new) eqn:R.
  - split; [reflexivity|]. split.
    + unfold event_recalculates in R.
      apply andb_prop in R as [_ R]. apply andb_prop in R as [_ R].
      apply negb_true_iff in R. unfold has_simulatedEvent in R.
      unfold payload_of. cbn [closure eventLocation].
      destruct (simulatedEvent new); [discriminate|]. repeat split.
    + intros ->. unfold event_recalculates in R. cbn in R.
      now rewrite andb_false_r in R.
  - rewrite app_nil_r. repeat split.
Qed.

(** X15, witness: the user chooses Road Closure while [route_AB] is
    displayed. *)
Lemma select_event_recalculates_witness :
  let w := Scenario.after Scenario.first_route in
  let w' := Scenario.after
              (Scenario.first_route ++ [SelectEvent "Road Closure"]) in
  event (st w') = "Road Closure"
  /\ inflight w' = inflight w ++ [mkRequest (set_event "Road Closure" (st w))
                                     None].
Proof.
  pose proof (select_event_recalculates
    (Scenario.after Scenario.first_route)
    (Scenario.after (Scenario.first_route ++ [SelectEvent "Road Closure"]))
    "Road Closure" ltac:(vm_compute; reflexivity)) as H.
  vm_compute in H. vm_compute. tauto.
Defined.

Lemma polled_eq (u1 u2 : float) (w : World) :
  polled u1 u2 w
    = if PrimFloat.ltb 0.8 u1 then set set_event (mock_label u2) w else w.
Proof. reflexivity. Qed.

(** X16.  A tick of the polling.  With a random value of at most 0.8 it
    changes nothing.  Otherwise it sets the chosen event to the label it
    draws, and one request is posted, from the render that follows, if the
    label differs from the event chosen before and no simulated event is
    active; while a simulated event is active the label is set and nothing
    is posted. *)
Theorem poll_tick_recalculates (w w' : World) (u1 u2 : float) :
  step w (PollTick u1 u2) = Some w' ->
  let new := set_event (mock_label u2) (st w) in
  result (st w') = result (st w)
  /\ simulatedEvent (st w') = simulatedEvent (st w)
  /\ (if PrimFloat.ltb 0.8 u1
      then event (st w') = mock_label u2
           /\ if event_recalculates (st w) new
              then inflight w' = inflight w ++ [mkRequest new None]
                   /\ loading (st w') = true
              else inflight w' = inflight w /\ st w' = new
      else inflight w' = inflight w /\ st w' = st w)
  /\ (has_simulatedEvent (st w) = true -> inflight w' = inflight w).
Proof.
  intros H. cbv zeta.
  destruct (step_inv _ _ _ H) as (w0 & H0 & ->).
  unfold handler in H0.
  destruct (poll w) as [due|]; [|discriminate].
  destruct ((due <=? now w) && unit_interval u1 && unit_interval u2);
    [|discriminate].
  injection H0 as <-. rewrite polled_eq.
  set (new := set_event (mock_label u2) (st w)).
  destruct (PrimFloat.ltb 0.8 u1).
  - destruct (commit_event (st w)
                (set set_event (mock_label u2)
                   (with_poll (Some (due + 12000)) w))) as (C1 & C2).
    { apply endpoints_changed_same; reflexivity. }
    cbn [st set with_st with_poll inflight] in C1, C2. fold new in C1, C2.
    rewrite C1, C2.
    destruct (event_recalculates (st w) new) eqn:R.
    + repeat split. intros Hv. unfold event_recalculates in R.
      change (has_simulatedEvent new) with (has_simulatedEvent (st w)) in R.
      rewrite Hv in R. cbn [negb] in R. now rewrite !andb_false_r in R.
    + rewrite app_nil_r. repeat split.
  - destruct (commit_event (st w) (with_poll (Some (due + 12000)) w))
      as (C1 & C2).
    { apply endpoints_changed_same; reflexivity. }
    cbn [st with_poll inflight] in C1, C2.
    assert (event_recalculates (st w) (st w) = false) as E
      by (unfold event_recalculates; now rewrite String.eqb_refl).
    rewrite E, app_nil_r in *. rewrite C1, C2. repeat split.
Qed.

(** X16, witness: live monitoring is on, and the first tick draws 0.9 and
    then 0.5. *)
Lemma poll_tick_recalculates_witness :
  let w := Scenario.after
             (Scenario.first_route ++ [ToggleLive; Elapse 10000;
                                       SimFire 0.5 0.5; Elapse 2000]) in
  let w' := Scenario.after
              (Scenario.first_route ++ [ToggleLive; Elapse 10000;
                                        SimFire 0.5 0.5; Elapse 2000;
                                        PollTick 0.9 0.5]) in
  has_simulatedEvent (st w) = true /\ inflight w' = inflight w.
Proof.
  pose proof (poll_tick_recalculates
    (Scenario.after
       (Scenario.first_route ++ [ToggleLive; Elapse 10000;
                                 SimFire 0.5 0.5; Elapse 2000]))
    (Scenario.after
       (Scenario.first_route ++ [ToggleLive; Elapse 10000;
                                 SimFire 0.5 0.5; Elapse 2000;
                                 PollTick 0.9 0.5]))
    0.9 0.5 ltac:(vm_compute; reflexivity)) as (_ & _ & _ & H).
  cbv zeta.
  assert (has_simulatedEvent
            (st (Scenario.after
                   (Scenario.first_route ++ [ToggleLive; Elapse 10000;
                                             SimFire 0.5 0.5; Elapse 2000])))
          = true) as Hv by (vm_compute; reflexivity).
  split; [exact Hv | exact (H Hv)].
Defined.

(** *** What the pending callbacks close over *)

Lemma Forall_remove_nth (A : Type) (P : A -> Prop) (l : list A) (k : nat) :
  Forall P l -> Forall P (remove_nth k l).
Proof.
  rewrite !Forall_forall. intros H x Hx.
  apply H. eapply In_remove_nth. exact Hx.
Qed.

Lemma handler_closes_over_current (w w0 : World) (e : Event) :
  closes_over_current (st w) ->
  handler w e = Some w0 ->
  closes_over_current (st w0).
Proof.
  unfold closes_over_current. intros HP H0.
  destruct (handler_frame _ _ _ H0) as (_ & _ & _ & _ & _ & R).
  destruct e; try destruct resp; destruct R as [R1 R2]; congruence.
Qed.

Lemma step_closures_current (w w' : World) (e : Event) :
  closures_current w -> step w e = Some w' -> closures_current w'.
Proof.
  unfold closures_current.
  intros (I1 & I2 & I3 & I4) H.
  pose proof (step_previous_result w w' e I1 H) as P'.
  destruct (step_requests _ _ _ H) as (w0 & H0 & R).
  pose proof (handler_closes_over_current _ _ _ I1 H0) as P0.
  assert (w' = commit (st w) w0) as ->.
  { unfold step in H. rewrite H0 in H. cbn in H. now injection H as <-. }
  split; [exact P'|].
  destruct (commit_frame (st w) w0) as (C1 & _ & C3 & _).
  destruct (commit_timers (st w) w0) as (D & _).
  destruct (handler_pending _ _ _ H0) as (D0 & _).
  destruct (handler_frame _ _ _ H0) as (_ & _ & _ & S0 & _).
  cbv zeta in *. split; [|split].
  - rewrite D. intros c.
    destruct (endpoints_changed (st w) (st w0)).
    + destruct (truthy (source (st w0)) && truthy (destination (st w0)));
        cbn; [|discriminate].
      intros [= <-]. exact P0.
    + rewrite D0. destruct e; try apply I2. discriminate.
  - rewrite C3, <- C1. intros c.
    destruct (simulation_deps_changed (st w0) (st (commit (st w) w0))).
    + destruct (simulation_ready (st (commit (st w) w0)));
        cbn; [|discriminate].
      intros [= <-]. exact P'.
    + destruct (simulation_deps_changed (st w) (st w0)).
      * destruct (simulation_ready (st w0)); cbn; [|discriminate].
        intros [= <-]. exact P0.
      * rewrite S0. destruct e; try apply I3. discriminate.
  - destruct e;
      try (destruct R as [(R1 & _)|(c & loc & R1 & _ & _ & R4)];
           [ rewrite R1; exact I4
           | rewrite R1; apply Forall_app; split; [exact I4|];
             constructor; [|constructor]; cbn [closure];
             destruct R4 as [->|[->|[R4|R4]]];
             [ exact I1 | exact P0 | now apply I2 | now apply I3 ] ]).
    destruct R as (_ & R1 & _). rewrite R1.
    now apply Forall_remove_nth.
Qed.

Lemma run_closures_current (trace : list Event) (w : World) :
  run initial trace = Some w -> closures_current w.
Proof.
  apply (run_invariant closures_current).
  - intros w0 e w' Inv H. exact (step_closures_current w0 w' e Inv H).
  - unfold closures_current, closes_over_current. cbn.
    repeat split; try discriminate. constructor.
Qed.

(** X17.  Reroute detection compares the geometry of the response with
    the geometry of the result that was displayed in the render the request
    was posted from (the render of the submission, or the one that set the
    timer that posted it), not with the result displayed when the response
    arrives; the timers of the change flags are set accordingly. *)
Theorem reroute_compares_with_route_at_posting (trace : list Event)
    (w w' : World) (k : nat) (req : Request) (data : RouteResult) :
  run initial trace = Some w ->
  nth_error (inflight w) k = Some req ->
  step w (Resolve k (Success data)) = Some w' ->
  isRerouting (st w')
    = isRerouting (st w) || reroute_detected (result (closure req)) data
  /\ resets w'
     = resets w ++ detect_timers (result (closure req)) data (now w).
Proof.
  intros Hrun Hreq H.
  destruct (run_closures_current trace w Hrun) as (_ & _ & _ & I4).
  rewrite Forall_forall in I4.
  pose proof (I4 req (nth_error_In _ _ Hreq)) as P.
  unfold closes_over_current in P.
  destruct (step_resolve_success _ _ _ _ H)
    as (req' & Hreq' & _ & _ & _ & R4 & _ & _ & R7 & _).
  assert (req' = req) as -> by congruence.
  rewrite P in R4, R7. split; assumption.
Qed.

(** X17, witness: the user chooses two events in a row while [route_AB]
    is displayed; the first recalculation returns a detour, which is
    displayed; the second returns the same detour, and is taken for a
    reroute, since its request was posted while [route_AB] was displayed. *)
Lemma reroute_compares_with_route_at_posting_witness :
  let trace :=
    Scenario.first_route
    ++ [SelectEvent "Road Closure"; SelectEvent "Accident";
        Resolve 0 (Success Scenario.route_detour)] in
  let w := Scenario.after trace in
  let req := hd (mkRequest initial_state None) (inflight w) in
  option_map geometry (shown w) = Some (geometry Scenario.route_detour)
  /\ reroute_detected (result (st w)) Scenario.route_detour = false
  /\ reroute_detected (result (closure req)) Scenario.route_detour = true
  /\ resets (Scenario.after
               (trace ++ [Resolve 0 (Success Scenario.route_detour)]))
     = resets w
       ++ detect_timers (result (closure req)) Scenario.route_detour (now w).
Proof.
  pose proof (reroute_compares_with_route_at_posting
    (Scenario.first_route
     ++ [SelectEvent "Road Closure"; SelectEvent "Accident";
         Resolve 0 (Success Scenario.route_detour)])
    (Scenario.after
       (Scenario.first_route
        ++ [SelectEvent "Road Closure"; SelectEvent "Accident";
            Resolve 0 (Success Scenario.route_detour)]))
    (Scenario.after
       ((Scenario.first_route
         ++ [SelectEvent "Road Closure"; SelectEvent "Accident";
             Resolve 0 (Success Scenario.route_detour)])
        ++ [Resolve 0 (Success Scenario.route_detour)]))
    0%nat
    (hd (mkRequest initial_state None)
       (inflight
          (Scenario.after
             (Scenario.first_route
              ++ [SelectEvent "Road Closure"; SelectEvent "Accident";
                  Resolve 0 (Success Scenario.route_detour)]))))
    Scenario.route_detour
    ltac:(vm_compute; reflexivity) ltac:(vm_compute; reflexivity)
    ltac:(vm_compute; reflexivity)) as [_ H].
  cbv zeta.
  split; [vm_compute; reflexivity|].
  split; [vm_compute; reflexivity|].
  split; [vm_compute; reflexivity|].
  exact H.
Defined.

(** *** The delta badges *)

Lemma ltb_irrefl (x : float) : PrimFloat.ltb x x = false.
Proof.
  rewrite FloatAxioms.ltb_spec. unfold SFltb, SFcompare.
  destruct (Prim2SF x) as [s|s| |s m e]; try reflexivity.
  - destruct s; reflexivity.
  - destruct s; rewrite Z.compare_refl, Pos.compare_cont_refl; reflexivity.
Qed.

Lemma arrow_same (x : float) : arrow x x = ArrowUp.
Proof. unfold arrow. now rewrite ltb_irrefl. Qed.

Lemma run_previous_result (trace : list Event) (w : World) :
  run initial trace = Some w -> previousResult (st w) = result (st w).
Proof.
  apply (run_invariant (fun w => previousResult (st w) = result (st w))).
  - intros w0 e w' HP H. now apply (step_previous_result w0 w' e).
  - reflexivity.
Qed.

(** X18.  The delta badges compare the displayed result with itself.
    Whenever the badge under the distance or under the duration is
    rendered, its arrow points up, also when the new route is shorter or
    faster than the one it replaced; and a chip of the notification, if it
    is rendered at all, reads slower or longer. *)
Theorem delta_badges_point_up (trace : list Event) (w : World) :
  run initial trace = Some w ->
  (forall a, distance_badge (st w) = Some a -> a = ArrowUp)
  /\ (forall a, eta_badge (st w) = Some a -> a = ArrowUp)
  /\ (forall eta dist,
        notification_chips (st w) = Some (eta, dist) ->
        (eta = None \/ eta = Some ArrowUp)
        /\ (dist = None \/ dist = Some ArrowUp)).
Proof.
  intros Hrun. pose proof (run_previous_result trace w Hrun) as P.
  unfold distance_badge, eta_badge, notification_chips, chip.
  rewrite P. destruct (result (st w)) as [r|].
  - rewrite !arrow_same. split; [|split].
    + intros a. destruct (distanceChanged (st w)); congruence.
    + intros a. destruct (etaChanged (st w)); congruence.
    + intros eta dist.
      destruct (showNotification (st w)); [|discriminate].
      intros [= <- <-].
      split; destruct (JS.float_neq _ _); auto.
  - split; [|split]; try discriminate.
    intros eta dist. destruct (showNotification (st w)); discriminate.
Qed.

(** X18, witness: a detour of 11.5 km is displayed, and is replaced by a
    route of 10.5 km; the badge under the distance is rendered, with its
    arrow up. *)
Lemma delta_badges_point_up_witness :
  let w := Scenario.after
             (Scenario.first_detour
              ++ [SelectEvent "Accident"; Elapse 1000;
                  Resolve 0 (Success Scenario.route_AB)]) in
  distance_badge (st w) = Some ArrowUp
  /\ forall a, distance_badge (st w) = Some a -> a = ArrowUp.
Proof.
  pose proof (delta_badges_point_up
    (Scenario.first_detour
     ++ [SelectEvent "Accident"; Elapse 1000;
         Resolve 0 (Success Scenario.route_AB)])
    (Scenario.after
       (Scenario.first_detour
        ++ [SelectEvent "Accident"; Elapse 1000;
            Resolve 0 (Success Scenario.route_AB)]))
    ltac:(vm_compute; reflexivity)) as (H & _).
  cbv zeta. split; [vm_compute; reflexivity | exact H].
Defined.

(** *** The result stays *)

Lemma handler_lastCalculated (w w0 : World) (e : Event) :
  handler w e = Some w0 ->
  lastCalculated (st w0)
    = match e with
      | Resolve _ (Success _) => Some (now w)
      | _ => lastCalculated (st w)
      end.
Proof.
  intros H.
  destruct e; try destruct resp; unfold handler in H; break_hyp H;
    try discriminate H; injection H as <-; cbv beta iota.
  all: unfold when, debounced, polled, simulate, clear_flag, alloc.
  all: break_goal; cbn; try reflexivity.
  all: match goal with
       | |- context [detect_rerouting ?p ?d ?w1] =>
           destruct (detect_rerouting_frame p d w1)
             as (_ & _ & _ & _
                 & (_ & _ & _ & _ & _ & _ & _ & _ & _ & F10 & _) & _);
           cbv zeta in *; rewrite ?F10; reflexivity
       end.
Qed.

Lemma step_result_kept (w w' : World) (e : Event) :
  step w e = Some w' ->
  has_result (st w) = true -> has_result (st w') = true.
Proof.
  intros H. destruct (step_inv _ _ _ H) as (w0 & H0 & ->).
  destruct (commit_frame (st w) w0) as (C & _). cbv zeta in C.
  destruct (effects_state_frame (st w) (st w0) (st w0)) as (_ & _ & Er & _).
  cbv zeta in Er. unfold has_result. rewrite C, Er.
  destruct (handler_frame _ _ _ H0) as (_ & _ & _ & _ & _ & R).
  destruct e; try destruct resp; destruct R as [R _]; rewrite R; auto.
Qed.

Lemma step_synched (w w' : World) (e : Event) :
  synched w -> step w e = Some w' -> synched w'.
Proof.
  unfold synched. intros Inv H.
  destruct (step_inv _ _ _ H) as (w0 & H0 & ->).
  destruct (commit_frame (st w) w0) as (C & _ & _ & _ & CN & _).
  cbv zeta in *.
  destruct (effects_state_frame (st w) (st w0) (st w0)) as (_ & _ & Er & _).
  destruct (effects_state_requests (st w) (st w0) (st w0))
    as (_ & _ & _ & El).
  cbv zeta in *. unfold has_result in *. rewrite C, CN, Er, El.
  rewrite (handler_lastCalculated _ _ _ H0).
  destruct (handler_frame _ _ _ H0) as (_ & _ & _ & _ & _ & R).
  destruct (handler_pending _ _ _ H0) as (_ & _ & _ & N).
  pose proof (handler_guard _ _ _ H0) as G.
  destruct e; try destruct resp; destruct R as [R _]; rewrite R, N;
    try exact Inv.
  - split; [reflexivity | lia].
  - destruct (lastCalculated (st w)); [|exact Inv].
    destruct Inv as [I1 I2]. destruct G as [G _]. split; [exact I1 | lia].
Qed.

(** X19.  A result, once displayed, is never taken away: neither an edit
    of the inputs, nor a failed request, nor any timer empties the page
    again.  The time of the last calculation is shown exactly while a result
    is, and is not in the future. *)
Theorem result_stays_displayed (before trace : list Event) (w w' : World) :
  run initial before = Some w ->
  run w trace = Some w' ->
  (has_result (st w) = true -> has_result (st w') = true)
  /\ match lastCalculated (st w') with
     | Some t => has_result (st w') = true /\ t <= now w'
     | None => has_result (st w') = false
     end.
Proof.
  intros Hbefore Hrun. split.
  - revert Hrun.
    apply (run_invariant
             (fun w0 => has_result (st w) = true -> has_result (st w0) = true)).
    + intros w0 e w1 Inv H Hw. exact (step_result_kept w0 w1 e H (Inv Hw)).
    + auto.
  - assert (synched w) as Inv.
    { apply (run_invariant synched (fun a e b => step_synched a b e)
               before initial w); [reflexivity | exact Hbefore]. }
    exact (run_invariant synched (fun a e b => step_synched a b e)
             trace w w' Inv Hrun).
Qed.

(** X19, witness: [route_AB] is displayed; the user asks again and the
    request fails, then changes the destination. *)
Lemma result_stays_displayed_witness :
  has_result
    (st (Scenario.after (Scenario.failed_again None
                         ++ [EditDestination "C"]))) = true.
Proof.
  pose proof (result_stays_displayed
    Scenario.first_route
    [Submit; Resolve 0 (Failure None); EditDestination "C"]
    (Scenario.after Scenario.first_route)
    (Scenario.after (Scenario.failed_again None ++ [EditDestination "C"]))
    ltac:(vm_compute; reflexivity) ltac:(vm_compute; reflexivity))
    as (H & _).
  apply H. vm_compute. reflexivity.
Defined.

End RoutingMore.

(* ================================================================== *)
(** ** More proofs: the map *)
(* ================================================================== *)

Module MapFacts.

Import MapView PolylineFacts.
Open Scope string_scope.
Open Scope list_scope.
Open Scope Z_scope.

(** *** The route that is drawn, and the geometry that is remembered *)

Lemma codes_nonempty (s : string) :
  Routing.truthy s = true -> Polyline.codes s <> [].
Proof.
  destruct s as [|a s]; cbn; [discriminate | intros _; discriminate].
Qed.

Lemma decoded_nonempty (s : string) :
  Routing.truthy s = true ->
  exists pt points,
    Polyline.decodePolyline (Polyline.codes s) 6 = Some (pt :: points).
Proof.
  intros H. rewrite decodePolyline_sfx.
  rewrite decode_sfx_step by (now apply codes_nonempty).
  eexists _, _. reflexivity.
Qed.

Section Route.

Variable stringify : list LatLng -> string.

Lemma route_empty_iff (p : Props) :
  route p = [] <-> currentGeometry stringify p = None.
Proof.
  unfold route, currentGeometry.
  destruct (detailedGeometry p) as [dg|].
  - destruct dg as [|x dg]; cbn [List.length Nat.ltb Nat.leb].
    + destruct (geometry p) as [| |s]; try tauto.
      destruct (Routing.truthy s) eqn:T; [|tauto].
      destruct (decoded_nonempty s T) as (pt & pts & ->).
      cbn. split; discriminate.
    + destruct (geometry p) as [| |s]; try (split; discriminate).
      destruct (Routing.truthy s); split; discriminate.
  - destruct (geometry p) as [| |s]; try tauto.
    destruct (Routing.truthy s) eqn:T; [|tauto].
    destruct (decoded_nonempty s T) as (pt & pts & ->).
    cbn. split; discriminate.
Qed.

Lemma isRerouting_current (previous current : option string) :
  isRerouting previous current = true -> current <> None.
Proof. destruct previous, current; cbn; congruence. Qed.

(** *** The phases of the route effect, on the refs and the timers *)

Lemma filter_all (A : Type) (l : list A) : filter (fun _ => true) l = l.
Proof. induction l; cbn; congruence. Qed.

Lemma filter_filter (A : Type) (f g : A -> bool) (l : list A) :
  filter f (filter g l) = filter (fun x => g x && f x) l.
Proof.
  induction l as [|x l IH]; cbn; [reflexivity|].
  destruct (g x); cbn; [destruct (f x)|]; congruence.
Qed.

Lemma remove_eq (id : nat) (m : MapState) :
  remove id m = with_layers (filter (kept [id]) (layers m)) m.
Proof.
  unfold remove, kept. f_equal. apply filter_ext. intros il. cbn.
  now rewrite orb_false_r.
Qed.

Lemma fold_remove_eq (ids : list nat) :
  forall m,
    fold_left (fun m id => remove id m) ids m
      = with_layers (filter (kept ids) (layers m)) m.
Proof.
  induction ids as [|id ids IH]; intros m; cbn [fold_left].
  - unfold kept. cbn. rewrite filter_all. now destruct m.
  - rewrite IH, remove_eq. unfold with_layers. cbn. f_equal.
    rewrite filter_filter. apply filter_ext. intros il. unfold kept. cbn.
    rewrite orb_false_r.
    destruct (Nat.eqb (fst il) id); reflexivity.
Qed.

Lemma remove_ref_eq (r : option nat) (m : MapState) :
  remove_ref r m
    = with_layers
        (filter (kept match r with Some id => [id] | None => [] end)
           (layers m)) m.
Proof.
  destruct r as [id|]; cbn [remove_ref]; [apply remove_eq|].
  unfold kept. cbn. rewrite filter_all. now destruct m.
Qed.

Lemma remove_ref_frame (r : option nat) (m : MapState) :
  let m' := remove_ref r m in
  next_id m' = next_id m /\ view m' = view m
  /\ markersRef m' = markersRef m /\ polylineRef m' = polylineRef m
  /\ polylineGlowRef m' = polylineGlowRef m
  /\ stepMarkerRef m' = stepMarkerRef m
  /\ eventMarkerRef m' = eventMarkerRef m
  /\ previousGeometryRef m' = previousGeometryRef m
  /\ oldPolylineRef m' = oldPolylineRef m
  /\ oldPolylineGlowRef m' = oldPolylineGlowRef m
  /\ isReroutingRef m' = isReroutingRef m
  /\ timers m' = timers m /\ now m' = now m.
Proof. destruct r; cbn; repeat split. Qed.

Lemma detect_reroute_frame (rerouting isEventActive : bool) (m : MapState) :
  let m' := detect_reroute rerouting isEventActive m in
  now m' = now m /\ next_id m' = next_id m
  /\ isReroutingRef m' = rerouting || isReroutingRef m
  /\ previousGeometryRef m' = previousGeometryRef m
  /\ timers m' = timers m ++ reroute_timers rerouting isEventActive m
  /\ polylineRef m' = (if rerouting then polylineRef m else None)
  /\ polylineGlowRef m' = (if rerouting then polylineGlowRef m else None)
  /\ oldPolylineRef m'
     = (if rerouting
        then match polylineRef m with
             | Some _ => polylineRef m
             | None => oldPolylineRef m
             end
        else oldPolylineRef m)
  /\ oldPolylineGlowRef m'
     = (if rerouting
        then match polylineRef m with
             | Some _ => polylineGlowRef m
             | None => oldPolylineGlowRef m
             end
        else oldPolylineGlowRef m)
  /\ markersRef m' = markersRef m /\ stepMarkerRef m' = stepMarkerRef m
  /\ eventMarkerRef m' = eventMarkerRef m.
Proof.
  unfold detect_reroute, reroute_timers.
  destruct rerouting.
  - cbn [with_isReroutingRef polylineRef].
    destruct (polylineRef m) eqn:E; cbn; rewrite ?E, ?app_nil_r;
      try rewrite <- app_assoc; repeat split.
  - destruct (polylineRef m); cbn; destruct (polylineGlowRef m); cbn;
      rewrite ?app_nil_r; repeat split.
Qed.

Lemma clear_markers_eq (m : MapState) :
  clear_markers m
    = m |> with_layers (filter (kept (held_markers m)) (layers m))
        |> with_markersRef [] |> with_stepMarkerRef None
        |> with_eventMarkerRef None.
Proof.
  destruct m as [ls nid vw ms pl pg sm em pv ol og ir ts nw].
  unfold clear_markers. rewrite fold_remove_eq.
  destruct sm as [sm|], em as [em|];
    cbv - [filter kept negb existsb Nat.eqb app fst]; f_equal;
    rewrite ?filter_filter; apply filter_ext; intros il;
    unfold kept; rewrite ?existsb_app, ?negb_orb; cbn [existsb];
    rewrite ?orb_false_r, ?andb_true_r; reflexivity.
Qed.

Lemma clear_markers_refs (m : MapState) :
  refs_of (clear_markers m) = refs_of m.
Proof. now rewrite clear_markers_eq. Qed.

Lemma add_place_marker_refs (pt : option Routing.Place.t)
    (type heading fallback : string) (positions : list LatLng)
    (m : MapState) :
  refs_of (snd (add_place_marker pt type heading fallback (positions, m)))
    = refs_of m.
Proof.
  unfold add_place_marker. destruct pt as [a|]; [|reflexivity].
  destruct (place_pos (Some a)); reflexivity.
Qed.

Lemma draw_route_refs (r : list LatLng) (isEventActive isCalculating : bool)
    (positions : list LatLng) (m : MapState) :
  refs_of (snd (draw_route r isEventActive isCalculating (positions, m)))
    = if (0 <? List.length r)%nat
      then (now m,
            timers m ++ (if isReroutingRef m
                         then [(now m + 2000, Settle isEventActive)]
                         else []),
            isReroutingRef m, previousGeometryRef m,
            oldPolylineRef m, oldPolylineGlowRef m,
            Some (S (next_id m)), Some (next_id m))
      else refs_of m.
Proof.
  unfold draw_route.
  destruct (colours _ _ _) as [mainColor glowColor].
  destruct (0 <? List.length r)%nat; [|reflexivity].
  destruct (isReroutingRef m) eqn:E; unfold refs_of; cbn;
    rewrite ?E, ?app_nil_r; reflexivity.
Qed.

Lemma add_event_marker_refs (ev : option Routing.MockEvent.t)
    (m : MapState) :
  refs_of (add_event_marker ev m) = refs_of m.
Proof.
  unfold add_event_marker. destruct ev as [ev|]; [|reflexivity].
  destruct (num_truthy _ && num_truthy _); reflexivity.
Qed.

(** The route effect, on the refs and timers of the animation. *)
Lemma route_effect_refs (p : Props) (m : MapState) :
  let isEventActive :=
    match simulatedEvent p with Some _ => true | None => false end in
  let rerouting :=
    isRerouting (previousGeometryRef m) (currentGeometry stringify p) in
  let drawn := (0 <? List.length (route p))%nat in
  let m' := route_effect stringify p m in
  now m' = now m
  /\ isReroutingRef m' = rerouting || isReroutingRef m
  /\ previousGeometryRef m' = currentGeometry stringify p
  /\ timers m'
     = timers m ++ reroute_timers rerouting isEventActive m
       ++ (if drawn && (rerouting || isReroutingRef m)
           then [(now m + 2000, Settle isEventActive)] else [])
  /\ oldPolylineRef m'
     = (if rerouting
        then match polylineRef m with
             | Some _ => polylineRef m
             | None => oldPolylineRef m
             end
        else oldPolylineRef m)
  /\ oldPolylineGlowRef m'
     = (if rerouting
        then match polylineRef m with
             | Some _ => polylineGlowRef m
             | None => oldPolylineGlowRef m
             end
        else oldPolylineGlowRef m)
  /\ (drawn = true -> polylineRef m' <> None)
  /\ (drawn = false ->
      polylineRef m' = if rerouting then polylineRef m else None).
Proof.
  cbv zeta. unfold route_effect.
  set (ev := match simulatedEvent p with Some _ => true | None => false end).
  set (rr := isRerouting (previousGeometryRef m) (currentGeometry stringify p)).
  destruct (detect_reroute_frame rr ev m)
    as (D1 & _ & D3 & D4 & D5 & D6 & D7 & D8 & D9 & _).
  cbv zeta in *.
  set (m1 := detect_reroute rr ev m) in *.
  pose proof (clear_markers_refs m1) as C.
  set (m2 := clear_markers m1) in *.
  pose proof (add_place_marker_refs (startPoint p) "start" "Start" "Origin"
                [] m2) as A.
  destruct (add_place_marker (startPoint p) "start" "Start" "Origin" ([], m2))
    as [pos3 m3]. cbn [snd] in A.
  pose proof (add_place_marker_refs (endPoint p) "end" "Destination"
                "Destination" pos3 m3) as B.
  destruct (add_place_marker (endPoint p) "end" "Destination" "Destination"
              (pos3, m3)) as [pos4 m4]. cbn [snd] in B.
  pose proof (draw_route_refs (route p) ev (isCalculating p) pos4 m4) as E.
  destruct (draw_route (route p) ev (isCalculating p) (pos4, m4))
    as [pos5 m5]. cbn [snd] in E.
  set (m6 := when _ _ m5).
  assert (refs_of m6 = refs_of m5) as F
    by (subst m6; unfold when; now destruct (0 <? List.length pos5)%nat).
  set (m7 := with_previousGeometryRef (currentGeometry stringify p) m6).
  pose proof (add_event_marker_refs (simulatedEvent p) m7) as G.
  set (m8 := add_event_marker (simulatedEvent p) m7) in *.
  assert (refs_of m4 = refs_of m1) as H4 by congruence.
  assert (refs_of m8
          = (now m6, timers m6, isReroutingRef m6,
             currentGeometry stringify p, oldPolylineRef m6,
             oldPolylineGlowRef m6, polylineRef m6, polylineGlowRef m6))
    as H8 by (rewrite G; reflexivity).
  unfold refs_of in H4, F, H8, E.
  injection H4 as H41 H42 H43 H44 H45 H46 H47 H48.
  rewrite H41, H42, H43, H44, H45, H46, H47, H48 in E.
  injection F as F1 F2 F3 F4 F5 F6 F7 F8.
  injection H8 as G1 G2 G3 G4 G5 G6 G7 G8.
  rewrite G1, G2, G3, G4, G5, G6, G7, F1, F2, F3, F5, F6, F7.
  destruct (0 <? List.length (route p))%nat eqn:Hr.
  - injection E as E1 E2 E3 E4 E5 E6 E7 E8.
    rewrite E1, E2, E3, E5, E6, E7, D1, D3, D5, D8, D9.
    cbn [andb]. rewrite <- app_assoc.
    repeat match goal with |- _ /\ _ => split end;
      try reflexivity; discriminate.
  - injection E as E1 E2 E3 E4 E5 E6 E7 E8.
    rewrite E1, E2, E3, E5, E6, E7, D1, D3, D5, D6, D8, D9.
    cbn [andb]. rewrite app_nil_r.
    repeat match goal with |- _ /\ _ => split end;
      try reflexivity; discriminate.
Qed.

(** The lines the route effect adds stay on the map until the effect is
    over. *)
Lemma add_event_marker_layers (ev : option Routing.MockEvent.t)
    (m : MapState) (il : nat * Layer) :
  In il (layers m) -> In il (layers (add_event_marker ev m)).
Proof.
  unfold add_event_marker. destruct ev as [ev|]; [|auto].
  destruct (num_truthy _ && num_truthy _); [|auto].
  cbn. intros H. apply in_or_app. now left.
Qed.

Lemma draw_route_lines (r : list LatLng) (isEventActive isCalculating : bool)
    (positions : list LatLng) (m : MapState) :
  (0 <? List.length r)%nat = true ->
  let m' := snd (draw_route r isEventActive isCalculating (positions, m)) in
  let flagged := isReroutingRef m in
  exists style glow_style,
    In (S (next_id m), Line r style) (layers m')
    /\ In (next_id m, Line r glow_style) (layers m')
    /\ (color style, color glow_style)
       = colours flagged isEventActive isCalculating
    /\ weight style = (if flagged then 8 else 6)
    /\ weight glow_style = 12.
Proof.
  intros Hr. cbv zeta. unfold draw_route. rewrite Hr.
  destruct (colours _ _ _) as [mainColor glowColor].
  unfold when.
  destruct (isReroutingRef m); eexists _, _; cbn;
    (split; [apply in_or_app; right; left; reflexivity|]);
    (split; [apply in_or_app; left; apply in_or_app; right; left;
             reflexivity|]);
    repeat split.
Qed.

(** X20.  The route effect remembers the current geometry (the compact
    geometry if there is one, else the text of the detailed geometry if it
    has entries, else nothing), and draws a line exactly when there is one
    to remember: the route (the detailed geometry if it has entries, else
    the decoded compact geometry) is empty exactly when the current geometry
    is.  The line is drawn with its glow, both holding the route, in green
    and 8 wide while the reroute flag is up, else in brown when an event is
    active during a calculation, else in blue, 6 wide. *)
Theorem route_drawn_iff_geometry (p : Props) (m : MapState) :
  let isEventActive :=
    match simulatedEvent p with Some _ => true | None => false end in
  let m' := route_effect stringify p m in
  previousGeometryRef m' = currentGeometry stringify p
  /\ (route p = [] <-> currentGeometry stringify p = None)
  /\ match currentGeometry stringify p with
     | Some _ =>
         exists main glow style glow_style,
           polylineRef m' = Some main /\ polylineGlowRef m' = Some glow
           /\ In (main, Line (route p) style) (layers m')
           /\ In (glow, Line (route p) glow_style) (layers m')
           /\ (color style, color glow_style)
              = colours (isReroutingRef m') isEventActive (isCalculating p)
           /\ weight style = (if isReroutingRef m' then 8 else 6)
     | None =>
         polylineRef m' = None /\ polylineGlowRef m' = None
         /\ isReroutingRef m' = isReroutingRef m
     end.
Proof.
  cbv zeta.
  split; [apply (route_effect_refs p m)|].
  split; [apply route_empty_iff|].
  pose proof (route_empty_iff p) as Hempty.
  unfold route_effect.
  set (ev := match simulatedEvent p with Some _ => true | None => false end).
  set (rr := isRerouting (previousGeometryRef m) (currentGeometry stringify p)).
  destruct (detect_reroute_frame rr ev m)
    as (_ & _ & D3 & _ & _ & D6 & D7 & _).
  cbv zeta in *.
  set (m1 := detect_reroute rr ev m) in *.
  pose proof (clear_markers_refs m1) as C.
  set (m2 := clear_markers m1) in *.
  pose proof (add_place_marker_refs (startPoint p) "start" "Start" "Origin"
                [] m2) as A.
  destruct (add_place_marker (startPoint p) "start" "Start" "Origin" ([], m2))
    as [pos3 m3]. cbn [snd] in A.
  pose proof (add_place_marker_refs (endPoint p) "end" "Destination"
                "Destination" pos3 m3) as B.
  destruct (add_place_marker (endPoint p) "end" "Destination" "Destination"
              (pos3, m3)) as [pos4 m4]. cbn [snd] in B.
  pose proof (draw_route_refs (route p) ev (isCalculating p) pos4 m4) as E.
  pose proof (draw_route_lines (route p) ev (isCalculating p) pos4 m4) as L.
  destruct (draw_route (route p) ev (isCalculating p) (pos4, m4))
    as [pos5 m5]. cbn [snd] in E, L.
  set (m6 := when _ _ m5).
  assert (refs_of m6 = refs_of m5 /\ layers m6 = layers m5) as [F FL]
    by (subst m6; unfold when; now destruct (0 <? List.length pos5)%nat).
  set (m7 := with_previousGeometryRef (currentGeometry stringify p) m6).
  pose proof (add_event_marker_refs (simulatedEvent p) m7) as G.
  pose proof (add_event_marker_layers (simulatedEvent p) m7) as GL.
  set (m8 := add_event_marker (simulatedEvent p) m7) in *.
  assert (refs_of m4 = refs_of m1) as H4 by congruence.
  assert (refs_of m8
          = (now m6, timers m6, isReroutingRef m6,
             currentGeometry stringify p, oldPolylineRef m6,
             oldPolylineGlowRef m6, polylineRef m6, polylineGlowRef m6))
    as H8 by (rewrite G; reflexivity).
  unfold refs_of in H4, F, H8, E.
  injection H4 as _ _ H43 _ _ _ H47 H48.
  injection F as _ _ F3 _ _ _ F7 F8.
  injection H8 as _ _ G3 _ _ _ G7 G8.
  rewrite G3, G7, G8, F3, F7, F8.
  destruct (currentGeometry stringify p) as [g|] eqn:Hg.
  - assert ((0 <? List.length (route p))%nat = true) as Hr.
    { destruct (route p) as [|x r] eqn:Er; [|reflexivity].
      destruct Hempty as [Hempty _]. now specialize (Hempty eq_refl). }
    rewrite Hr in E. injection E as _ _ E3 _ _ _ E7 E8.
    destruct (L Hr) as (style & gstyle & L1 & L2 & L3 & L4 & _).
    exists (S (next_id m4)), (next_id m4), style, gstyle.
    rewrite E3, E7, E8, H43. rewrite H43 in L3, L4.
    repeat match goal with |- _ /\ _ => split end; try assumption;
      try reflexivity; apply GL; cbn; rewrite FL; assumption.
  - assert (rr = false) as Hrr
      by (subst rr; now destruct (previousGeometryRef m)).
    assert ((0 <? List.length (route p))%nat = false) as Hr
      by (destruct Hempty as [_ Hempty]; now rewrite (Hempty eq_refl)).
    rewrite Hr in E. injection E as _ _ E3 _ _ _ E7 E8.
    rewrite E3, E7, E8, H43, H47, H48, D3, D6, D7, Hrr.
    repeat split.
Qed.

(** *** The timers of the animation are always set *)

Lemma refs_of_inv (m : MapState) (n : Z) (t : list (Z * Callback))
    (i : bool) (p : option string) (o og pl pg : option nat) :
  refs_of m = (n, t, i, p, o, og, pl, pg) ->
  now m = n /\ timers m = t /\ isReroutingRef m = i
  /\ previousGeometryRef m = p /\ oldPolylineRef m = o
  /\ oldPolylineGlowRef m = og /\ polylineRef m = pl
  /\ polylineGlowRef m = pg.
Proof.
  unfold refs_of. intros H. injection H as H1 H2 H3 H4 H5 H6 H7 H8.
  repeat split; assumption.
Qed.

Lemma zoom_effect_refs (p : Props) (m : MapState) :
  refs_of (zoom_effect p m) = refs_of m.
Proof.
  unfold zoom_effect.
  destruct (activeStepIndex p) as [i|]; [|reflexivity].
  destruct (steps p) as [ss|]; [|reflexivity].
  destruct (nth_error ss i) as [step|]; [|reflexivity].
  destruct (location step) as [[lat lon]|].
  - destruct (num_truthy lat && num_truthy lon); [|reflexivity].
    destruct (stepMarkerRef m); reflexivity.
  - destruct (maneuver_location step) as [[lon lat]|]; [|reflexivity].
    destruct (num_truthy lat && num_truthy lon); [|reflexivity].
    destruct (stepMarkerRef m); reflexivity.
Qed.

Lemma setStyle_ref_refs (r : option nat) (f : PathStyle -> PathStyle)
    (m : MapState) :
  refs_of (setStyle_ref r f m) = refs_of m.
Proof. destruct r; reflexivity. Qed.

Lemma run_callback_refs (cb : Callback) (m : MapState) :
  refs_of (run_callback cb m)
    = match cb with
      | FadeOld => refs_of m
      | RemoveOld =>
          (now m, timers m, isReroutingRef m, previousGeometryRef m,
           None, None, polylineRef m, polylineGlowRef m)
      | Settle _ =>
          (now m, timers m, false, previousGeometryRef m,
           oldPolylineRef m, oldPolylineGlowRef m, polylineRef m,
           polylineGlowRef m)
      end.
Proof.
  destruct cb; unfold run_callback.
  - now rewrite !setStyle_ref_refs.
  - unfold refs_of. destruct (oldPolylineRef m); cbn;
      destruct (oldPolylineGlowRef m); reflexivity.
  - set (f := fun s : PathStyle => set_weight 6 _).
    set (g := fun s : PathStyle => set_opacity _ _).
    pose proof (setStyle_ref_refs (polylineRef m) f m) as A.
    pose proof (setStyle_ref_refs (polylineGlowRef m) g
                  (setStyle_ref (polylineRef m) f m)) as B.
    unfold refs_of in *. cbn.
    injection A as A1 A2 A3 A4 A5 A6 A7 A8.
    injection B as B1 B2 B3 B4 B5 B6 B7 B8.
    congruence.
Qed.

Lemma recenter_eq (m : MapState) :
  recenter m = m \/ exists v, recenter m = with_view v m.
Proof.
  unfold recenter. destruct (polylineRef m) as [id|]; [|now left].
  destruct (line_on_map id m) as [pts|]; [right; eauto | now left].
Qed.

Lemma recenter_refs (m : MapState) : refs_of (recenter m) = refs_of m.
Proof. destruct (recenter_eq m) as [->|(v & ->)]; reflexivity. Qed.

Lemma scheduled_later (cb : Callback -> bool) (ms : Z) (m m' : MapState) :
  scheduled cb ms m ->
  now m' = now m ->
  (forall t, In t (timers m) -> In t (timers m')) ->
  scheduled cb ms m'.
Proof.
  intros (due & c & Hin & Hc & Hdue) Hn Hsub.
  exists due, c. rewrite Hn. auto.
Qed.

Lemma In_remove_nth_other (A : Type) (x y : A) (l : list A) :
  forall k, In x l -> nth_error l k = Some y -> x <> y ->
  In x (Routing.remove_nth k l).
Proof.
  induction l as [|z l IH]; intros [|k] Hin Hk Hne; cbn in *;
    try discriminate; try contradiction.
  - injection Hk as ->. destruct Hin as [->|Hin]; [congruence | exact Hin].
  - destruct Hin as [Hin|Hin]; [now left | right; eauto].
Qed.

Lemma step_scheduled (cb : Callback -> bool) (ms : Z) (m m' : MapState)
    (e : MapEvent) :
  scheduled cb ms m ->
  map_step stringify m e = Some m' ->
  scheduled cb ms m'
  \/ exists k due c,
       e = Fire k /\ nth_error (timers m) k = Some (due, c) /\ cb c = true.
Proof.
  intros Hs H. destruct e as [p|p|d|k|]; cbn in H.
  5:{ injection H as <-. left.
      pose proof (recenter_refs m) as R. unfold refs_of in R.
      injection R as R1 R2 _.
      apply (scheduled_later cb ms m); [exact Hs | exact R1|].
      now rewrite R2. }
  - injection H as <-. left.
    destruct (route_effect_refs p m) as (R1 & _ & _ & R4 & _).
    cbv zeta in *. apply (scheduled_later cb ms m); [exact Hs | exact R1|].
    intros t Ht. rewrite R4. apply in_or_app. now left.
  - injection H as <-. left.
    pose proof (zoom_effect_refs p m) as R. unfold refs_of in R.
    injection R as R1 R2 _.
    apply (scheduled_later cb ms m); [exact Hs | exact R1|].
    now rewrite R2.
  - destruct (0 <? d) eqn:Hd; [|discriminate]. cbn [andb] in H.
    destruct (forallb _ (timers m)) eqn:Hall; [|discriminate].
    injection H as <-. left.
    destruct Hs as (due & c & Hin & Hc & Hdue).
    exists due, c. cbn. split; [exact Hin|]. split; [exact Hc|].
    rewrite forallb_forall in Hall. specialize (Hall _ Hin).
    apply Z.leb_le in Hall. apply Z.ltb_lt in Hd. cbn in Hall. lia.
  - destruct (nth_error (timers m) k) as [[due c]|] eqn:Hk; [|discriminate].
    destruct (due <=? now m); [|discriminate]. injection H as <-.
    destruct (cb c) eqn:Hc; [right; eauto 6|]. left.
    destruct Hs as (due' & c' & Hin & Hc' & Hdue).
    pose proof (run_callback_refs c
                  (with_timers (Routing.remove_nth k (timers m)) m)) as R.
    assert (now (run_callback c
                   (with_timers (Routing.remove_nth k (timers m)) m))
            = now m
            /\ timers (run_callback c
                         (with_timers (Routing.remove_nth k (timers m)) m))
               = Routing.remove_nth k (timers m)) as [R1 R2].
    { destruct c; apply refs_of_inv in R; destruct R as (R1 & R2 & _);
        auto. }
    exists due', c'. rewrite R1, R2. split; [|auto].
    apply (In_remove_nth_other _ _ (due, c) _ _ Hin Hk).
    intros [= _ ->]. congruence.
Qed.

Lemma step_refs (m m' : MapState) (e : MapEvent) :
  map_step stringify m e = Some m' ->
  match e with
  | RouteEffect p => m' = route_effect stringify p m
  | Fire k =>
      exists due c,
        nth_error (timers m) k = Some (due, c)
        /\ isReroutingRef m'
           = (if is_settle c then false else isReroutingRef m)
        /\ oldPolylineRef m'
           = (if is_remove_old c then None else oldPolylineRef m)
        /\ oldPolylineGlowRef m'
           = (if is_remove_old c then None else oldPolylineGlowRef m)
  | _ =>
      isReroutingRef m' = isReroutingRef m
      /\ oldPolylineRef m' = oldPolylineRef m
      /\ oldPolylineGlowRef m' = oldPolylineGlowRef m
  end.
Proof.
  intros H. destruct e as [p|p|d|k|]; cbn in H.
  5:{ injection H as <-.
      pose proof (recenter_refs m) as R. unfold refs_of in R.
      injection R as _ _ R3 _ R5 R6 _. auto. }
  - now injection H as <-.
  - injection H as <-.
    pose proof (zoom_effect_refs p m) as R. unfold refs_of in R.
    injection R as _ _ R3 _ R5 R6 _. auto.
  - destruct ((0 <? d) && forallb _ (timers m)); [|discriminate].
    injection H as <-. repeat split.
  - destruct (nth_error (timers m) k) as [[due c]|] eqn:Hk; [|discriminate].
    destruct (due <=? now m); [|discriminate]. injection H as <-.
    exists due, c. split; [reflexivity|].
    pose proof (run_callback_refs c
                  (with_timers (Routing.remove_nth k (timers m)) m)) as R.
    destruct c; apply refs_of_inv in R;
      destruct R as (_ & _ & R3 & _ & R5 & R6 & _);
      cbn [is_settle is_remove_old]; repeat split; assumption.
Qed.

Lemma map_run_invariant (P : MapState -> Prop) :
  (forall m e m', P m -> map_step stringify m e = Some m' -> P m') ->
  forall trace m m', P m -> map_run stringify m trace = Some m' -> P m'.
Proof.
  intros Hstep. induction trace as [|e trace IH]; intros m m' HP Hrun.
  - cbn in Hrun. now injection Hrun as <-.
  - cbn in Hrun. destruct (map_step stringify m e) as [m1|] eqn:E;
      [|discriminate].
    eapply IH; [|exact Hrun]. eapply Hstep; eauto.
Qed.

Lemma step_flag_settles (m m' : MapState) (e : MapEvent) :
  (isReroutingRef m = true -> scheduled is_settle 2000 m) ->
  map_step stringify m e = Some m' ->
  isReroutingRef m' = true -> scheduled is_settle 2000 m'.
Proof.
  intros Inv H Hup. pose proof (step_refs _ _ _ H) as R.
  destruct e as [p|p|d|k|].
  5:{ destruct R as (R & _). rewrite R in Hup.
      destruct (step_scheduled is_settle 2000 _ _ _ (Inv Hup) H)
        as [S|(k & due & c & [=] & _)]; exact S. }
  - subst m'.
    destruct (route_effect_refs p m) as (R1 & R2 & _ & R4 & _).
    cbv zeta in *. rewrite R2 in Hup.
    destruct (isRerouting (previousGeometryRef m)
                (currentGeometry stringify p)) eqn:Hrr.
    + assert ((0 <? List.length (route p))%nat = true) as Hr.
      { destruct (route p) as [|x r] eqn:Er; [|reflexivity].
        apply isRerouting_current in Hrr.
        now apply route_empty_iff in Er. }
      rewrite Hr in R4. cbn [andb orb] in R4.
      exists (now m + 2000),
        (Settle match simulatedEvent p with Some _ => true | None => false end).
      rewrite R4, R1. split; [|split; [reflexivity | lia]].
      apply in_or_app. right. apply in_or_app. right. now left.
    + cbn [orb] in Hup.
      apply (scheduled_later is_settle 2000 m); [auto | exact R1|].
      intros t Ht. rewrite R4. apply in_or_app. now left.
  - destruct R as (R & _). rewrite R in Hup.
    destruct (step_scheduled is_settle 2000 _ _ _ (Inv Hup) H)
      as [S|(k & due & c & [=] & _)]; exact S.
  - destruct R as (R & _). rewrite R in Hup.
    destruct (step_scheduled is_settle 2000 _ _ _ (Inv Hup) H)
      as [S|(k & due & c & [=] & _)]; exact S.
  - destruct R as (due & c & Hk & R & _). rewrite R in Hup.
    destruct (is_settle c) eqn:Hc; [discriminate|].
    destruct (step_scheduled is_settle 2000 _ _ _ (Inv Hup) H)
      as [S|(k' & due' & c' & [= <-] & Hk' & Hc')]; [exact S|].
    rewrite Hk in Hk'. injection Hk' as _ <-. congruence.
Qed.

(** X21.  The reroute colouring never gets stuck: whatever runs of the two
    effects and firings of timers have happened since the component was
    mounted, while the flag of the reroute is up a timer that lowers it and
    settles the colours is set, and fires within 2 s. *)
Theorem reroute_flag_settles (trace : list MapEvent) (m : MapState) :
  map_run stringify mounted trace = Some m ->
  isReroutingRef m = true ->
  scheduled is_settle 2000 m.
Proof.
  apply (map_run_invariant
           (fun m => isReroutingRef m = true -> scheduled is_settle 2000 m)).
  - intros m0 e m1 Inv H. exact (step_flag_settles m0 m1 e Inv H).
  - discriminate.
Qed.

Lemma step_old_line_removed (m m' : MapState) (e : MapEvent) :
  (oldPolylineRef m <> None \/ oldPolylineGlowRef m <> None ->
   scheduled is_remove_old 1500 m) ->
  map_step stringify m e = Some m' ->
  oldPolylineRef m' <> None \/ oldPolylineGlowRef m' <> None ->
  scheduled is_remove_old 1500 m'.
Proof.
  intros Inv H Hold. pose proof (step_refs _ _ _ H) as R.
  destruct e as [p|p|d|k|].
  5:{ destruct R as (_ & R5 & R6). rewrite R5, R6 in Hold.
      destruct (step_scheduled is_remove_old 1500 _ _ _ (Inv Hold) H)
        as [S|(k & due & c & [=] & _)]; exact S. }
  - subst m'.
    destruct (route_effect_refs p m) as (R1 & _ & _ & R4 & R5 & R6 & _).
    cbv zeta in *. rewrite R5, R6 in Hold.
    destruct (isRerouting (previousGeometryRef m)
                (currentGeometry stringify p)) eqn:Hrr;
      [destruct (polylineRef m) as [main|] eqn:Hp|].
    + unfold reroute_timers in R4. rewrite Hp in R4.
      exists (now m + (if match simulatedEvent p with
                          | Some _ => true | None => false end
                       then 50 else 1500)), RemoveOld.
      rewrite R4, R1. split; [|split; [reflexivity|]].
      * apply in_or_app. right. apply in_or_app. left. right. now left.
      * destruct (simulatedEvent p); lia.
    + apply (scheduled_later is_remove_old 1500 m); [auto | exact R1|].
      intros t Ht. rewrite R4. apply in_or_app. now left.
    + apply (scheduled_later is_remove_old 1500 m); [auto | exact R1|].
      intros t Ht. rewrite R4. apply in_or_app. now left.
  - destruct R as (_ & R5 & R6). rewrite R5, R6 in Hold.
    destruct (step_scheduled is_remove_old 1500 _ _ _ (Inv Hold) H)
      as [S|(k & due & c & [=] & _)]; exact S.
  - destruct R as (_ & R5 & R6). rewrite R5, R6 in Hold.
    destruct (step_scheduled is_remove_old 1500 _ _ _ (Inv Hold) H)
      as [S|(k & due & c & [=] & _)]; exact S.
  - destruct R as (due & c & Hk & _ & R5 & R6). rewrite R5, R6 in Hold.
    destruct (is_remove_old c) eqn:Hc; [destruct Hold; congruence|].
    destruct (step_scheduled is_remove_old 1500 _ _ _ (Inv Hold) H)
      as [S|(k' & due' & c' & [= <-] & Hk' & Hc')]; [exact S|].
    rewrite Hk in Hk'. injection Hk' as _ <-. congruence.
Qed.

(** X22.  The line that a reroute keeps as the old line does not stay: at
    every point after the component was mounted, while a ref holds an old
    line or an old glow, a timer that removes them from the map is set, and
    fires within 1.5 s. *)
Theorem old_line_removal_is_scheduled (trace : list MapEvent)
    (m : MapState) :
  map_run stringify mounted trace = Some m ->
  oldPolylineRef m <> None \/ oldPolylineGlowRef m <> None ->
  scheduled is_remove_old 1500 m.
Proof.
  apply (map_run_invariant
           (fun m => oldPolylineRef m <> None \/ oldPolylineGlowRef m <> None
                     -> scheduled is_remove_old 1500 m)).
  - intros m0 e m1 Inv H. exact (step_old_line_removed m0 m1 e Inv H).
  - intros [H|H]; now contradiction H.
Qed.

(** *** The markers on the map *)

Lemma marker_ids_app (m : MapState) (l : list (nat * Layer)) :
  marker_ids (with_layers (layers m ++ l) m)
    = marker_ids m ++ map fst (filter (fun il => is_marker (snd il)) l).
Proof. unfold marker_ids. cbn. now rewrite filter_app, map_app. Qed.

Lemma marker_ids_kept (ids : list nat) (m : MapState) :
  marker_ids (with_layers (filter (kept ids) (layers m)) m)
    = filter (notin ids) (marker_ids m).
Proof.
  unfold marker_ids. cbn [layers with_layers].
  induction (layers m) as [|[i x] l IH]; [reflexivity|].
  cbn. unfold kept, notin in *. cbn.
  destruct (existsb (Nat.eqb i) ids) eqn:E; cbn;
    destruct (is_marker x) eqn:M; cbn; rewrite ?E, ?M; cbn; congruence.
Qed.

Lemma filter_notin_all (ids l : list nat) :
  (forall i, In i l -> ~ In i ids) -> filter (notin ids) l = l.
Proof.
  induction l as [|i l IH]; intros H; [reflexivity|].
  cbn. unfold notin at 1.
  destruct (existsb (Nat.eqb i) ids) eqn:E.
  - apply existsb_exists in E as (j & Hj & Heq).
    apply Nat.eqb_eq in Heq. subst j. exfalso. apply (H i); [now left | exact Hj].
  - cbn. f_equal. apply IH. intros j Hj. apply H. now right.
Qed.

Lemma filter_notin_none (ids l : list nat) :
  (forall i, In i l -> In i ids) -> filter (notin ids) l = [].
Proof.
  induction l as [|i l IH]; intros H; [reflexivity|].
  cbn. unfold notin at 1.
  assert (existsb (Nat.eqb i) ids = true) as ->.
  { apply existsb_exists. exists i. split; [apply H; now left|].
    apply Nat.eqb_refl. }
  cbn. apply IH. intros j Hj. apply H. now right.
Qed.

Lemma marker_ids_remove_ref (r : option nat) (m : MapState) :
  marker_ids (remove_ref r m) = filter (notin (ref_ids r)) (marker_ids m).
Proof. rewrite remove_ref_eq. apply marker_ids_kept. Qed.

Lemma marker_ids_setStyle_ref (r : option nat) (f : PathStyle -> PathStyle)
    (m : MapState) :
  marker_ids (setStyle_ref r f m) = marker_ids m.
Proof.
  destruct r as [id|]; [|reflexivity].
  unfold marker_ids, setStyle_ref, setStyle. cbn.
  induction (layers m) as [|[i l] ls IH]; [reflexivity|].
  cbn [map filter]. destruct l as [pts style|pos icon popup z o].
  - destruct (Nat.eqb i id); cbn; exact IH.
  - cbn. now f_equal.
Qed.

(** A state with the same markers, the same identities given out, and no
    new ref to a line, keeps its accounts. *)
Lemma accounted_same (m m' : MapState) :
  accounted m ->
  marker_ids m' = marker_ids m ->
  held_markers m' = held_markers m ->
  next_id m' = next_id m ->
  (forall id, In id (line_refs m') -> In id (line_refs m)) ->
  accounted m'.
Proof.
  intros (A & B & C & D) H1 H2 H3 H4. unfold accounted.
  rewrite H1, H2, H3. repeat split; try assumption; try apply A.
  - apply D. now apply H4.
  - apply D. now apply H4.
Qed.

Lemma detect_reroute_quiet_eq (isEventActive : bool) (m : MapState) :
  detect_reroute false isEventActive m
    = m |> with_layers
             (filter (kept (ref_ids (polylineRef m)
                            ++ ref_ids (polylineGlowRef m))) (layers m))
        |> with_polylineRef None |> with_polylineGlowRef None.
Proof.
  destruct m as [ls nid vw ms pl pg sm em pv ol og ir ts nw].
  unfold detect_reroute.
  destruct pl as [pl|], pg as [pg|];
    cbv - [filter kept negb existsb Nat.eqb app fst]; f_equal;
    rewrite ?filter_filter; try (symmetry; apply filter_all);
    apply filter_ext; intros il; unfold kept; cbn [existsb app];
    rewrite ?orb_false_r, ?negb_orb; reflexivity.
Qed.

Lemma detect_reroute_accounted (rerouting isEventActive : bool)
    (m : MapState) :
  accounted m -> accounted (detect_reroute rerouting isEventActive m).
Proof.
  intros Acc. pose proof Acc as (_ & _ & _ & D).
  destruct rerouting.
  - apply (accounted_same m _ Acc); unfold detect_reroute;
      cbn [with_isReroutingRef polylineRef];
      destruct (polylineRef m) as [pl|] eqn:Ep; try reflexivity; auto.
    intros id. unfold line_refs. cbn. rewrite Ep.
    rewrite !in_app_iff. cbn [ref_ids In]. tauto.
  - rewrite detect_reroute_quiet_eq.
    apply (accounted_same m _ Acc); try reflexivity.
    + change (marker_ids
                (with_layers
                   (filter (kept (ref_ids (polylineRef m)
                                  ++ ref_ids (polylineGlowRef m)))
                      (layers m)) m) = marker_ids m).
      rewrite marker_ids_kept. apply filter_notin_all.
      intros i Hi Hin. apply (D i); [|exact Hi].
      unfold line_refs. rewrite !in_app_iff in *. tauto.
    + intros id. unfold line_refs. cbn. rewrite !in_app_iff. tauto.
Qed.

Lemma clear_markers_tidy (m : MapState) :
  accounted m -> tidy (clear_markers m) /\ markersRef (clear_markers m) = [].
Proof.
  intros (A & B & C & D). rewrite clear_markers_eq.
  assert (marker_ids
            (with_layers (filter (kept (held_markers m)) (layers m)) m) = [])
    as E.
  { rewrite marker_ids_kept. apply filter_notin_none. intros i. apply A. }
  unfold tidy.
  change (marker_ids
            (m |> with_layers (filter (kept (held_markers m)) (layers m))
               |> with_markersRef [] |> with_stepMarkerRef None
               |> with_eventMarkerRef None))
    with (marker_ids
            (with_layers (filter (kept (held_markers m)) (layers m)) m)).
  rewrite E. cbn -[filter kept line_refs].
  repeat split; try constructor; try contradiction.
  - now apply D.
  - now intros [].
Qed.

Lemma add_place_marker_tidy (pt : option Routing.Place.t)
    (type heading fallback : string) (positions : list LatLng)
    (m : MapState) :
  tidy m ->
  let m' := snd (add_place_marker pt type heading fallback (positions, m)) in
  tidy m'
  /\ List.length (markersRef m')
     = (List.length (markersRef m)
        + match place_pos pt with Some _ => 1 | None => 0 end)%nat.
Proof.
  intros T. pose proof T as (T1 & T2 & T3 & T4 & T5 & T6). cbv zeta.
  unfold add_place_marker.
  destruct pt as [a|]; [|split; [exact T | cbn; lia]].
  destruct (place_pos (Some a)) as [pos|]; [|split; [exact T | cbn; lia]].
  clear T.
  cbn [addTo snd fst]. unfold tidy.
  set (mk := Marker pos _ _ _ _).
  assert (marker_ids
            (with_markersRef (markersRef m ++ [next_id m])
               (with_next_id (S (next_id m))
                  (with_layers (layers m ++ [(next_id m, mk)]) m)))
          = marker_ids m ++ [next_id m]) as E
    by (exact (marker_ids_app m [(next_id m, mk)])).
  cbn -[marker_ids line_refs] in *. rewrite E.
  repeat split; try assumption.
  - now rewrite T3.
  - rewrite <- T3. apply NoDup_app_remove_l with (l := []).
    cbn. rewrite T3.
    apply NoDup_app; [exact T4 | constructor; [auto | constructor]|].
    intros i Hi [<-|[]]. rewrite <- T3 in Hi. apply T5 in Hi. lia.
  - intros id Hid. apply in_app_or in Hid as [Hid|[<-|[]]]; [|lia].
    apply T5 in Hid. lia.
  - apply (T6 id) in H. lia.
  - intros Hid. apply in_app_or in Hid as [Hid|[<-|[]]].
    + now apply (T6 id) in H.
    + apply (T6 _) in H. lia.
  - rewrite length_app. reflexivity.
Qed.

Lemma draw_route_ids (r : list LatLng) (isEventActive isCalculating : bool)
    (positions : list LatLng) (m : MapState) :
  (0 <? List.length r)%nat = true ->
  let m' := snd (draw_route r isEventActive isCalculating (positions, m)) in
  marker_ids m' = marker_ids m /\ markersRef m' = markersRef m
  /\ stepMarkerRef m' = stepMarkerRef m
  /\ eventMarkerRef m' = eventMarkerRef m
  /\ next_id m' = S (S (next_id m))
  /\ polylineRef m' = Some (S (next_id m))
  /\ polylineGlowRef m' = Some (next_id m)
  /\ oldPolylineRef m' = oldPolylineRef m
  /\ oldPolylineGlowRef m' = oldPolylineGlowRef m.
Proof.
  intros Hr. cbv zeta. unfold draw_route. rewrite Hr.
  destruct (colours _ _ _) as [mainColor glowColor].
  unfold when, marker_ids.
  destruct (isReroutingRef m); cbn; rewrite !filter_app; cbn;
    rewrite !app_nil_r; repeat split.
Qed.

Lemma draw_route_tidy (r : list LatLng) (isEventActive isCalculating : bool)
    (positions : list LatLng) (m : MapState) :
  tidy m ->
  let m' := snd (draw_route r isEventActive isCalculating (positions, m)) in
  tidy m' /\ markersRef m' = markersRef m.
Proof.
  intros T. pose proof T as (T1 & T2 & T3 & T4 & T5 & T6). cbv zeta.
  destruct (0 <? List.length r)%nat eqn:Hr.
  2:{ unfold draw_route. rewrite Hr.
      destruct (colours _ _ _). split; [exact T | reflexivity]. }
  destruct (draw_route_ids r isEventActive isCalculating positions m Hr)
    as (E1 & E2 & E3 & E4 & E5 & E6 & E7 & E8 & E9).
  cbv zeta in *.
  set (m' := snd (draw_route r isEventActive isCalculating (positions, m)))
    in *.
  split; [|exact E2]. unfold tidy, line_refs.
  rewrite E1, E2, E3, E4, E5, E6, E7, E8, E9.
  repeat match goal with |- _ /\ _ => split end; try assumption.
  - intros id Hid. apply T5 in Hid. lia.
  - intros id Hid. rewrite !in_app_iff in Hid. cbn [ref_ids In] in Hid.
    destruct Hid as [[<-|[]]|[[<-|[]]|Hold]].
    + split; [lia | intros Hin; apply T5 in Hin; lia].
    + split; [lia | intros Hin; apply T5 in Hin; lia].
    + assert (In id (line_refs m)) as Hl
        by (unfold line_refs; rewrite !in_app_iff; tauto).
      apply T6 in Hl. split; [lia | tauto].
Qed.

Lemma add_event_marker_accounted (ev : option Routing.MockEvent.t)
    (m : MapState) :
  tidy m ->
  let m' := add_event_marker ev m in
  accounted m'
  /\ marker_ids m' = held_markers m'
  /\ stepMarkerRef m' = None
  /\ List.length (marker_ids m')
     = (List.length (markersRef m)
        + match ev with
          | Some ev =>
              if num_truthy (Routing.MockEvent.lat ev)
                 && num_truthy (Routing.MockEvent.lon ev)
              then 1 else 0
          | None => 0
          end)%nat.
Proof.
  intros (T1 & T2 & T3 & T4 & T5 & T6). cbv zeta.
  assert (accounted m /\ marker_ids m = held_markers m
          /\ List.length (marker_ids m) = (List.length (markersRef m) + 0)%nat)
    as Hsame.
  { unfold accounted, held_markers. rewrite T1, T2, T3, app_nil_r.
    repeat split; try assumption; try tauto.
    - rewrite <- T3. auto.
    - now apply T6.
    - rewrite <- T3. now apply T6.
    - lia. }
  unfold add_event_marker.
  destruct ev as [ev|]; [|tauto].
  destruct (num_truthy _ && num_truthy _); [|tauto].
  clear Hsame. cbn [addTo].
  set (mk := Marker _ _ _ _ _).
  assert (marker_ids
            (with_eventMarkerRef (Some (next_id m))
               (with_next_id (S (next_id m))
                  (with_layers (layers m ++ [(next_id m, mk)]) m)))
          = marker_ids m ++ [next_id m]) as E
    by (exact (marker_ids_app m [(next_id m, mk)])).
  unfold accounted. rewrite E. unfold held_markers, line_refs in *.
  cbn -[marker_ids]. rewrite T1, T3. cbn [app].
  assert (forall id, In id (markersRef m) -> (id < next_id m)%nat) as T5'
    by (intros id Hid; apply T5; now rewrite T3).
  repeat match goal with |- _ /\ _ => split end; try tauto.
  - apply NoDup_app; [exact T4 | constructor; [auto | constructor]|].
    intros i Hi [<-|[]]. apply T5' in Hi. lia.
  - intros id Hid. apply in_app_or in Hid as [Hid|[<-|[]]]; [|lia].
    apply T5' in Hid. lia.
  - intros id Hid. apply T6 in Hid. split; [lia|].
    intros Hin. apply in_app_or in Hin as [Hin|[<-|[]]]; [|lia].
    rewrite <- T3 in Hin. tauto.
  - rewrite length_app. reflexivity.
Qed.

(** The route effect, on the markers. *)
Lemma route_effect_markers (p : Props) (m : MapState) :
  accounted m ->
  let m' := route_effect stringify p m in
  accounted m'
  /\ marker_ids m' = held_markers m'
  /\ stepMarkerRef m' = None
  /\ List.length (marker_ids m') = markers_for p.
Proof.
  intros Acc. cbv zeta. unfold route_effect.
  set (ev := match simulatedEvent p with Some _ => true | None => false end).
  set (rr := isRerouting (previousGeometryRef m) (currentGeometry stringify p)).
  pose proof (detect_reroute_accounted rr ev m Acc) as A1.
  set (m1 := detect_reroute rr ev m) in *.
  destruct (clear_markers_tidy m1 A1) as (T2 & L2).
  set (m2 := clear_markers m1) in *.
  destruct (add_place_marker_tidy (startPoint p) "start" "Start" "Origin"
              [] m2 T2) as (T3 & L3).
  destruct (add_place_marker (startPoint p) "start" "Start" "Origin" ([], m2))
    as [pos3 m3]. cbn [snd] in T3, L3.
  destruct (add_place_marker_tidy (endPoint p) "end" "Destination"
              "Destination" pos3 m3 T3) as (T4 & L4).
  destruct (add_place_marker (endPoint p) "end" "Destination" "Destination"
              (pos3, m3)) as [pos4 m4]. cbn [snd] in T4, L4.
  destruct (draw_route_tidy (route p) ev (isCalculating p) pos4 m4 T4)
    as (T5 & L5).
  destruct (draw_route (route p) ev (isCalculating p) (pos4, m4))
    as [pos5 m5]. cbn [snd] in T5, L5.
  set (m6 := when _ _ m5).
  set (m7 := with_previousGeometryRef (currentGeometry stringify p) m6).
  assert (tidy m7 /\ markersRef m7 = markersRef m5) as (T7 & L7)
    by (subst m7 m6; unfold when;
        destruct (0 <? List.length pos5)%nat; split; (exact T5 || reflexivity)).
  destruct (add_event_marker_accounted (simulatedEvent p) m7 T7)
    as (G1 & G2 & G3 & G4).
  split; [exact G1|]. split; [exact G2|]. split; [exact G3|].
  rewrite G4, L7, L5, L4, L3, L2. unfold markers_for. cbn [List.length].
  lia.
Qed.

Lemma notin_spec (ids : list nat) (i : nat) :
  notin ids i = true <-> ~ In i ids.
Proof.
  unfold notin. rewrite negb_true_iff. split.
  - intros E Hin.
    assert (existsb (Nat.eqb i) ids = true) as E'
      by (apply existsb_exists; exists i; split;
          [exact Hin | apply Nat.eqb_refl]).
    congruence.
  - intros Hn. destruct (existsb (Nat.eqb i) ids) eqn:E; [|reflexivity].
    apply existsb_exists in E as (j & Hj & Heq).
    apply Nat.eqb_eq in Heq. subst j. contradiction.
Qed.

Lemma NoDup_app_inv (A : Type) (l1 l2 : list A) :
  NoDup (l1 ++ l2) ->
  NoDup l1 /\ NoDup l2 /\ (forall a, In a l1 -> In a l2 -> False).
Proof.
  induction l1 as [|x l1 IH]; cbn; intros H.
  - repeat split; [constructor | exact H | tauto].
  - inversion H as [|y l Hx Hl]; subst.
    destruct (IH Hl) as (I1 & I2 & I3).
    repeat split; [|exact I2|].
    + constructor; [|exact I1]. intros Hin. apply Hx.
      apply in_or_app. now left.
    + intros a [<-|Ha] H2; [|eauto].
      apply Hx. apply in_or_app. now right.
Qed.

Lemma fly_accounted (pos : float * float) (m : MapState) :
  accounted m ->
  accounted
    (let (id, m') :=
       addTo (Marker pos createPulseIcon None 1000 false)
         (with_view (FlyTo pos 17) (remove_ref (stepMarkerRef m) m)) in
     with_stepMarkerRef (Some id) m').
Proof.
  intros (A & B & C & D).
  set (mk := Marker pos createPulseIcon None 1000 false).
  set (M := let (id, m') :=
              addTo mk (with_view (FlyTo pos 17)
                          (remove_ref (stepMarkerRef m) m)) in
            with_stepMarkerRef (Some id) m').
  assert (marker_ids M
          = filter (notin (ref_ids (stepMarkerRef m))) (marker_ids m)
            ++ [next_id m]) as E.
  { rewrite <- marker_ids_remove_ref. subst M.
    destruct (stepMarkerRef m); unfold marker_ids; cbn;
      rewrite filter_app; cbn; now rewrite map_app. }
  assert (held_markers M
          = markersRef m ++ [next_id m] ++ ref_ids (eventMarkerRef m)
          /\ next_id M = S (next_id m)
          /\ line_refs M = line_refs m) as (E2 & E3 & E4)
    by (subst M; destruct (stepMarkerRef m); repeat split).
  unfold accounted. rewrite E, E2, E3, E4. clear E E2 E3 E4.
  assert (forall id, In id (held_markers m) -> (id < next_id m)%nat) as Hb
    by (intros id Hid; apply C, A, Hid).
  unfold held_markers in *. fold (ref_ids (stepMarkerRef m)) in *.
  fold (ref_ids (eventMarkerRef m)) in *.
  destruct (NoDup_app_inv _ _ _ B) as (B1 & B2 & B3).
  destruct (NoDup_app_inv _ _ _ B2) as (_ & B5 & B6).
  assert (forall id,
            In id (filter (notin (ref_ids (stepMarkerRef m))) (marker_ids m))
            <-> In id (markersRef m) \/ In id (ref_ids (eventMarkerRef m)))
    as Hf.
  { intros id. rewrite filter_In, notin_spec, A, !in_app_iff.
    split; [tauto|]. intros H. split; [tauto|]. intros Hs.
    destruct H as [H|H].
    - apply (B3 id H). apply in_or_app. now left.
    - exact (B6 id Hs H). }
  repeat match goal with |- _ /\ _ => split end.
  - intros id. rewrite !in_app_iff, Hf. cbn [In]. tauto.
  - apply NoDup_app; [exact B1| |].
    + change ([next_id m] ++ ref_ids (eventMarkerRef m))
        with (next_id m :: ref_ids (eventMarkerRef m)).
      constructor; [|exact B5].
      intros Hin.
      assert (next_id m < next_id m)%nat; [|lia].
      apply Hb. rewrite !in_app_iff. tauto.
    + intros id H1 H2. rewrite in_app_iff in H2. cbn [In] in H2.
      destruct H2 as [[<-|[]]|H2].
      * assert (next_id m < next_id m)%nat; [|lia].
        apply Hb. rewrite !in_app_iff. tauto.
      * apply (B3 id H1). rewrite in_app_iff. tauto.
  - intros id Hid. apply in_app_or in Hid as [Hid|[<-|[]]]; [|lia].
    apply filter_In in Hid as [Hid _]. apply C in Hid. lia.
  - intros id Hid. apply D in Hid as [Hlt Hno]. split; [lia|].
    intros Hin. apply in_app_or in Hin as [Hin|[<-|[]]]; [|lia].
    apply filter_In in Hin as [Hin _]. contradiction.
Qed.

Lemma zoom_effect_accounted (p : Props) (m : MapState) :
  accounted m -> accounted (zoom_effect p m).
Proof.
  intros Acc. unfold zoom_effect.
  destruct (activeStepIndex p) as [i|]; [|exact Acc].
  destruct (steps p) as [ss|]; [|exact Acc].
  destruct (nth_error ss i) as [step|]; [|exact Acc].
  destruct (location step) as [[lat lon]|].
  - destruct (num_truthy lat && num_truthy lon); [|exact Acc].
    exact (fly_accounted (lat, lon) m Acc).
  - destruct (maneuver_location step) as [[lon lat]|]; [|exact Acc].
    destruct (num_truthy lat && num_truthy lon); [|exact Acc].
    exact (fly_accounted (lat, lon) m Acc).
Qed.

Lemma remove_old_eq (m : MapState) :
  run_callback RemoveOld m
    = m |> with_layers
             (filter (kept (ref_ids (oldPolylineRef m)
                            ++ ref_ids (oldPolylineGlowRef m))) (layers m))
        |> with_oldPolylineRef None |> with_oldPolylineGlowRef None.
Proof.
  destruct m as [ls nid vw ms pl pg sm em pv ol og ir ts nw].
  unfold run_callback.
  destruct ol as [ol|], og as [og|];
    cbv - [filter kept negb existsb Nat.eqb app fst]; f_equal;
    rewrite ?filter_filter; try (symmetry; apply filter_all);
    apply filter_ext; intros il; unfold kept; cbn [existsb app];
    rewrite ?orb_false_r, ?negb_orb; reflexivity.
Qed.

Lemma run_callback_accounted (cb : Callback) (m : MapState) :
  accounted m -> accounted (run_callback cb m).
Proof.
  intros Acc. pose proof Acc as (_ & _ & _ & D). destruct cb.
  - apply (accounted_same m _ Acc).
    + unfold run_callback. now rewrite !marker_ids_setStyle_ref.
    + unfold run_callback.
      destruct (oldPolylineRef m), (oldPolylineGlowRef m); reflexivity.
    + unfold run_callback.
      destruct (oldPolylineRef m), (oldPolylineGlowRef m); reflexivity.
    + unfold run_callback.
      destruct (oldPolylineRef m), (oldPolylineGlowRef m); auto.
  - rewrite remove_old_eq.
    apply (accounted_same m _ Acc); try reflexivity.
    + change (marker_ids
                (with_layers
                   (filter (kept (ref_ids (oldPolylineRef m)
                                  ++ ref_ids (oldPolylineGlowRef m)))
                      (layers m)) m) = marker_ids m).
      rewrite marker_ids_kept. apply filter_notin_all.
      intros i Hi Hin. apply (D i); [|exact Hi].
      unfold line_refs. rewrite !in_app_iff in *. tauto.
    + intros id. unfold line_refs. cbn. rewrite !in_app_iff. cbn [In].
      tauto.
  - apply (accounted_same m _ Acc).
    + unfold run_callback.
      change (marker_ids
                (setStyle_ref (polylineGlowRef m)
                   (fun s => set_opacity 0.15%float
                               (set_color (if isEventActive then "#8B4513"
                                           else "#1e40af") s))
                   (setStyle_ref (polylineRef m)
                      (fun s => set_weight 6
                                  (set_color (if isEventActive then "#D2691E"
                                              else "#3b82f6") s)) m))
              = marker_ids m).
      now rewrite !marker_ids_setStyle_ref.
    + unfold run_callback.
      destruct (polylineRef m), (polylineGlowRef m); reflexivity.
    + unfold run_callback.
      destruct (polylineRef m), (polylineGlowRef m); reflexivity.
    + unfold run_callback.
      destruct (polylineRef m), (polylineGlowRef m); auto.
Qed.

Lemma step_accounted (m m' : MapState) (e : MapEvent) :
  accounted m -> map_step stringify m e = Some m' -> accounted m'.
Proof.
  intros Acc H. destruct e as [p|p|d|k|]; cbn in H.
  5:{ injection H as <-.
      destruct (recenter_eq m) as [->|(v & ->)]; [exact Acc|].
      apply (accounted_same m _ Acc); auto. }
  - injection H as <-. now apply route_effect_markers.
  - injection H as <-. now apply zoom_effect_accounted.
  - destruct ((0 <? d) && forallb _ (timers m)); [|discriminate].
    injection H as <-. exact Acc.
  - destruct (nth_error (timers m) k) as [[due c]|]; [|discriminate].
    destruct (due <=? now m); [|discriminate]. injection H as <-.
    apply run_callback_accounted. exact Acc.
Qed.

Lemma run_accounted (trace : list MapEvent) (m : MapState) :
  map_run stringify mounted trace = Some m -> accounted m.
Proof.
  apply (map_run_invariant accounted).
  - intros m0 e m1 Inv H. exact (step_accounted m0 m1 e Inv H).
  - unfold accounted. cbn. repeat split; try tauto; try constructor.
Qed.

(** X23.  No marker leaks.  At every point after the component was
    mounted, the markers on the map are exactly the markers the refs hold,
    each held once; so a run of the route effect, which removes what the
    refs hold, leaves no marker of an earlier run on the map: after it the
    markers on the map are the ones it has added (the start and the end
    point if their coordinates are truthy, and the simulated event
    likewise), and the marker of the highlighted step is gone. *)
Theorem markers_are_accounted (trace : list MapEvent) (m : MapState)
    (p : Props) :
  map_run stringify mounted trace = Some m ->
  (forall id, In id (marker_ids m) <-> In id (held_markers m))
  /\ NoDup (held_markers m)
  /\ let m' := route_effect stringify p m in
     marker_ids m' = held_markers m'
     /\ stepMarkerRef m' = None
     /\ List.length (marker_ids m') = markers_for p.
Proof.
  intros Hrun. pose proof (run_accounted trace m Hrun) as Acc.
  destruct (route_effect_markers p m Acc) as (_ & R).
  destruct Acc as (A & B & _). auto.
Qed.

End Route.

(** X21, witness: the route is displayed for a second, and changes. *)
Lemma reroute_flag_settles_witness :
  isReroutingRef (after_map rerouted) = true
  /\ scheduled is_settle 2000 (after_map rerouted).
Proof.
  assert (isReroutingRef (after_map rerouted) = true) as H
    by (vm_compute; reflexivity).
  split; [exact H|].
  exact (reroute_flag_settles no_text rerouted (after_map rerouted)
           ltac:(vm_compute; reflexivity) H).
Defined.

(** X22, witness: the same session; the first line is kept as the old
    line. *)
Lemma old_line_removal_is_scheduled_witness :
  oldPolylineRef (after_map rerouted) = Some 3%nat
  /\ scheduled is_remove_old 1500 (after_map rerouted).
Proof.
  assert (oldPolylineRef (after_map rerouted) = Some 3%nat) as H
    by (vm_compute; reflexivity).
  split; [exact H|].
  apply (old_line_removal_is_scheduled no_text rerouted (after_map rerouted)
           ltac:(vm_compute; reflexivity)).
  left. rewrite H. discriminate.
Defined.

(** X23, witness: after the same session the effect runs again; the two
    markers of the run before are replaced by two new ones. *)
Lemma markers_are_accounted_witness :
  marker_ids (after_map rerouted) = [4; 5]%nat
  /\ marker_ids (after_map (rerouted ++ [RouteEffect props_first]))
     = [8; 9]%nat
  /\ List.length
       (marker_ids (route_effect no_text props_first (after_map rerouted)))
     = markers_for props_first.
Proof.
  pose proof (markers_are_accounted no_text rerouted (after_map rerouted)
                props_first ltac:(vm_compute; reflexivity))
    as (_ & _ & _ & _ & H).
  split; [vm_compute; reflexivity|]. split; [vm_compute; reflexivity|].
  exact H.
Defined.

End MapFacts.
